(** * Spatiotemporal drone-state engine of the swarm dashboard

    A shallow embedding of the numeric core of the dashboard:
    - [getDronesAtTime], [getDroneTrajectory]          (data/mockData.ts)
    - [matchesFilters], [interpolatedDrones],
      [trajectoryPaths]                                 (DroneSwarmDashboard.tsx)
    - [normalizeToMap], [clampWithMargin]               (DroneRangeMap2D.tsx)
    - [detectionCoverage]                               (DroneStatistics)
    - [closestPointsBetweenSegments],
      [vectorIntersections]                             (DroneVisualization3D.tsx)

    Numbers.  A JavaScript [number] that carries a measurement (a coordinate,
    a battery level, a time on the timeline) is modelled by a real number, so
    [+], [-], [*], [/], [Math.sqrt], [Math.min], [Math.max] and [Math.PI] are
    the exact operations of [R]; rounding, overflow and NaN of IEEE doubles
    are outside that model.  The one place where the source starts
    accumulators at [Infinity] and [-Infinity] is modelled with an explicit
    extended number.  The 2D projection, whose guard against a zero span is
    about [NaN] and [Infinity], is modelled a second time on doubles with
    their special values and overflow ([Module Double]).  A number that is a
    time index is an integer ([Z]); an array length or a counter is a [nat].

    Comparisons on [R] are decided by [Rlt_dec] and friends, wrapped as
    boolean functions so that the definitions read like the source. *)

From Stdlib Require Import Reals Lra Lia ZArith List String Bool.
From Stdlib Require Import Permutation Sorted.
Import ListNotations.

Open Scope R_scope.

(** * Part I: the program *)

(** ** JavaScript numbers as reals *)

Module Num.

(** [a < b], [a <= b], [a > b], [a >= b] and [a === b] of the source. *)
Definition ltb (a b : R) : bool := if Rlt_dec a b then true else false.
Definition leb (a b : R) : bool := if Rle_dec a b then true else false.
Definition gtb (a b : R) : bool := ltb b a.
Definition geb (a b : R) : bool := leb b a.
Definition eqb (a b : R) : bool := if Req_dec_T a b then true else false.

(** [Math.floor] of a finite number, as an integer. *)
Definition floor (a : R) : Z := Int_part a.

End Num.

(** The accumulators of a running minimum or maximum: a real number, or
    the [Infinity] / [-Infinity] they start from. *)
Inductive ExtNum : Type :=
| NegInfinity
| Finite (r : R)
| Infinity.

(** [Math.min(acc, v)] and [Math.max(acc, v)] for a finite [v]. *)
Definition Math_min (acc : ExtNum) (v : R) : ExtNum :=
  match acc with
  | NegInfinity => NegInfinity
  | Finite r => Finite (Rmin r v)
  | Infinity => Finite v
  end.

Definition Math_max (acc : ExtNum) (v : R) : ExtNum :=
  match acc with
  | NegInfinity => Finite v
  | Finite r => Finite (Rmax r v)
  | Infinity => Infinity
  end.

(** ** Data model (types/drone.ts) *)

Record DronePosition := { x : R; y : R; z : R }.

(** [DroneVelocity] has the same three fields as [DronePosition]. *)
Definition DroneVelocity := DronePosition.

Record DroneOrientation := { pitch : R; roll : R; yaw : R }.

Record DroneData := {
  droneId : string;
  timePoint : Z;
  timeLabel : option string;
  swarmId : string;
  swarmLabel : option string;
  taskId : string;
  taskLabel : option string;
  state : string;
  position : DronePosition;
  velocity : DroneVelocity;
  orientation : DroneOrientation;
  batteryPercentage : R;
  detectionRange : R;
  signalIntensity : R;
  videoFeedbackOn : bool
}.

Record BoundingBox := { bbox_min : DronePosition; bbox_max : DronePosition }.

(** Of [metadata] only the bounding box is read by the functions below. *)
Record DroneSwarmDataset := {
  timePoints : list Z;
  timePointLabels : option (list string);
  drones : list DroneData;
  boundingBox : BoundingBox
}.

Record VisualizationFilters := {
  selectedSwarms : list string;
  selectedTasks : list string;
  selectedStates : list string;
  batteryRange : R * R;
  showTrajectories : bool;
  showDetectionRanges : bool;
  showVelocityVectors : bool;
  showSignalIntensity : bool;
  showVideoFeedback : bool
}.

(** ** Arrays, Sets and Maps of the source *)

(** [Array.prototype.includes] on an array of strings. *)
Definition includes (l : list string) (s : string) : bool :=
  existsb (String.eqb s) l.

(** [Array.from(new Set(ids))]: the distinct strings, each at the place of
    its first occurrence. *)
Fixpoint Set_from (seen : list string) (ids : list string) : list string :=
  match ids with
  | [] => []
  | i :: rest =>
      if includes seen i then Set_from seen rest
      else i :: Set_from (i :: seen) rest
  end.

(** [Array.prototype.sort(compareFn)]: a stable sort; [a] stays in front of
    [b] unless [compareFn a b > 0]. *)
Fixpoint Array_insert {A : Type} (compareFn : A -> A -> Z) (a : A) (sorted : list A)
  : list A :=
  match sorted with
  | [] => [a]
  | b :: rest =>
      if (compareFn a b <=? 0)%Z then a :: b :: rest
      else b :: Array_insert compareFn a rest
  end.

Definition Array_sort {A : Type} (compareFn : A -> A -> Z) (arr : list A) : list A :=
  fold_right (Array_insert compareFn) [] arr.

(** A [Map<string, V>]: [set] overwrites the value of a key that is
    present, [new] inserts the entries from left to right (so the last
    entry of a key wins), [get] answers [undefined] as [None]. *)
Module JSMap.

Definition t (V : Type) : Type := list (string * V).

Fixpoint set {V : Type} (m : t V) (k : string) (v : V) : t V :=
  match m with
  | [] => [(k, v)]
  | (k', v') :: m' =>
      if String.eqb k' k then (k', v) :: m' else (k', v') :: set m' k v
  end.

Definition new {V : Type} (entries : list (string * V)) : t V :=
  fold_left (fun m kv => set m (fst kv) (snd kv)) entries [].

Fixpoint get {V : Type} (m : t V) (k : string) : option V :=
  match m with
  | [] => None
  | (k', v) :: m' => if String.eqb k' k then Some v else get m' k
  end.

End JSMap.

(** ** data/mockData.ts *)

Definition getDronesAtTime (source : DroneSwarmDataset) (timePoint0 : Z)
  : list DroneData :=
  filter (fun drone => (timePoint drone =? timePoint0)%Z) (drones source).

Definition getDroneTrajectory (source : DroneSwarmDataset) (droneId0 : string)
  : list DroneData :=
  Array_sort (fun a b => (timePoint a - timePoint b)%Z)
    (filter (fun drone => String.eqb (droneId drone) droneId0) (drones source)).

(** ** FilterEngine: [matchesFilters] (DroneSwarmDashboard.tsx) *)

Definition matchesFilters (filters : VisualizationFilters) (drone : DroneData) : bool :=
  includes (selectedSwarms filters) (swarmId drone) &&
  includes (selectedTasks filters) (taskId drone) &&
  ((List.length (selectedStates filters) =? 0)%nat
   || includes (selectedStates filters) (state drone)) &&
  Num.geb (batteryPercentage drone) (fst (batteryRange filters)) &&
  Num.leb (batteryPercentage drone) (snd (batteryRange filters)).

(** ** TimeSampler: [interpolatedDrones] (DroneSwarmDashboard.tsx) *)

Definition lerp (from to alpha : R) : R := from + (to - from) * alpha.

(** The object literal returned for a drone that has a [next] sample:
    [{...drone, position: ..., ..., videoFeedbackOn: ...}]. *)
Definition interpolateDrone (drone next : DroneData) (t : R) : DroneData :=
  {| droneId := droneId drone;
     timePoint := timePoint drone;
     timeLabel := timeLabel drone;
     swarmId := swarmId drone;
     swarmLabel := swarmLabel drone;
     taskId := taskId drone;
     taskLabel := taskLabel drone;
     state := state drone;
     position :=
       {| x := lerp (x (position drone)) (x (position next)) t;
          y := lerp (y (position drone)) (y (position next)) t;
          z := lerp (z (position drone)) (z (position next)) t |};
     velocity :=
       {| x := lerp (x (velocity drone)) (x (velocity next)) t;
          y := lerp (y (velocity drone)) (y (velocity next)) t;
          z := lerp (z (velocity drone)) (z (velocity next)) t |};
     orientation :=
       {| pitch := lerp (pitch (orientation drone)) (pitch (orientation next)) t;
          roll := lerp (roll (orientation drone)) (roll (orientation next)) t;
          yaw := lerp (yaw (orientation drone)) (yaw (orientation next)) t |};
     batteryPercentage := lerp (batteryPercentage drone) (batteryPercentage next) t;
     detectionRange := lerp (detectionRange drone) (detectionRange next) t;
     signalIntensity := lerp (signalIntensity drone) (signalIntensity next) t;
     videoFeedbackOn :=
       if Num.ltb t 0.5 then videoFeedbackOn drone else videoFeedbackOn next |}.

(** The values the hook computes before it reads any drone. *)
Definition maxIndexOf (dataset : DroneSwarmDataset) : Z :=
  Z.max 0 (Z.of_nat (List.length (timePoints dataset)) - 1).

Definition clampedTimeOf (dataset : DroneSwarmDataset) (currentTime : R) : R :=
  Rmin (Rmax currentTime 0) (IZR (maxIndexOf dataset)).

Definition startIndexOf (dataset : DroneSwarmDataset) (currentTime : R) : Z :=
  Num.floor (clampedTimeOf dataset currentTime).

Definition endIndexOf (dataset : DroneSwarmDataset) (currentTime : R) : Z :=
  Z.min (startIndexOf dataset currentTime + 1) (maxIndexOf dataset).

Definition fracOf (dataset : DroneSwarmDataset) (currentTime : R) : R :=
  clampedTimeOf dataset currentTime - IZR (startIndexOf dataset currentTime).

Definition endByIdOf (dataset : DroneSwarmDataset) (filters : VisualizationFilters)
  (endIndex : Z) : JSMap.t DroneData :=
  JSMap.new
    (map (fun drone => (droneId drone, drone))
       (filter (matchesFilters filters) (getDronesAtTime dataset endIndex))).

Definition interpolatedDrones (dataset : DroneSwarmDataset)
  (filters : VisualizationFilters) (currentTime : R) : list DroneData :=
  if (List.length (timePoints dataset) =? 0)%nat then []
  else
    let startIndex := startIndexOf dataset currentTime in
    let endIndex := endIndexOf dataset currentTime in
    let t := fracOf dataset currentTime in
    let startDrones :=
      filter (matchesFilters filters) (getDronesAtTime dataset startIndex) in
    if Num.eqb t 0 || (endIndex =? startIndex)%Z then startDrones
    else
      let endById := endByIdOf dataset filters endIndex in
      map (fun drone =>
             match JSMap.get endById (droneId drone) with
             | None => drone
             | Some next => interpolateDrone drone next t
             end)
          startDrones.

(** [currentDrones]: the interpolated drones followed by the custom drones
    that pass the filters. *)
Definition currentDrones (dataset : DroneSwarmDataset)
  (filters : VisualizationFilters) (currentTime : R)
  (customDrones : list DroneData) : list DroneData :=
  interpolatedDrones dataset filters currentTime
  ++ filter (matchesFilters filters) customDrones.

(** ** TrajectoryBuilder: [trajectoryPaths] (DroneSwarmDashboard.tsx) *)

Record TrajectoryPath := {
  path_droneId : string;
  path_swarmId : string;
  points : list (R * R * R)
}.

(** The body of [uniqueIds.forEach]: [None] is the early [return] that
    pushes nothing, [Some path] is the pushed path. *)
Definition trajectoryFor (dataset : DroneSwarmDataset)
  (filters : VisualizationFilters) (droneId0 : string) : option TrajectoryPath :=
  let history :=
    filter (matchesFilters filters) (getDroneTrajectory dataset droneId0) in
  if (List.length history <=? 1)%nat then None
  else
    match nth_error history (List.length history - 1) with
    | None => None
    | Some lastEntry =>
        Some {| path_droneId := droneId0;
                path_swarmId := swarmId lastEntry;
                points :=
                  map (fun entry =>
                         (x (position entry), y (position entry), z (position entry)))
                      history |}
    end.

Definition trajectoryPaths (dataset : DroneSwarmDataset)
  (filters : VisualizationFilters) (currentDrones0 : list DroneData)
  : list TrajectoryPath :=
  if negb (showTrajectories filters) then []
  else
    let uniqueIds := Set_from [] (map droneId currentDrones0) in
    fold_left
      (fun paths droneId0 =>
         match trajectoryFor dataset filters droneId0 with
         | None => paths
         | Some path => paths ++ [path]
         end)
      uniqueIds [].

(** ** SpatialProjector (DroneRangeMap2D.tsx) *)

Definition MAP_MIN : R := 0.
Definition MAP_MAX : R := 100.
Definition MAP_SIZE : R := MAP_MAX - MAP_MIN.

Definition normalizeToMap (coordinate minValue span : R) : R :=
  ((coordinate - minValue) / span) * MAP_SIZE + MAP_MIN.

Definition EDGE_PADDING : R := MAP_SIZE * 0.04.

Definition clampWithMargin (value : R) : R :=
  Rmin (Rmax value (MAP_MIN + EDGE_PADDING)) (MAP_MAX - EDGE_PADDING).

(** [boundingBox ?? { min: {x: MAP_MIN, y: 0, z: MAP_MIN}, max: ... }]. *)
Definition bounds3dOf (boundingBox0 : option BoundingBox) : BoundingBox :=
  match boundingBox0 with
  | Some box => box
  | None =>
      {| bbox_min := {| x := MAP_MIN; y := 0; z := MAP_MIN |};
         bbox_max := {| x := MAP_MAX; y := 0; z := MAP_MAX |} |}
  end.

Definition spanXOf (bounds3d : BoundingBox) : R :=
  Rmax (x (bbox_max bounds3d) - x (bbox_min bounds3d)) 1.

Definition spanZOf (bounds3d : BoundingBox) : R :=
  Rmax (z (bbox_max bounds3d) - z (bbox_min bounds3d)) 1.

(** The pair [(x, y)] that [circles], [timeLayers] and [realtimeMarkers]
    each compute for a drone. *)
Definition projectToMap (boundingBox0 : option BoundingBox) (pos : DronePosition)
  : R * R :=
  let bounds3d := bounds3dOf boundingBox0 in
  let spanX := spanXOf bounds3d in
  let spanZ := spanZOf bounds3d in
  let normalizedX := normalizeToMap (x pos) (x (bbox_min bounds3d)) spanX in
  let normalizedZ := normalizeToMap (z pos) (z (bbox_min bounds3d)) spanZ in
  (clampWithMargin normalizedX, clampWithMargin (MAP_MAX - normalizedZ)).

(** ** The projection on doubles with their special values

    A JS number as [NaN], an infinity or a finite real.  Arithmetic is
    exact on finite values, except that a result whose magnitude reaches the
    overflow threshold of binary64 is an infinity; the special values follow
    IEEE 754 and [Math.max]/[Math.min].  The rounding of finite results and
    the sign of a zero are not modelled (a zero divisor counts as [+0]). *)

Module Double.

Inductive t :=
| NaN
| Inf (isPositive : bool)
| Fin (value : R).

(** [2^1024 - 2^970]: from this magnitude on, rounding to nearest yields an
    infinity. *)
Definition OVERFLOW : R := IZR (2 ^ 1024 - 2 ^ 970).

Definition round (r : R) : t :=
  if Num.leb OVERFLOW (Rabs r) then Inf (Num.ltb 0 r) else Fin r.

Definition opp (a : t) : t :=
  match a with
  | NaN => NaN
  | Inf s => Inf (negb s)
  | Fin u => Fin (- u)
  end.

Definition add (a b : t) : t :=
  match a, b with
  | NaN, _ => NaN
  | _, NaN => NaN
  | Inf s, Inf s' => if Bool.eqb s s' then Inf s else NaN
  | Inf s, Fin _ => Inf s
  | Fin _, Inf s => Inf s
  | Fin u, Fin v => round (u + v)
  end.

Definition sub (a b : t) : t := add a (opp b).

Definition mul (a b : t) : t :=
  match a, b with
  | NaN, _ => NaN
  | _, NaN => NaN
  | Inf s, Inf s' => Inf (Bool.eqb s s')
  | Inf s, Fin v => if Num.eqb v 0 then NaN else Inf (Bool.eqb s (Num.ltb 0 v))
  | Fin u, Inf s => if Num.eqb u 0 then NaN else Inf (Bool.eqb s (Num.ltb 0 u))
  | Fin u, Fin v => round (u * v)
  end.

Definition div (a b : t) : t :=
  match a, b with
  | NaN, _ => NaN
  | _, NaN => NaN
  | Inf _, Inf _ => NaN
  | Inf s, Fin v => Inf (Bool.eqb s (Num.leb 0 v))
  | Fin _, Inf _ => Fin 0
  | Fin u, Fin v =>
      if Num.eqb v 0
      then (if Num.eqb u 0 then NaN else Inf (Num.ltb 0 u))
      else round (u / v)
  end.

(** [Math.max] and [Math.min]: [NaN] when an argument is [NaN]. *)
Definition max (a b : t) : t :=
  match a, b with
  | NaN, _ => NaN
  | _, NaN => NaN
  | Inf true, _ => Inf true
  | _, Inf true => Inf true
  | Inf false, c => c
  | c, Inf false => c
  | Fin u, Fin v => Fin (Rmax u v)
  end.

Definition min (a b : t) : t :=
  match a, b with
  | NaN, _ => NaN
  | _, NaN => NaN
  | Inf false, _ => Inf false
  | _, Inf false => Inf false
  | Inf true, c => c
  | c, Inf true => c
  | Fin u, Fin v => Fin (Rmin u v)
  end.

Definition MAP_MIN : t := Fin 0.
Definition MAP_MAX : t := Fin 100.
Definition MAP_SIZE : t := sub MAP_MAX MAP_MIN.

Definition normalizeToMap (coordinate minValue span : t) : t :=
  add (mul (div (sub coordinate minValue) span) MAP_SIZE) MAP_MIN.

Definition EDGE_PADDING : t := mul MAP_SIZE (Fin 0.04).

Definition clampWithMargin (value : t) : t :=
  min (max value (add MAP_MIN EDGE_PADDING)) (sub MAP_MAX EDGE_PADDING).

Definition spanXOf (bounds3d : BoundingBox) : t :=
  max (sub (Fin (x (bbox_max bounds3d))) (Fin (x (bbox_min bounds3d)))) (Fin 1).

Definition spanZOf (bounds3d : BoundingBox) : t :=
  max (sub (Fin (z (bbox_max bounds3d))) (Fin (z (bbox_min bounds3d)))) (Fin 1).

(** The normalized coordinates, before the clamp. *)
Definition normalizedXOf (bounds3d : BoundingBox) (pos : DronePosition) : t :=
  normalizeToMap (Fin (x pos)) (Fin (x (bbox_min bounds3d))) (spanXOf bounds3d).

Definition normalizedZOf (bounds3d : BoundingBox) (pos : DronePosition) : t :=
  normalizeToMap (Fin (z pos)) (Fin (z (bbox_min bounds3d))) (spanZOf bounds3d).

(** The pair [(x, y)] of a drone on the map, for a position and a box of
    finite numbers. *)
Definition projectToMap (boundingBox0 : option BoundingBox) (pos : DronePosition)
  : t * t :=
  let bounds3d := bounds3dOf boundingBox0 in
  let normalizedX := normalizedXOf bounds3d pos in
  let normalizedZ := normalizedZOf bounds3d pos in
  (clampWithMargin normalizedX, clampWithMargin (sub MAP_MAX normalizedZ)).

End Double.

(** ** GeometricAnalytics: [detectionCoverage] (DroneStatistics) *)

Record DetectionCoverage := {
  coveragePercent : R;
  overlapPairs : nat;
  totalPairs : R
}.

(** The variables of the first loop. *)
Record CoverageBounds := {
  minX : ExtNum;
  maxX : ExtNum;
  minZ : ExtNum;
  maxZ : ExtNum;
  totalCoverageArea : R
}.

Definition coverageInit : CoverageBounds :=
  {| minX := Infinity; maxX := NegInfinity;
     minZ := Infinity; maxZ := NegInfinity;
     totalCoverageArea := 0 |}.

Definition coverageStep (acc : CoverageBounds) (drone : DroneData) : CoverageBounds :=
  {| minX := Math_min (minX acc) (x (position drone) - detectionRange drone);
     maxX := Math_max (maxX acc) (x (position drone) + detectionRange drone);
     minZ := Math_min (minZ acc) (z (position drone) - detectionRange drone);
     maxZ := Math_max (maxZ acc) (z (position drone) + detectionRange drone);
     totalCoverageArea :=
       totalCoverageArea acc + PI * detectionRange drone * detectionRange drone |}.

(** [boundingArea > 0 ? Math.min(100, total / boundingArea * 100) : 0].
    After at least one round of the loop the four bounds are finite; with
    the initial bounds the product of the two (infinite) extents is
    [Infinity] and the quotient is [0]. *)
Definition coveragePercentOf (acc : CoverageBounds) : R :=
  match minX acc, maxX acc, minZ acc, maxZ acc with
  | Finite minX0, Finite maxX0, Finite minZ0, Finite maxZ0 =>
      let boundingArea := Rmax ((maxX0 - minX0) * (maxZ0 - minZ0)) 0 in
      if Num.gtb boundingArea 0
      then Rmin 100 ((totalCoverageArea acc / boundingArea) * 100)
      else 0
  | _, _, _, _ => 0
  end.

(** The test of the inner loop on [drones[i]] and [drones[j]]. *)
Definition planarDistance (a b : DroneData) : R :=
  let dx := x (position a) - x (position b) in
  let dz := z (position a) - z (position b) in
  sqrt (dx * dx + dz * dz).

Definition rangesOverlap (a b : DroneData) : bool :=
  Num.ltb (planarDistance a b) (detectionRange a + detectionRange b).

(** [for (i = 0; i < n; i++) for (j = i + 1; j < n; j++) body(arr[i], arr[j])]
    threading the variables [body] updates. *)
Definition forEachPair {A S : Type} (arr : list A) (body : A -> A -> S -> S)
  (init : S) : S :=
  fold_left
    (fun s i =>
       fold_left
         (fun s' j =>
            match nth_error arr i, nth_error arr j with
            | Some a, Some b => body a b s'
            | _, _ => s'
            end)
         (seq (i + 1) (List.length arr - (i + 1))) s)
    (seq 0 (List.length arr)) init.

Definition countOverlapPairs (drones0 : list DroneData) : nat :=
  forEachPair drones0
    (fun a b overlapPairs0 => if rangesOverlap a b then S overlapPairs0 else overlapPairs0)
    0%nat.

Definition detectionCoverage (drones0 : list DroneData) : DetectionCoverage :=
  let totalDrones := List.length drones0 in
  if (totalDrones =? 0)%nat
  then {| coveragePercent := 0; overlapPairs := 0; totalPairs := 0 |}
  else
    {| coveragePercent := coveragePercentOf (fold_left coverageStep drones0 coverageInit);
       overlapPairs := countOverlapPairs drones0;
       totalPairs := (INR totalDrones * (INR totalDrones - 1)) / 2 |}.

(** ** The part of three.js's [Vector3] the 3D view calls *)

Module THREE.

Record Vector3 := { x : R; y : R; z : R }.

Definition sub (a b : Vector3) : Vector3 :=
  {| x := x a - x b; y := y a - y b; z := z a - z b |}.

Definition add (a b : Vector3) : Vector3 :=
  {| x := x a + x b; y := y a + y b; z := z a + z b |}.

Definition multiplyScalar (a : Vector3) (s : R) : Vector3 :=
  {| x := x a * s; y := y a * s; z := z a * s |}.

Definition addScaledVector (a v : Vector3) (s : R) : Vector3 :=
  {| x := x a + x v * s; y := y a + y v * s; z := z a + z v * s |}.

Definition dot (a b : Vector3) : R :=
  x a * x b + y a * y b + z a * z b.

Definition length (a : Vector3) : R :=
  sqrt (x a * x a + y a * y a + z a * z a).

Definition distanceToSquared (a b : Vector3) : R :=
  let dx := x a - x b in
  let dy := y a - y b in
  let dz := z a - z b in
  dx * dx + dy * dy + dz * dz.

Definition distanceTo (a b : Vector3) : R := sqrt (distanceToSquared a b).

(** [divideScalar(this.length() || 1)]. *)
Definition normalize (a : Vector3) : Vector3 :=
  let l := length a in
  multiplyScalar a (1 / (if Num.eqb l 0 then 1 else l)).

End THREE.

(** ** GeometricAnalytics: velocity vectors (DroneVisualization3D.tsx) *)

Definition VELOCITY_LENGTH_SCALE : R := 300.
Definition VELOCITY_MAX_LENGTH : R := 2400.
Definition VELOCITY_MIN_SPEED : R := 1e-6.
Definition VECTOR_INTERSECTION_THRESHOLD : R := 25.

Record VelocityVectorAttributes := {
  attr_color : string;
  attr_direction : THREE.Vector3;
  attr_length : R;
  attr_speed : R
}.

Record VelocityVectorInfo := {
  vec_id : string;
  vec_color : string;
  vec_start : THREE.Vector3;
  vec_end : THREE.Vector3
}.

Record VelocityIntersection := {
  hit_id : string;
  hit_position : R * R * R;
  hit_color : string
}.

Definition computeVelocityAttributes (drone : DroneData)
  : option VelocityVectorAttributes :=
  let velocity0 :=
    {| THREE.x := x (velocity drone);
       THREE.y := y (velocity drone);
       THREE.z := z (velocity drone) |} in
  let speed := THREE.length velocity0 in
  if Num.ltb speed VELOCITY_MIN_SPEED then None
  else
    Some {| attr_color :=
              if Num.gtb speed 10 then "#ef4444"%string
              else if Num.gtb speed 5 then "#f59e0b"%string
              else "#22c55e"%string;
            attr_direction := THREE.normalize velocity0;
            attr_length := Rmin (speed * VELOCITY_LENGTH_SCALE) VELOCITY_MAX_LENGTH;
            attr_speed := speed |}.

Record ClosestPoints := {
  pointA : THREE.Vector3;
  pointB : THREE.Vector3;
  distance : R
}.

Definition closestPointsBetweenSegments (p1 p2 q1 q2 : THREE.Vector3)
  : ClosestPoints :=
  let EPS := 1e-6 in
  let u := THREE.sub p2 p1 in
  let v := THREE.sub q2 q1 in
  let w := THREE.sub p1 q1 in
  let a := THREE.dot u u in
  let b := THREE.dot u v in
  let c := THREE.dot v v in
  let d := THREE.dot u w in
  let e := THREE.dot v w in
  if Num.leb a EPS && Num.leb c EPS then
    {| pointA := p1; pointB := q1; distance := THREE.distanceTo p1 q1 |}
  else
    (* sN, sD, tN, tD after the first [if] chain; sD = a and tD = c at entry *)
    let '(sN, sD, tN, tD) :=
      if Num.leb a EPS then (0, 1, e, c)
      else if Num.leb c EPS then (- d, a, 0, 1)
      else
        let sN := b * e - c * d in
        let tN := a * e - b * d in
        if Num.ltb sN 0 then (0, a, e, c)
        else if Num.gtb sN a then (a, a, e + b, c)
        else (sN, a, tN, c) in
    (* sN, sD, tN after the second [if] chain; tD is not assigned again *)
    let '(sN, sD, tN) :=
      if Num.ltb tN 0 then
        if Num.ltb (- d) 0 then (0, sD, 0)
        else if Num.gtb (- d) a then (sD, sD, 0)
        else (- d, a, 0)
      else if Num.gtb tN tD then
        if Num.ltb (- d + b) 0 then (0, sD, tD)
        else if Num.gtb (- d + b) a then (sD, sD, tD)
        else (- d + b, a, tD)
      else (sN, sD, tN) in
    let sc := if Num.ltb (Rabs sN) EPS then 0 else sN / sD in
    let tc := if Num.ltb (Rabs tN) EPS then 0 else tN / tD in
    let pointA0 := THREE.addScaledVector p1 u sc in
    let pointB0 := THREE.addScaledVector q1 v tc in
    {| pointA := pointA0; pointB := pointB0;
       distance := THREE.distanceTo pointA0 pointB0 |}.

(** [timePointColors?.[timePoint] ?? attributes.color]. *)
Definition vectorColorOf (timePointColors : option (Z -> option string))
  (timePoint0 : Z) (fallback : string) : string :=
  match timePointColors with
  | None => fallback
  | Some colors =>
      match colors timePoint0 with
      | Some color => color
      | None => fallback
      end
  end.

Definition velocityVectors (drones0 : list DroneData) (showVelocityVectors0 : bool)
  (timePointColors : option (Z -> option string)) (activeTimePoint : option Z)
  : list VelocityVectorInfo :=
  if negb showVelocityVectors0 then []
  else
    flat_map
      (fun drone =>
         match computeVelocityAttributes drone with
         | None => []
         | Some attributes =>
             let start :=
               {| THREE.x := x (position drone);
                  THREE.y := y (position drone);
                  THREE.z := z (position drone) |} in
             let end0 :=
               THREE.addScaledVector start (attr_direction attributes)
                 (attr_length attributes) in
             let timePoint0 :=
               match activeTimePoint with
               | Some active => active
               | None => timePoint drone
               end in
             [ {| vec_id := droneId drone;
                  vec_color :=
                    vectorColorOf timePointColors timePoint0 (attr_color attributes);
                  vec_start := start;
                  vec_end := end0 |} ]
         end)
      drones0.

(** [a.id < b.id ? `${a.id}-${b.id}` : `${b.id}-${a.id}`]. *)
Definition intersectionKey (a b : VelocityVectorInfo) : string :=
  if String.ltb (vec_id a) (vec_id b)
  then (vec_id a ++ "-" ++ vec_id b)%string
  else (vec_id b ++ "-" ++ vec_id a)%string.

(** The body of the inner loop of [vectorIntersections]. *)
Definition intersectionOf (a b : VelocityVectorInfo) : option VelocityIntersection :=
  let closest :=
    closestPointsBetweenSegments (vec_start a) (vec_end a) (vec_start b) (vec_end b) in
  if Num.leb (distance closest) VECTOR_INTERSECTION_THRESHOLD then
    let midpoint :=
      THREE.multiplyScalar (THREE.add (pointA closest) (pointB closest)) 0.5 in
    Some {| hit_id := intersectionKey a b;
            hit_position := (THREE.x midpoint, THREE.y midpoint, THREE.z midpoint);
            hit_color := vec_color a |}
  else None.

Definition vectorIntersections (showVelocityVectors0 : bool)
  (velocityVectors0 : list VelocityVectorInfo) : list VelocityIntersection :=
  if negb showVelocityVectors0 then []
  else
    forEachPair velocityVectors0
      (fun a b intersections =>
         match intersectionOf a b with
         | Some hit => intersections ++ [hit]
         | None => intersections
         end)
      [].

(** ** Sample data: an excerpt of the shipped dataset (data/excelDataset.ts) *)

Module Sample.

Definition drone1_t0 : DroneData :=
  {| droneId := "drone-1"; timePoint := 0; timeLabel := Some "TP1"%string;
     swarmId := "none"; swarmLabel := Some "No Swarm"%string;
     taskId := "taking-off"; taskLabel := Some "Taking Off"%string;
     state := "taking-off";
     position := {| x := 6; y := 5; z := 7 |};
     velocity := {| x := 2.1; y := 2.3; z := 1.04 |};
     orientation := {| pitch := 22.1; roll := 2.3; yaw := 48.2 |};
     batteryPercentage := 98; detectionRange := 50; signalIntensity := 5;
     videoFeedbackOn := true |}.

Definition drone1_t1 : DroneData :=
  {| droneId := "drone-1"; timePoint := 1; timeLabel := Some "TP2"%string;
     swarmId := "alpha"; swarmLabel := Some "Alpha"%string;
     taskId := "entering-swarm"; taskLabel := Some "Entering Swarm"%string;
     state := "entering-swarm";
     position := {| x := 21; y := 23; z := 10.4 |};
     velocity := {| x := 1.9; y := 2.56; z := 0.94 |};
     orientation := {| pitch := 18.4; roll := -1.5; yaw := 52.7 |};
     batteryPercentage := 98; detectionRange := 50; signalIntensity := 5;
     videoFeedbackOn := true |}.

Definition drone2_t0 : DroneData :=
  {| droneId := "drone-2"; timePoint := 0; timeLabel := Some "TP1"%string;
     swarmId := "none"; swarmLabel := Some "No Swarm"%string;
     taskId := "taking-off"; taskLabel := Some "Taking Off"%string;
     state := "taking-off";
     position := {| x := 96; y := 40; z := 20 |};
     velocity := {| x := -2.1; y := 0.96; z := 0.04 |};
     orientation := {| pitch := 0.9; roll := -2.5; yaw := 160.1 |};
     batteryPercentage := 100; detectionRange := 50; signalIntensity := 4;
     videoFeedbackOn := false |}.

Definition drone4_t4 : DroneData :=
  {| droneId := "drone-4"; timePoint := 4; timeLabel := Some "TP5"%string;
     swarmId := "beta"; swarmLabel := Some "Beta"%string;
     taskId := "descending"; taskLabel := Some "Descending"%string;
     state := "descending";
     position := {| x := 39; y := 52; z := 30.4 |};
     velocity := {| x := -1.6; y := 2; z := 1.25 |};
     orientation := {| pitch := 28.2; roll := -4; yaw := -126.5 |};
     batteryPercentage := 91; detectionRange := 50; signalIntensity := 3;
     videoFeedbackOn := false |}.

Definition box : BoundingBox :=
  {| bbox_min := {| x := -17.4; y := 5; z := 0 |};
     bbox_max := {| x := 96; y := 96.3; z := 52.7 |} |}.

(** Two time points, three samples. *)
Definition dataset : DroneSwarmDataset :=
  {| timePoints := [0%Z; 1%Z];
     timePointLabels := Some ["TP1"%string; "TP2"%string];
     drones := [drone1_t0; drone1_t1; drone2_t0];
     boundingBox := box |}.

(** The filters the dashboard starts with, for this excerpt. *)
Definition allFilters : VisualizationFilters :=
  {| selectedSwarms := ["none"%string; "alpha"%string];
     selectedTasks := ["taking-off"%string; "entering-swarm"%string];
     selectedStates := ["taking-off"%string; "entering-swarm"%string];
     batteryRange := (0, 100);
     showTrajectories := true;
     showDetectionRanges := false;
     showVelocityVectors := false;
     showSignalIntensity := true;
     showVideoFeedback := true |}.

(** The operator has deselected every swarm but "none". *)
Definition onlyNoSwarm : VisualizationFilters :=
  {| selectedSwarms := ["none"%string];
     selectedTasks := ["taking-off"%string; "entering-swarm"%string];
     selectedStates := ["taking-off"%string; "entering-swarm"%string];
     batteryRange := (0, 100);
     showTrajectories := true;
     showDetectionRanges := false;
     showVelocityVectors := false;
     showSignalIntensity := true;
     showVideoFeedback := true |}.

(** The operator has deselected every swarm but "alpha". *)
Definition onlyAlpha : VisualizationFilters :=
  {| selectedSwarms := ["alpha"%string];
     selectedTasks := ["taking-off"%string; "entering-swarm"%string];
     selectedStates := ["taking-off"%string; "entering-swarm"%string];
     batteryRange := (0, 100);
     showTrajectories := true;
     showDetectionRanges := false;
     showVelocityVectors := false;
     showSignalIntensity := true;
     showVideoFeedback := true |}.

End Sample.

(** * Part II: properties *)

(** ** Comparisons, [Math.floor], [Math.min] and [Math.max] *)

Lemma Num_ltb_true a b : a < b -> Num.ltb a b = true.
Proof. intros H; unfold Num.ltb; destruct (Rlt_dec a b); [reflexivity | lra]. Qed.

Lemma Num_ltb_false a b : b <= a -> Num.ltb a b = false.
Proof. intros H; unfold Num.ltb; destruct (Rlt_dec a b); [lra | reflexivity]. Qed.

Lemma Num_leb_true a b : a <= b -> Num.leb a b = true.
Proof. intros H; unfold Num.leb; destruct (Rle_dec a b); [reflexivity | lra]. Qed.

Lemma Num_leb_false a b : b < a -> Num.leb a b = false.
Proof. intros H; unfold Num.leb; destruct (Rle_dec a b); [lra | reflexivity]. Qed.

Lemma Num_eqb_true a b : a = b -> Num.eqb a b = true.
Proof. intros H; unfold Num.eqb; destruct (Req_dec_T a b); [reflexivity | lra]. Qed.

Lemma Num_eqb_false a b : a <> b -> Num.eqb a b = false.
Proof. intros H; unfold Num.eqb; destruct (Req_dec_T a b); [contradiction | reflexivity]. Qed.

Lemma Num_ltb_iff a b : Num.ltb a b = true <-> a < b.
Proof.
  split; [| apply Num_ltb_true].
  unfold Num.ltb; destruct (Rlt_dec a b); [trivial | discriminate].
Qed.

Lemma Num_leb_iff a b : Num.leb a b = true <-> a <= b.
Proof.
  split; [| apply Num_leb_true].
  unfold Num.leb; destruct (Rle_dec a b); [trivial | discriminate].
Qed.

Lemma Num_geb_iff a b : Num.geb a b = true <-> b <= a.
Proof. apply Num_leb_iff. Qed.

Lemma Num_gtb_iff a b : Num.gtb a b = true <-> b < a.
Proof. apply Num_ltb_iff. Qed.

Lemma Num_eqb_iff a b : Num.eqb a b = true <-> a = b.
Proof.
  split; [| apply Num_eqb_true].
  unfold Num.eqb; destruct (Req_dec_T a b); [trivial | discriminate].
Qed.

Lemma Num_floor_unique (a : R) (n : Z) : IZR n <= a < IZR n + 1 -> Num.floor a = n.
Proof.
  intros [H1 H2]. unfold Num.floor. symmetry. apply Int_part_spec. lra.
Qed.

Lemma Num_floor_IZR (n : Z) : Num.floor (IZR n) = n.
Proof. apply Num_floor_unique; lra. Qed.

Lemma Num_floor_bounds (a : R) : IZR (Num.floor a) <= a < IZR (Num.floor a) + 1.
Proof.
  unfold Num.floor. destruct (base_Int_part a) as [H1 H2]. lra.
Qed.

(** Decide the comparisons, minima and maxima of a goal whose numbers are
    literals. *)
Ltac num_eval :=
  repeat match goal with
    | |- context [Num.gtb ?a ?b] => unfold Num.gtb
    | |- context [Num.geb ?a ?b] => unfold Num.geb
    | |- context [Num.ltb ?a ?b] =>
        first [ rewrite (Num_ltb_true a b) by lra
              | rewrite (Num_ltb_false a b) by lra ]
    | |- context [Num.leb ?a ?b] =>
        first [ rewrite (Num_leb_true a b) by lra
              | rewrite (Num_leb_false a b) by lra ]
    | |- context [Num.eqb ?a ?b] =>
        first [ rewrite (Num_eqb_true a b) by lra
              | rewrite (Num_eqb_false a b) by lra ]
    | |- context [Rmin ?a ?b] =>
        first [ rewrite (Rmin_left a b) by lra
              | rewrite (Rmin_right a b) by lra ]
    | |- context [Rmax ?a ?b] =>
        first [ rewrite (Rmax_left a b) by lra
              | rewrite (Rmax_right a b) by lra ]
    end.

(** ** Arrays and Maps *)

Lemma includes_In l s : includes l s = true <-> In s l.
Proof.
  unfold includes. rewrite existsb_exists. split.
  - intros [k [Hk He]]. apply String.eqb_eq in He. now subst.
  - intros H. exists s. split; [assumption | apply String.eqb_refl].
Qed.

Lemma length_eqb_0_nil {A : Type} (l : list A) :
  (List.length l =? 0)%nat = true <-> l = [].
Proof.
  destruct l; simpl; split; intros H; try reflexivity; discriminate.
Qed.

(** ** FilterEngine *)

(** The verdict of [matchesFilters], clause by clause. *)
Lemma matchesFilters_iff (filters : VisualizationFilters) (drone : DroneData) :
  matchesFilters filters drone = true <->
  In (swarmId drone) (selectedSwarms filters) /\
  In (taskId drone) (selectedTasks filters) /\
  (selectedStates filters = [] \/ In (state drone) (selectedStates filters)) /\
  fst (batteryRange filters) <= batteryPercentage drone <= snd (batteryRange filters).
Proof.
  unfold matchesFilters.
  rewrite !andb_true_iff, orb_true_iff, !includes_In, length_eqb_0_nil,
    Num_geb_iff, Num_leb_iff.
  tauto.
Qed.

(** C6.  [matchesFilters] accepts a drone exactly when its swarm tag is
    selected, its task tag is selected, its state tag is selected or no state
    is selected at all, and its battery lies in the closed range
    [batteryRange[0] .. batteryRange[1]].  Hence an empty [selectedStates]
    filters on nothing (the state tag is irrelevant), a non-empty one rejects
    every drone whose state is not a member, and the other clauses always
    apply. *)
Theorem matchesFilters_spec (filters : VisualizationFilters) (drone : DroneData) :
  matchesFilters filters drone = true <->
  In (swarmId drone) (selectedSwarms filters) /\
  In (taskId drone) (selectedTasks filters) /\
  (selectedStates filters = [] \/ In (state drone) (selectedStates filters)) /\
  fst (batteryRange filters) <= batteryPercentage drone <= snd (batteryRange filters).
Proof. exact (matchesFilters_iff filters drone). Qed.

(** With no state selected the state tag plays no role: two drones that
    differ only in their state tag get the same verdict. *)
Lemma matchesFilters_empty_states_any_state filters drone drone' :
  selectedStates filters = [] ->
  swarmId drone' = swarmId drone ->
  taskId drone' = taskId drone ->
  batteryPercentage drone' = batteryPercentage drone ->
  matchesFilters filters drone' = matchesFilters filters drone.
Proof.
  intros Hs H1 H2 H3. unfold matchesFilters. rewrite Hs, H1, H2, H3. reflexivity.
Qed.

(** Scenario C: ['hovering'] excludes a drone in state 'descending', and an
    empty selection lets it through. *)
Example matchesFilters_scenario_C :
  let hoveringOnly :=
    {| selectedSwarms := ["beta"%string];
       selectedTasks := ["descending"%string];
       selectedStates := ["hovering"%string];
       batteryRange := (0, 100);
       showTrajectories := false; showDetectionRanges := false;
       showVelocityVectors := false; showSignalIntensity := true;
       showVideoFeedback := true |} in
  let noStates :=
    {| selectedSwarms := ["beta"%string];
       selectedTasks := ["descending"%string];
       selectedStates := [];
       batteryRange := (0, 100);
       showTrajectories := false; showDetectionRanges := false;
       showVelocityVectors := false; showSignalIntensity := true;
       showVideoFeedback := true |} in
  matchesFilters hoveringOnly Sample.drone4_t4 = false /\
  matchesFilters noStates Sample.drone4_t4 = true.
Proof.
  unfold matchesFilters; simpl. num_eval. split; reflexivity.
Qed.

(** ** TimeSampler *)

Lemma timePoints_nonempty_length (dataset : DroneSwarmDataset) :
  timePoints dataset <> [] ->
  (List.length (timePoints dataset) =? 0)%nat = false.
Proof.
  intros H. destruct (timePoints dataset); [contradiction | reflexivity].
Qed.

Lemma maxIndexOf_nonneg dataset : (0 <= maxIndexOf dataset)%Z.
Proof. unfold maxIndexOf. lia. Qed.

(** The clamped time lies on the timeline. *)
Lemma clampedTimeOf_range dataset currentTime :
  0 <= clampedTimeOf dataset currentTime <= IZR (maxIndexOf dataset).
Proof.
  unfold clampedTimeOf.
  pose proof (maxIndexOf_nonneg dataset) as H. apply IZR_le in H.
  split.
  - apply Rmin_glb; [apply Rmax_r | assumption].
  - apply Rmin_r.
Qed.

(** A time that is already on the timeline is not changed by the clamp. *)
Lemma clampedTimeOf_inside dataset currentTime :
  0 <= currentTime <= IZR (maxIndexOf dataset) ->
  clampedTimeOf dataset currentTime = currentTime.
Proof.
  intros [H0 H1]. unfold clampedTimeOf.
  rewrite Rmax_left by assumption. now rewrite Rmin_left.
Qed.

Lemma startIndexOf_range dataset currentTime :
  (0 <= startIndexOf dataset currentTime <= maxIndexOf dataset)%Z.
Proof.
  unfold startIndexOf.
  destruct (clampedTimeOf_range dataset currentTime) as [H0 H1].
  destruct (Num_floor_bounds (clampedTimeOf dataset currentTime)) as [F0 F1].
  split.
  - apply Z.lt_succ_r. apply lt_IZR. rewrite succ_IZR. lra.
  - apply le_IZR. lra.
Qed.

Lemma fracOf_range dataset currentTime : 0 <= fracOf dataset currentTime < 1.
Proof.
  unfold fracOf, startIndexOf.
  destruct (Num_floor_bounds (clampedTimeOf dataset currentTime)). lra.
Qed.

(** At a time index the hook computes [startIndex = n] and [t = 0]. *)
Lemma hook_values_at_index dataset (n : Z) :
  (0 <= n <= maxIndexOf dataset)%Z ->
  startIndexOf dataset (IZR n) = n /\ fracOf dataset (IZR n) = 0.
Proof.
  intros [H0 H1].
  assert (Hc : clampedTimeOf dataset (IZR n) = IZR n).
  { apply clampedTimeOf_inside. split; apply IZR_le; assumption. }
  unfold fracOf, startIndexOf. rewrite Hc, Num_floor_IZR. split; [reflexivity | lra].
Qed.

(** At a time index the hook returns [startDrones]: no interpolation. *)
Lemma interpolatedDrones_index_eq (dataset : DroneSwarmDataset)
  (filters : VisualizationFilters) (n : Z) :
  timePoints dataset <> [] ->
  (0 <= n <= maxIndexOf dataset)%Z ->
  interpolatedDrones dataset filters (IZR n)
  = filter (matchesFilters filters) (getDronesAtTime dataset n).
Proof.
  intros Hne Hn. unfold interpolatedDrones.
  rewrite (timePoints_nonempty_length _ Hne).
  destruct (hook_values_at_index dataset n Hn) as [Hs Hf].
  rewrite Hf, Hs, (Num_eqb_true 0 0) by reflexivity.
  reflexivity.
Qed.

Lemma filter_all_true {A : Type} (f : A -> bool) (l : list A) :
  forallb f l = true -> filter f l = l.
Proof.
  induction l as [| a l IH]; simpl; [reflexivity |].
  intros H. apply andb_true_iff in H. destruct H as [Ha Hl].
  rewrite Ha. f_equal. now apply IH.
Qed.

(** When every sample stored for [n] passes the filters, the result is the
    whole of [getDronesAtTime dataset n]. *)
Corollary interpolatedDrones_index_all (dataset : DroneSwarmDataset)
  (filters : VisualizationFilters) (n : Z) :
  timePoints dataset <> [] ->
  (0 <= n <= maxIndexOf dataset)%Z ->
  forallb (matchesFilters filters) (getDronesAtTime dataset n) = true ->
  interpolatedDrones dataset filters (IZR n) = getDronesAtTime dataset n.
Proof.
  intros Hne Hn Hall.
  rewrite interpolatedDrones_index_eq by assumption.
  now apply filter_all_true.
Qed.

(** C1 (as amended).  At every time index [n] of a non-empty timeline the
    hook returns the samples stored for [n] that pass the filters, in their
    stored order and each one unmodified: no interpolation takes place. *)
Theorem interpolatedDrones_at_index (dataset : DroneSwarmDataset)
  (filters : VisualizationFilters) (n : Z) :
  timePoints dataset <> [] ->
  (0 <= n <= maxIndexOf dataset)%Z ->
  interpolatedDrones dataset filters (IZR n)
  = filter (matchesFilters filters) (getDronesAtTime dataset n).
Proof. exact (interpolatedDrones_index_eq dataset filters n). Qed.

Lemma Sample_timePoints_nonempty : timePoints Sample.dataset <> [].
Proof. discriminate. Qed.

Lemma Sample_maxIndex : maxIndexOf Sample.dataset = 1%Z.
Proof. reflexivity. Qed.

Lemma interpolatedDrones_at_index_witness :
  interpolatedDrones Sample.dataset Sample.onlyNoSwarm (IZR 0)
  = filter (matchesFilters Sample.onlyNoSwarm) (getDronesAtTime Sample.dataset 0).
Proof.
  apply (interpolatedDrones_at_index Sample.dataset Sample.onlyNoSwarm 0).
  - discriminate.
  - rewrite Sample_maxIndex. lia.
Defined.

(** With swarm "alpha" alone selected, neither sample stored for index 0
    (both of swarm "none") is returned at time 0: the hook's result is not
    the stored sample set. *)
Lemma interpolatedDrones_at_index_filtered :
  timePoints Sample.dataset <> [] /\
  (0 <= 0 <= maxIndexOf Sample.dataset)%Z /\
  getDronesAtTime Sample.dataset 0 = [Sample.drone1_t0; Sample.drone2_t0] /\
  interpolatedDrones Sample.dataset Sample.onlyAlpha (IZR 0) = [] /\
  interpolatedDrones Sample.dataset Sample.onlyAlpha (IZR 0)
    <> getDronesAtTime Sample.dataset 0.
Proof.
  assert (Hi : interpolatedDrones Sample.dataset Sample.onlyAlpha (IZR 0) = []).
  { rewrite interpolatedDrones_index_eq.
    - reflexivity.
    - discriminate.
    - rewrite Sample_maxIndex. lia. }
  repeat split.
  - discriminate.
  - lia.
  - rewrite Sample_maxIndex. lia.
  - exact Hi.
  - rewrite Hi. discriminate.
Qed.

(** *** [Map] lookups *)

Lemma JSMap_get_set {V : Type} (m : JSMap.t V) (k k' : string) (v : V) :
  JSMap.get (JSMap.set m k v) k'
  = if String.eqb k k' then Some v else JSMap.get m k'.
Proof.
  induction m as [| [k0 v0] m IH]; simpl.
  - reflexivity.
  - destruct (String.eqb k0 k) eqn:E0; simpl.
    + apply String.eqb_eq in E0. subst k0.
      destruct (String.eqb k k'); reflexivity.
    + rewrite IH. destruct (String.eqb k0 k') eqn:E1; [| reflexivity].
      apply String.eqb_eq in E1. subst k0. rewrite String.eqb_sym in E0.
      now rewrite E0.
Qed.

(** The value a key has after [new Map(entries)]: that of its last entry. *)
Definition lastValue {V : Type} (k : string) (acc : option V) (entries : list (string * V))
  : option V :=
  fold_left (fun acc kv => if String.eqb (fst kv) k then Some (snd kv) else acc)
    entries acc.

Lemma JSMap_get_fold {V : Type} (entries : list (string * V)) (m : JSMap.t V) k :
  JSMap.get (fold_left (fun m kv => JSMap.set m (fst kv) (snd kv)) entries m) k
  = lastValue k (JSMap.get m k) entries.
Proof.
  revert m. induction entries as [| [k0 v0] es IH]; intros m; simpl.
  - reflexivity.
  - rewrite IH, JSMap_get_set. reflexivity.
Qed.

Lemma JSMap_get_new {V : Type} (entries : list (string * V)) k :
  JSMap.get (JSMap.new entries) k = lastValue k None entries.
Proof. unfold JSMap.new. now rewrite JSMap_get_fold. Qed.

Lemma lastValue_app {V : Type} k (acc : option V) es es' :
  lastValue k acc (es ++ es') = lastValue k (lastValue k acc es) es'.
Proof. unfold lastValue. apply fold_left_app. Qed.

(** A lookup that succeeds returns the value of an entry with that key. *)
Lemma lastValue_Some {V : Type} k (es : list (string * V)) (v : V) :
  lastValue k None es = Some v -> In (k, v) es.
Proof.
  induction es as [| [k0 v0] es IH] using rev_ind; [discriminate |].
  rewrite lastValue_app. simpl. intros H. apply in_or_app.
  destruct (String.eqb k0 k) eqn:E.
  - apply String.eqb_eq in E. subst. injection H as ->. right. now left.
  - left. now apply IH.
Qed.

(** A lookup fails only when no entry has the key. *)
Lemma lastValue_None {V : Type} k (es : list (string * V)) :
  lastValue k None es = None <-> (forall v, ~ In (k, v) es).
Proof.
  induction es as [| [k0 v0] es IH] using rev_ind.
  - split; [intros _ v [] | reflexivity].
  - rewrite lastValue_app. simpl. destruct (String.eqb k0 k) eqn:E.
    + apply String.eqb_eq in E. subst. split; [discriminate |].
      intros H. exfalso. apply (H v0). apply in_or_app. right. now left.
    + rewrite IH. apply String.eqb_neq in E. split.
      * intros H v Hin. apply in_app_or in Hin. destruct Hin as [Hin | [Heq | []]].
        -- now apply (H v).
        -- injection Heq as Hk _. contradiction.
      * intros H v Hin. apply (H v). apply in_or_app. now left.
Qed.

(** [endById.get(id)] is a drone of [endDrones] carrying that id ... *)
Lemma endById_get_Some (endDrones : list DroneData) (id : string) (next : DroneData) :
  JSMap.get (JSMap.new (map (fun drone => (droneId drone, drone)) endDrones)) id
  = Some next ->
  In next endDrones /\ droneId next = id.
Proof.
  rewrite JSMap_get_new. intros H. apply lastValue_Some in H.
  apply in_map_iff in H. destruct H as [d [Heq Hin]].
  injection Heq as Hid Hd. subst. now split.
Qed.

(** ... and is [undefined] exactly when no drone of [endDrones] carries it. *)
Lemma endById_get_None (endDrones : list DroneData) (id : string) :
  JSMap.get (JSMap.new (map (fun drone => (droneId drone, drone)) endDrones)) id
  = None <->
  (forall e, In e endDrones -> droneId e <> id).
Proof.
  rewrite JSMap_get_new, lastValue_None. split.
  - intros H e Hin Hid. apply (H e). apply in_map_iff. exists e. now rewrite Hid.
  - intros H v Hin. apply in_map_iff in Hin. destruct Hin as [d [Heq Hin]].
    injection Heq as Hid _. now apply (H d).
Qed.

(** *** Between two time indices *)

Section BetweenIndices.

Variable dataset : DroneSwarmDataset.
Variable filters : VisualizationFilters.
Variable currentTime : R.

Hypothesis timeline_nonempty : timePoints dataset <> [].
Hypothesis strictly_between : 0 < fracOf dataset currentTime.

(** Strictly between two indices the end index is the next one. *)
Lemma endIndexOf_fractional :
  endIndexOf dataset currentTime = (startIndexOf dataset currentTime + 1)%Z.
Proof.
  unfold endIndexOf. apply Z.min_l.
  destruct (clampedTimeOf_range dataset currentTime) as [_ H1].
  unfold fracOf in strictly_between.
  assert (H : (startIndexOf dataset currentTime < maxIndexOf dataset)%Z).
  { apply lt_IZR. lra. }
  lia.
Qed.

(** The result of the hook strictly between two indices: every start drone
    that passes the filters, replaced by its interpolation when the map of
    the end drones that pass the filters knows its id. *)
Lemma interpolatedDrones_fractional :
  interpolatedDrones dataset filters currentTime
  = map (fun drone =>
           match JSMap.get
                   (endByIdOf dataset filters (startIndexOf dataset currentTime + 1))
                   (droneId drone) with
           | None => drone
           | Some next => interpolateDrone drone next (fracOf dataset currentTime)
           end)
        (filter (matchesFilters filters)
           (getDronesAtTime dataset (startIndexOf dataset currentTime))).
Proof.
  unfold interpolatedDrones.
  rewrite (timePoints_nonempty_length _ timeline_nonempty).
  rewrite endIndexOf_fractional.
  rewrite Num_eqb_false by lra.
  replace (startIndexOf dataset currentTime + 1 =? startIndexOf dataset currentTime)%Z
    with false by (symmetry; apply Z.eqb_neq; lia).
  reflexivity.
Qed.

End BetweenIndices.

(** *** The sample at time 0.5 *)

Lemma Sample_clamped_half : clampedTimeOf Sample.dataset 0.5 = 0.5.
Proof.
  apply clampedTimeOf_inside. rewrite Sample_maxIndex. lra.
Qed.

Lemma Sample_start_half : startIndexOf Sample.dataset 0.5 = 0%Z.
Proof.
  unfold startIndexOf. rewrite Sample_clamped_half.
  apply Num_floor_unique. lra.
Qed.

Lemma Sample_frac_half : fracOf Sample.dataset 0.5 = 0.5.
Proof.
  unfold fracOf. rewrite Sample_start_half, Sample_clamped_half. lra.
Qed.

Lemma Sample_end_half : endIndexOf Sample.dataset 0.5 = 1%Z.
Proof.
  rewrite endIndexOf_fractional; rewrite ?Sample_frac_half, ?Sample_start_half;
    [reflexivity | lra].
Qed.

Lemma Sample_all_at_0 :
  filter (matchesFilters Sample.allFilters) (getDronesAtTime Sample.dataset 0)
  = [Sample.drone1_t0; Sample.drone2_t0].
Proof.
  unfold getDronesAtTime, matchesFilters; simpl. num_eval. reflexivity.
Qed.

Lemma Sample_all_at_1 :
  filter (matchesFilters Sample.allFilters) (getDronesAtTime Sample.dataset 1)
  = [Sample.drone1_t1].
Proof.
  unfold getDronesAtTime, matchesFilters; simpl. num_eval. reflexivity.
Qed.

Lemma Sample_noSwarm_at_0 :
  filter (matchesFilters Sample.onlyNoSwarm) (getDronesAtTime Sample.dataset 0)
  = [Sample.drone1_t0; Sample.drone2_t0].
Proof.
  unfold getDronesAtTime, matchesFilters; simpl. num_eval. reflexivity.
Qed.

Lemma Sample_noSwarm_at_1 :
  filter (matchesFilters Sample.onlyNoSwarm) (getDronesAtTime Sample.dataset 1) = [].
Proof. reflexivity. Qed.

(** *** Interpolation of a drone that has a sample on both sides *)

Lemma NoDup_map_injective_on {A B : Type} (f : A -> B) (l : list A) :
  NoDup (map f l) ->
  forall a b, In a l -> In b l -> f a = f b -> a = b.
Proof.
  induction l as [| c l IH]; simpl; intros Hnd a b Ha Hb Hab; [contradiction |].
  inversion Hnd as [| ? ? Hnin Hnd']; subst.
  destruct Ha as [-> | Ha], Hb as [-> | Hb].
  - reflexivity.
  - exfalso. apply Hnin. rewrite Hab. now apply in_map.
  - exfalso. apply Hnin. rewrite <- Hab. now apply in_map.
  - now apply IH.
Qed.

(** What the hook returns for a start drone whose id the end map knows. *)
Lemma interpolated_member dataset filters currentTime drone :
  timePoints dataset <> [] ->
  0 < fracOf dataset currentTime ->
  In drone (filter (matchesFilters filters)
              (getDronesAtTime dataset (startIndexOf dataset currentTime))) ->
  (exists e,
      In e (filter (matchesFilters filters)
              (getDronesAtTime dataset (endIndexOf dataset currentTime)))
      /\ droneId e = droneId drone) ->
  exists next,
    In next (filter (matchesFilters filters)
               (getDronesAtTime dataset (endIndexOf dataset currentTime)))
    /\ droneId next = droneId drone
    /\ In (interpolateDrone drone next (fracOf dataset currentTime))
         (interpolatedDrones dataset filters currentTime).
Proof.
  intros Hne Hf Hin [e [He Hid]].
  rewrite (interpolatedDrones_fractional _ _ _ Hne Hf).
  rewrite (endIndexOf_fractional _ _ Hf) in *.
  destruct (JSMap.get (endByIdOf dataset filters (startIndexOf dataset currentTime + 1))
              (droneId drone)) as [next |] eqn:G.
  - exists next.
    destruct (endById_get_Some _ _ _ G) as [Hn Hnid].
    repeat split; try assumption.
    apply in_map_iff. exists drone. now rewrite G.
  - exfalso. unfold endByIdOf in G.
    rewrite endById_get_None in G. now apply (G e).
Qed.

(** C2 (as amended).  Strictly between two time indices, a drone whose start
    sample passes the filters and whose id is carried by an end sample that
    passes the filters is returned with position, velocity, orientation,
    battery, detection range and signal intensity each equal to
    [from + (to - from) * frac], with [videoFeedbackOn] taken from the start
    sample while [frac < 0.5] and from the end sample otherwise, and with its
    id, time index and tags taken from the start sample.  [to] is an end
    sample with the drone's id that passes the filters: the only one when
    ids are unique at the end index. *)
Theorem interpolatedDrones_lerp (dataset : DroneSwarmDataset)
  (filters : VisualizationFilters) (currentTime : R) (drone : DroneData) :
  timePoints dataset <> [] ->
  0 < fracOf dataset currentTime < 1 ->
  In drone (filter (matchesFilters filters)
              (getDronesAtTime dataset (startIndexOf dataset currentTime))) ->
  (exists e,
      In e (filter (matchesFilters filters)
              (getDronesAtTime dataset (endIndexOf dataset currentTime)))
      /\ droneId e = droneId drone) ->
  exists next out,
    In next (filter (matchesFilters filters)
               (getDronesAtTime dataset (endIndexOf dataset currentTime)))
    /\ droneId next = droneId drone
    /\ In out (interpolatedDrones dataset filters currentTime)
    /\ droneId out = droneId drone
    /\ timePoint out = timePoint drone
    /\ swarmId out = swarmId drone
    /\ taskId out = taskId drone
    /\ state out = state drone
    /\ (let frac := fracOf dataset currentTime in
        let from := position drone in
        let to := position next in
        x (position out) = x from + (x to - x from) * frac
        /\ y (position out) = y from + (y to - y from) * frac
        /\ z (position out) = z from + (z to - z from) * frac)
    /\ (let frac := fracOf dataset currentTime in
        let from := velocity drone in
        let to := velocity next in
        x (velocity out) = x from + (x to - x from) * frac
        /\ y (velocity out) = y from + (y to - y from) * frac
        /\ z (velocity out) = z from + (z to - z from) * frac)
    /\ (let frac := fracOf dataset currentTime in
        let from := orientation drone in
        let to := orientation next in
        pitch (orientation out) = pitch from + (pitch to - pitch from) * frac
        /\ roll (orientation out) = roll from + (roll to - roll from) * frac
        /\ yaw (orientation out) = yaw from + (yaw to - yaw from) * frac)
    /\ (let frac := fracOf dataset currentTime in
        batteryPercentage out
        = batteryPercentage drone
          + (batteryPercentage next - batteryPercentage drone) * frac
        /\ detectionRange out
           = detectionRange drone + (detectionRange next - detectionRange drone) * frac
        /\ signalIntensity out
           = signalIntensity drone
             + (signalIntensity next - signalIntensity drone) * frac
        /\ (frac < 0.5 -> videoFeedbackOn out = videoFeedbackOn drone)
        /\ (0.5 <= frac -> videoFeedbackOn out = videoFeedbackOn next))
    /\ (NoDup (map droneId
                 (filter (matchesFilters filters)
                    (getDronesAtTime dataset (endIndexOf dataset currentTime)))) ->
        forall e,
          In e (filter (matchesFilters filters)
                  (getDronesAtTime dataset (endIndexOf dataset currentTime))) ->
          droneId e = droneId drone ->
          e = next).
Proof.
  intros Hne [Hf _] Hin Hex.
  destruct (interpolated_member _ _ _ _ Hne Hf Hin Hex) as [next [Hn [Hid Hout]]].
  exists next, (interpolateDrone drone next (fracOf dataset currentTime)).
  repeat split; try assumption; try reflexivity.
  - simpl. intros H. now rewrite Num_ltb_true.
  - simpl. intros H. now rewrite Num_ltb_false.
  - intros Hnd e He Heid.
    apply (NoDup_map_injective_on droneId _ Hnd); [assumption | assumption | congruence].
Qed.

(** Scenario A: in the sample, where drone-1 has x = 6 at index 0 and
    x = 21 at index 1, the drone returned for it at time 0.5 has x = 13.5. *)
Lemma interpolatedDrones_lerp_witness :
  exists out,
    In out (interpolatedDrones Sample.dataset Sample.allFilters 0.5)
    /\ droneId out = "drone-1"%string
    /\ x (position out) = 13.5.
Proof.
  destruct (interpolatedDrones_lerp Sample.dataset Sample.allFilters 0.5
              Sample.drone1_t0)
    as (next & out & Hn & Hid & Hout & Hoid & _ & _ & _ & _ & [Hx _] & _).
  - discriminate.
  - rewrite Sample_frac_half. lra.
  - rewrite Sample_start_half, Sample_all_at_0. now left.
  - exists Sample.drone1_t1.
    rewrite Sample_end_half, Sample_all_at_1. split; [now left | reflexivity].
  - exists out. split; [assumption |]. split; [assumption |].
    rewrite Sample_end_half, Sample_all_at_1 in Hn.
    destruct Hn as [<- | []].
    rewrite Hx, Sample_frac_half. simpl. lra.
Defined.

(** The same drone with swarm "alpha" deselected: drone-1 is stored at both
    indices with the same id, yet its end sample (swarm "alpha") does not
    pass the filters, and the hook returns the start sample as stored, with
    x = 6. *)
Lemma interpolatedDrones_lerp_needs_filtered_end :
  In Sample.drone1_t0 (getDronesAtTime Sample.dataset 0) /\
  In Sample.drone1_t1 (getDronesAtTime Sample.dataset 1) /\
  droneId Sample.drone1_t1 = droneId Sample.drone1_t0 /\
  startIndexOf Sample.dataset 0.5 = 0%Z /\
  endIndexOf Sample.dataset 0.5 = 1%Z /\
  fracOf Sample.dataset 0.5 = 0.5 /\
  interpolatedDrones Sample.dataset Sample.onlyNoSwarm 0.5
  = [Sample.drone1_t0; Sample.drone2_t0] /\
  (forall out,
      In out (interpolatedDrones Sample.dataset Sample.onlyNoSwarm 0.5) ->
      droneId out = "drone-1"%string ->
      x (position out) = 6 /\ x (position out) <> 6 + (21 - 6) * 0.5).
Proof.
  assert (Hr : interpolatedDrones Sample.dataset Sample.onlyNoSwarm 0.5
               = [Sample.drone1_t0; Sample.drone2_t0]).
  { rewrite interpolatedDrones_fractional.
    - rewrite Sample_start_half, Sample_noSwarm_at_0. reflexivity.
    - discriminate.
    - rewrite Sample_frac_half. lra. }
  split; [now left |]. split; [now left |]. split; [reflexivity |].
  split; [apply Sample_start_half |]. split; [apply Sample_end_half |].
  split; [apply Sample_frac_half |]. split; [exact Hr |].
  intros out Hin Hid. rewrite Hr in Hin.
  destruct Hin as [<- | [<- | []]].
  - simpl. lra.
  - discriminate.
Qed.

(** *** The filters are applied to the stored samples *)

(** C10.  Strictly between two time indices the filters are evaluated on the
    stored start and end samples only.  The result has one drone for each
    start sample that passes the filters, in the same order and under the
    same id, whatever values the interpolation produces (the result is not
    filtered again); and a drone none of whose end samples passes the filters
    is returned as its start sample, unchanged. *)
Theorem interpolatedDrones_filters_stored_samples (dataset : DroneSwarmDataset)
  (filters : VisualizationFilters) (currentTime : R) :
  timePoints dataset <> [] ->
  0 < fracOf dataset currentTime < 1 ->
  let startDrones :=
    filter (matchesFilters filters)
      (getDronesAtTime dataset (startIndexOf dataset currentTime)) in
  let result := interpolatedDrones dataset filters currentTime in
  List.length result = List.length startDrones /\
  forall (i : nat) (drone : DroneData),
    nth_error startDrones i = Some drone ->
    exists out,
      nth_error result i = Some out
      /\ droneId out = droneId drone
      /\ ((forall e,
              In e (getDronesAtTime dataset (endIndexOf dataset currentTime)) ->
              droneId e = droneId drone ->
              matchesFilters filters e = false) ->
          out = drone).
Proof.
  intros Hne [Hf _] startDrones result. subst startDrones result.
  rewrite (interpolatedDrones_fractional _ _ _ Hne Hf).
  rewrite (endIndexOf_fractional _ _ Hf).
  split; [apply length_map |].
  intros i drone Hi. rewrite nth_error_map, Hi. simpl.
  destruct (JSMap.get (endByIdOf dataset filters (startIndexOf dataset currentTime + 1))
              (droneId drone)) as [next |] eqn:G.
  - exists (interpolateDrone drone next (fracOf dataset currentTime)).
    split; [reflexivity |]. split; [reflexivity |].
    intros Hnone. exfalso.
    destruct (endById_get_Some _ _ _ G) as [Hn Hnid].
    apply filter_In in Hn. destruct Hn as [Hn Hm].
    rewrite (Hnone next Hn Hnid) in Hm. discriminate.
  - exists drone. repeat split; reflexivity.
Qed.

(** In the sample with swarm "alpha" deselected, drone-1 at time 0.5 is its
    sample of index 0, as stored. *)
Lemma interpolatedDrones_filters_stored_samples_witness :
  List.length (interpolatedDrones Sample.dataset Sample.onlyNoSwarm 0.5) = 2%nat /\
  nth_error (interpolatedDrones Sample.dataset Sample.onlyNoSwarm 0.5) 0
  = Some Sample.drone1_t0.
Proof.
  destruct (interpolatedDrones_filters_stored_samples Sample.dataset
              Sample.onlyNoSwarm 0.5) as [Hlen Hall].
  - discriminate.
  - rewrite Sample_frac_half. lra.
  - rewrite Sample_start_half, Sample_noSwarm_at_0 in Hlen, Hall.
    split; [exact Hlen |].
    destruct (Hall 0%nat Sample.drone1_t0 eq_refl) as (out & Hnth & _ & Hsame).
    rewrite Hnth. f_equal. apply Hsame.
    intros e He _. rewrite Sample_end_half in He.
    destruct He as [<- | []]. reflexivity.
Defined.

(** Every drone the hook returns still passes the filters: the tags are
    those of the start sample, and the battery lies between two batteries
    of the accepted range. *)
Lemma interpolatedDrones_pass_filters dataset filters currentTime out :
  In out (interpolatedDrones dataset filters currentTime) ->
  matchesFilters filters out = true.
Proof.
  unfold interpolatedDrones.
  destruct (List.length (timePoints dataset) =? 0)%nat; [intros [] |].
  destruct (Num.eqb (fracOf dataset currentTime) 0
            || (endIndexOf dataset currentTime =? startIndexOf dataset currentTime)%Z).
  - intros H. apply filter_In in H. tauto.
  - intros H. apply in_map_iff in H. destruct H as [drone [Hout Hin]].
    apply filter_In in Hin. destruct Hin as [_ Hm].
    destruct (JSMap.get _ (droneId drone)) as [next |] eqn:G; [| now subst].
    destruct (endById_get_Some _ _ _ G) as [Hn _].
    apply filter_In in Hn. destruct Hn as [_ Hm'].
    subst out. apply matchesFilters_iff in Hm. apply matchesFilters_iff in Hm'.
    apply matchesFilters_iff. simpl.
    destruct Hm as (H1 & H2 & H3 & H4 & H5), Hm' as (_ & _ & _ & H4' & H5').
    repeat split; try assumption.
    + unfold lerp. pose proof (fracOf_range dataset currentTime). nra.
    + unfold lerp. pose proof (fracOf_range dataset currentTime). nra.
Qed.

(** ** SpatialProjector *)

Lemma EDGE_PADDING_value : EDGE_PADDING = 4.
Proof. unfold EDGE_PADDING, MAP_SIZE, MAP_MAX, MAP_MIN. lra. Qed.

(** Whatever the value, the clamp lands in [[4, 96]]. *)
Lemma clampWithMargin_range (value : R) : 4 <= clampWithMargin value <= 96.
Proof.
  unfold clampWithMargin. rewrite EDGE_PADDING_value.
  unfold MAP_MAX, MAP_MIN.
  replace (0 + 4) with 4 by lra. replace (100 - 4) with 96 by lra.
  split.
  - apply Rmin_glb; [apply Rmax_r | lra].
  - apply Rmin_r.
Qed.

(** A value already inside the margins is not moved. *)
Lemma clampWithMargin_inside (value : R) :
  4 <= value <= 96 -> clampWithMargin value = value.
Proof.
  intros [H0 H1]. unfold clampWithMargin. rewrite EDGE_PADDING_value.
  unfold MAP_MAX, MAP_MIN.
  rewrite Rmax_left by lra. rewrite Rmin_left by lra. reflexivity.
Qed.

Lemma spanXOf_ge_1 (bounds3d : BoundingBox) : 1 <= spanXOf bounds3d.
Proof. unfold spanXOf. apply Rmax_r. Qed.

Lemma spanZOf_ge_1 (bounds3d : BoundingBox) : 1 <= spanZOf bounds3d.
Proof. unfold spanZOf. apply Rmax_r. Qed.

(** A box of zero (or negative) extent along x gets the span 1. *)
Lemma spanXOf_degenerate (bounds3d : BoundingBox) :
  x (bbox_max bounds3d) <= x (bbox_min bounds3d) -> spanXOf bounds3d = 1.
Proof. intros H. unfold spanXOf. apply Rmax_right. lra. Qed.

Lemma spanZOf_degenerate (bounds3d : BoundingBox) :
  z (bbox_max bounds3d) <= z (bbox_min bounds3d) -> spanZOf bounds3d = 1.
Proof. intros H. unfold spanZOf. apply Rmax_right. lra. Qed.

(** Over the reals both spans are at least 1 and both coordinates lie in
    [[margin, 100 - margin]] with [margin = 0.04 * 100 = 4]. *)
Lemma projectToMap_real_range (boundingBox0 : option BoundingBox)
  (pos : DronePosition) :
  let margin := 0.04 * 100 in
  let bounds3d := bounds3dOf boundingBox0 in
  margin = 4
  /\ EDGE_PADDING = margin
  /\ 1 <= spanXOf bounds3d
  /\ 1 <= spanZOf bounds3d
  /\ margin <= fst (projectToMap boundingBox0 pos) <= 100 - margin
  /\ margin <= snd (projectToMap boundingBox0 pos) <= 100 - margin.
Proof.
  intros margin bounds3d. subst margin bounds3d.
  replace (0.04 * 100) with 4 by lra. replace (100 - 4) with 96 by lra.
  split; [reflexivity |]. split; [apply EDGE_PADDING_value |].
  split; [apply spanXOf_ge_1 |]. split; [apply spanZOf_ge_1 |].
  unfold projectToMap. simpl. split; apply clampWithMargin_range.
Qed.

(** *** The projection on doubles *)

Lemma OVERFLOW_bounds : 17e307 < Double.OVERFLOW < 18e307.
Proof.
  unfold Double.OVERFLOW. split.
  - apply Rle_lt_trans with (IZR (17 * Z.pow_pos 10 307)).
    + rewrite mult_IZR. apply Req_le. reflexivity.
    + apply IZR_lt. vm_compute. reflexivity.
  - apply Rlt_le_trans with (IZR (18 * Z.pow_pos 10 307)).
    + apply IZR_lt. vm_compute. reflexivity.
    + rewrite mult_IZR. apply Req_le. reflexivity.
Qed.

(** A result of magnitude at most [b], below the threshold, is exact. *)
Lemma Double_round_within (r b : R) :
  - b <= r <= b -> b < Double.OVERFLOW -> Double.round r = Double.Fin r.
Proof.
  intros H Hb. unfold Double.round. rewrite Num_leb_false; [reflexivity |].
  apply Rle_lt_trans with b; [| exact Hb]. apply Rabs_le. exact H.
Qed.

Lemma Double_round_overflow (r : R) :
  Double.OVERFLOW <= r -> Double.round r = Double.Inf true.
Proof.
  intros H. pose proof OVERFLOW_bounds as Hb. unfold Double.round.
  rewrite Num_leb_true.
  - rewrite Num_ltb_true by lra. reflexivity.
  - rewrite Rabs_right by lra. exact H.
Qed.

Lemma Double_add_Fin (u v b : R) :
  - b <= u + v <= b -> b < Double.OVERFLOW ->
  Double.add (Double.Fin u) (Double.Fin v) = Double.Fin (u + v).
Proof. intros H Hb. simpl. now apply Double_round_within with b. Qed.

Lemma Double_sub_Fin (u v b : R) :
  - b <= u - v <= b -> b < Double.OVERFLOW ->
  Double.sub (Double.Fin u) (Double.Fin v) = Double.Fin (u - v).
Proof.
  intros H Hb. unfold Double.sub. simpl.
  now apply (Double_round_within (u + - v) b).
Qed.

Lemma Double_mul_Fin (u v b : R) :
  - b <= u * v <= b -> b < Double.OVERFLOW ->
  Double.mul (Double.Fin u) (Double.Fin v) = Double.Fin (u * v).
Proof. intros H Hb. simpl. now apply Double_round_within with b. Qed.

Lemma Double_div_Fin (u v b : R) :
  v <> 0 -> - b <= u / v <= b -> b < Double.OVERFLOW ->
  Double.div (Double.Fin u) (Double.Fin v) = Double.Fin (u / v).
Proof.
  intros Hv H Hb. simpl. rewrite (Num_eqb_false v 0 Hv).
  now apply Double_round_within with b.
Qed.

(** Dividing by a number that is at least 1 does not enlarge. *)
Lemma div_by_ge_1 (u s b : R) :
  1 <= s -> - b <= u <= b -> - b <= u / s <= b.
Proof.
  intros Hs [H0 H1].
  assert (Hq : u / s * s = u) by (field; lra).
  set (q := u / s) in *. split; nra.
Qed.

(** The numbers a position and a box are made of are finite doubles of a
    magnitude at most [1e300]: far enough from the overflow threshold for
    every difference and product of the projection. *)
Definition moderate (v : R) : Prop := - 1e300 <= v <= 1e300.

Lemma Double_MAP_SIZE : Double.MAP_SIZE = Double.Fin MAP_SIZE.
Proof.
  pose proof OVERFLOW_bounds as Hb.
  unfold Double.MAP_SIZE, Double.MAP_MAX, Double.MAP_MIN.
  rewrite (Double_sub_Fin 100 0 100) by lra. reflexivity.
Qed.

Lemma Double_EDGE_PADDING : Double.EDGE_PADDING = Double.Fin EDGE_PADDING.
Proof.
  pose proof OVERFLOW_bounds as Hb.
  unfold Double.EDGE_PADDING. rewrite Double_MAP_SIZE.
  rewrite (Double_mul_Fin MAP_SIZE 0.04 4).
  - reflexivity.
  - unfold MAP_SIZE, MAP_MAX, MAP_MIN. lra.
  - lra.
Qed.

Lemma Double_margins :
  Double.add Double.MAP_MIN Double.EDGE_PADDING = Double.Fin 4
  /\ Double.sub Double.MAP_MAX Double.EDGE_PADDING = Double.Fin 96.
Proof.
  pose proof OVERFLOW_bounds as Hb. pose proof EDGE_PADDING_value as He.
  rewrite Double_EDGE_PADDING. unfold Double.MAP_MIN, Double.MAP_MAX.
  rewrite (Double_add_Fin 0 EDGE_PADDING 4) by lra.
  rewrite (Double_sub_Fin 100 EDGE_PADDING 96) by lra.
  split; f_equal; lra.
Qed.

(** On a finite value the clamp of the two models agree. *)
Lemma Double_clampWithMargin_Fin (v : R) :
  Double.clampWithMargin (Double.Fin v) = Double.Fin (clampWithMargin v).
Proof.
  destruct Double_margins as [Hlo Hhi].
  unfold Double.clampWithMargin. rewrite Hlo, Hhi. simpl.
  unfold clampWithMargin. rewrite EDGE_PADDING_value. unfold MAP_MIN, MAP_MAX.
  f_equal. f_equal; [f_equal |]; lra.
Qed.

(** Whatever goes in, the clamp gives [NaN] (for [NaN] only) or a finite
    number within the margins: an infinity is clamped like any number. *)
Lemma Double_clampWithMargin_cases (v : Double.t) :
  (v = Double.NaN /\ Double.clampWithMargin v = Double.NaN)
  \/ (v <> Double.NaN
      /\ exists p, Double.clampWithMargin v = Double.Fin p /\ 4 <= p <= 96).
Proof.
  destruct v as [| s | u].
  - left. split; reflexivity.
  - right. split; [discriminate |].
    destruct Double_margins as [Hlo Hhi].
    unfold Double.clampWithMargin. rewrite Hlo, Hhi.
    destruct s; simpl; eexists; (split; [reflexivity |]);
      [lra | unfold Rmin; destruct (Rle_dec 4 96); lra].
  - right. split; [discriminate |]. rewrite Double_clampWithMargin_Fin.
    eexists. split; [reflexivity | apply clampWithMargin_range].
Qed.

Lemma normalizeToMap_bound (c m s : R) :
  1 <= s -> - 2e300 <= c - m <= 2e300 ->
  - 2e302 <= normalizeToMap c m s <= 2e302.
Proof.
  intros Hs H. assert (Hq : - (2e300) <= (c - m) / s <= 2e300)
    by (apply div_by_ge_1; [exact Hs | lra]).
  unfold normalizeToMap, MAP_SIZE, MAP_MAX, MAP_MIN.
  set (q := (c - m) / s) in *. lra.
Qed.

(** Without overflow the normalization of the two models agree. *)
Lemma Double_normalizeToMap_Fin (c m s : R) :
  1 <= s -> - 2e300 <= c - m <= 2e300 ->
  Double.normalizeToMap (Double.Fin c) (Double.Fin m) (Double.Fin s)
  = Double.Fin (normalizeToMap c m s).
Proof.
  intros Hs H. pose proof OVERFLOW_bounds as Hb.
  assert (Hq : - (2e300) <= (c - m) / s <= 2e300)
    by (apply div_by_ge_1; [exact Hs | lra]).
  pose proof (normalizeToMap_bound c m s Hs H) as Hn.
  unfold normalizeToMap, MAP_SIZE, MAP_MAX, MAP_MIN in Hn.
  unfold Double.normalizeToMap. rewrite Double_MAP_SIZE. unfold Double.MAP_MIN.
  rewrite (Double_sub_Fin c m 2e300) by lra.
  rewrite (Double_div_Fin (c - m) s 2e300) by lra.
  set (q := (c - m) / s) in *.
  rewrite (Double_mul_Fin q MAP_SIZE 2e302)
    by (unfold MAP_SIZE, MAP_MAX, MAP_MIN; lra).
  rewrite (Double_add_Fin (q * MAP_SIZE) 0 2e302)
    by (unfold MAP_SIZE, MAP_MAX, MAP_MIN; lra).
  reflexivity.
Qed.

Lemma Double_span_Fin (hi lo : R) :
  moderate hi -> moderate lo ->
  Double.max (Double.sub (Double.Fin hi) (Double.Fin lo)) (Double.Fin 1)
  = Double.Fin (Rmax (hi - lo) 1).
Proof.
  unfold moderate. intros Hh Hl. pose proof OVERFLOW_bounds as Hb.
  rewrite (Double_sub_Fin hi lo 2e300) by lra. reflexivity.
Qed.

(** When nothing overflows the projection on doubles is the projection on
    reals. *)
Lemma Double_projectToMap_Fin (boundingBox0 : option BoundingBox)
  (pos : DronePosition) :
  let bounds3d := bounds3dOf boundingBox0 in
  moderate (x pos) -> moderate (z pos) ->
  moderate (x (bbox_min bounds3d)) -> moderate (x (bbox_max bounds3d)) ->
  moderate (z (bbox_min bounds3d)) -> moderate (z (bbox_max bounds3d)) ->
  Double.spanXOf bounds3d = Double.Fin (spanXOf bounds3d)
  /\ Double.spanZOf bounds3d = Double.Fin (spanZOf bounds3d)
  /\ Double.normalizedXOf bounds3d pos
     = Double.Fin (normalizeToMap (x pos) (x (bbox_min bounds3d)) (spanXOf bounds3d))
  /\ Double.normalizedZOf bounds3d pos
     = Double.Fin (normalizeToMap (z pos) (z (bbox_min bounds3d)) (spanZOf bounds3d))
  /\ Double.projectToMap boundingBox0 pos
     = (Double.Fin (fst (projectToMap boundingBox0 pos)),
        Double.Fin (snd (projectToMap boundingBox0 pos))).
Proof.
  intros bounds3d Hx Hz Hx0 Hx1 Hz0 Hz1. pose proof OVERFLOW_bounds as Hb.
  assert (Sx : Double.spanXOf bounds3d = Double.Fin (spanXOf bounds3d))
    by (apply Double_span_Fin; assumption).
  assert (Sz : Double.spanZOf bounds3d = Double.Fin (spanZOf bounds3d))
    by (apply Double_span_Fin; assumption).
  pose proof (spanXOf_ge_1 bounds3d) as Gx.
  pose proof (spanZOf_ge_1 bounds3d) as Gz.
  unfold moderate in *.
  assert (Dx : - 2e300 <= x pos - x (bbox_min bounds3d) <= 2e300) by lra.
  assert (Dz : - 2e300 <= z pos - z (bbox_min bounds3d) <= 2e300) by lra.
  assert (Nx : Double.normalizedXOf bounds3d pos
               = Double.Fin (normalizeToMap (x pos) (x (bbox_min bounds3d))
                               (spanXOf bounds3d))).
  { unfold Double.normalizedXOf. rewrite Sx.
    now apply Double_normalizeToMap_Fin. }
  assert (Nz : Double.normalizedZOf bounds3d pos
               = Double.Fin (normalizeToMap (z pos) (z (bbox_min bounds3d))
                               (spanZOf bounds3d))).
  { unfold Double.normalizedZOf. rewrite Sz.
    now apply Double_normalizeToMap_Fin. }
  split; [exact Sx |]. split; [exact Sz |].
  split; [exact Nx |]. split; [exact Nz |].
  unfold Double.projectToMap. cbv zeta. fold bounds3d. rewrite Nx, Nz.
  pose proof (normalizeToMap_bound _ _ _ Gz Dz) as Bz.
  unfold Double.MAP_MAX.
  rewrite (Double_sub_Fin 100 _ 3e302) by lra.
  rewrite !Double_clampWithMargin_Fin. reflexivity.
Qed.

(** C5.  For every position and every bounding box (given or defaulted,
    degenerate or not, containing the position or not) whose x and z
    coordinates are finite numbers of magnitude at most [1e300], the two spans
    the projection divides by are finite and at least 1 (no division by a
    zero span), the normalized coordinates are finite, and both projected
    coordinates are finite numbers, neither [NaN] nor an infinity, in
    [[margin, 100 - margin]] with [margin = 0.04 * 100 = 4]. *)
Theorem projectToMap_within_margins (boundingBox0 : option BoundingBox)
  (pos : DronePosition) :
  let margin := 0.04 * 100 in
  let bounds3d := bounds3dOf boundingBox0 in
  moderate (x pos) -> moderate (z pos) ->
  moderate (x (bbox_min bounds3d)) -> moderate (x (bbox_max bounds3d)) ->
  moderate (z (bbox_min bounds3d)) -> moderate (z (bbox_max bounds3d)) ->
  exists spanX spanZ normalizedX normalizedZ px py,
    margin = 4
    /\ Double.spanXOf bounds3d = Double.Fin spanX /\ 1 <= spanX
    /\ Double.spanZOf bounds3d = Double.Fin spanZ /\ 1 <= spanZ
    /\ Double.normalizedXOf bounds3d pos = Double.Fin normalizedX
    /\ Double.normalizedZOf bounds3d pos = Double.Fin normalizedZ
    /\ Double.projectToMap boundingBox0 pos = (Double.Fin px, Double.Fin py)
    /\ margin <= px <= 100 - margin
    /\ margin <= py <= 100 - margin.
Proof.
  intros margin bounds3d Hx Hz Hx0 Hx1 Hz0 Hz1. subst margin.
  destruct (Double_projectToMap_Fin boundingBox0 pos Hx Hz Hx0 Hx1 Hz0 Hz1)
    as (Sx & Sz & Nx & Nz & P).
  fold bounds3d in Sx, Sz, Nx, Nz.
  exists (spanXOf bounds3d), (spanZOf bounds3d).
  eexists. eexists. eexists. eexists.
  split; [lra |].
  split; [exact Sx |]. split; [apply spanXOf_ge_1 |].
  split; [exact Sz |]. split; [apply spanZOf_ge_1 |].
  split; [exact Nx |]. split; [exact Nz |].
  split; [exact P |].
  replace (0.04 * 100) with 4 by lra. replace (100 - 4) with 96 by lra.
  unfold projectToMap. simpl. split; apply clampWithMargin_range.
Qed.

(** drone-1 of index 0 in the box of the dataset. *)
Lemma projectToMap_within_margins_witness :
  moderate (x (position Sample.drone1_t0))
  /\ moderate (z (position Sample.drone1_t0))
  /\ moderate (x (bbox_min Sample.box)) /\ moderate (x (bbox_max Sample.box))
  /\ moderate (z (bbox_min Sample.box)) /\ moderate (z (bbox_max Sample.box))
  /\ exists px py,
       Double.projectToMap (Some Sample.box) (position Sample.drone1_t0)
       = (Double.Fin px, Double.Fin py)
       /\ 4 <= px <= 96 /\ 4 <= py <= 96.
Proof.
  assert (Hx : moderate (x (position Sample.drone1_t0)))
    by (unfold moderate; simpl; lra).
  assert (Hz : moderate (z (position Sample.drone1_t0)))
    by (unfold moderate; simpl; lra).
  assert (Hx0 : moderate (x (bbox_min Sample.box))) by (unfold moderate; simpl; lra).
  assert (Hx1 : moderate (x (bbox_max Sample.box))) by (unfold moderate; simpl; lra).
  assert (Hz0 : moderate (z (bbox_min Sample.box))) by (unfold moderate; simpl; lra).
  assert (Hz1 : moderate (z (bbox_max Sample.box))) by (unfold moderate; simpl; lra).
  repeat (split; [assumption |]).
  destruct (projectToMap_within_margins (Some Sample.box)
              (position Sample.drone1_t0) Hx Hz Hx0 Hx1 Hz0 Hz1)
    as (sx & sz & nx & nz & px & py & _ & _ & _ & _ & _ & _ & _ & P & Bx & By).
  exists px, py. split; [exact P |]. split; lra.
Defined.

(** A position and a box of finite doubles near the largest one: the extent
    of the box and the offset of the position both overflow to [Infinity],
    the quotient [Infinity / Infinity] is [NaN], and the clamp passes [NaN]
    on: both projected coordinates are [NaN]. *)
Lemma projectToMap_overflow_NaN :
  let far := {| x := 1e308; y := 0; z := 1e308 |} in
  let wide :=
    {| bbox_min := {| x := - 1e308; y := 0; z := - 1e308 |};
       bbox_max := {| x := 1e308; y := 0; z := 1e308 |} |} in
  1e308 < Double.OVERFLOW
  /\ Double.spanXOf wide = Double.Inf true
  /\ Double.spanZOf wide = Double.Inf true
  /\ Double.normalizedXOf wide far = Double.NaN
  /\ Double.normalizedZOf wide far = Double.NaN
  /\ Double.projectToMap (Some wide) far = (Double.NaN, Double.NaN).
Proof.
  cbv zeta. pose proof OVERFLOW_bounds as Hb.
  assert (Hsub : Double.sub (Double.Fin 1e308) (Double.Fin (- 1e308))
                 = Double.Inf true).
  { unfold Double.sub. simpl. apply Double_round_overflow. lra. }
  assert (Hspan : Double.max (Double.sub (Double.Fin 1e308) (Double.Fin (- 1e308)))
                    (Double.Fin 1) = Double.Inf true)
    by (rewrite Hsub; reflexivity).
  split; [lra |].
  unfold Double.projectToMap, Double.normalizedXOf, Double.normalizedZOf,
    Double.spanXOf, Double.spanZOf, Double.normalizeToMap.
  cbn [bounds3dOf bbox_min bbox_max x z].
  rewrite Hspan, Hsub. cbn [Double.div Double.mul Double.add].
  repeat split.
Qed.

(** A point box and a position far outside it: the spans are 1 and the
    projection sits on the margins. *)
Example projectToMap_degenerate_box :
  let pointBox :=
    {| bbox_min := {| x := 10; y := 0; z := 10 |};
       bbox_max := {| x := 10; y := 0; z := 10 |} |} in
  spanXOf pointBox = 1 /\ spanZOf pointBox = 1 /\
  projectToMap (Some pointBox) {| x := 1000; y := 7; z := 1000 |} = (96, 4).
Proof.
  unfold projectToMap, normalizeToMap, clampWithMargin, spanXOf, spanZOf,
    EDGE_PADDING, MAP_SIZE, MAP_MAX, MAP_MIN; simpl.
  replace (10 - 10) with 0 by lra. rewrite (Rmax_right 0 1) by lra.
  repeat split. f_equal.
  - rewrite Rmax_left by lra. rewrite Rmin_right by lra. lra.
  - rewrite Rmax_right by lra. rewrite Rmin_left by lra. lra.
Qed.

(** ** The nested loop over pairs *)

(** The index pairs [(i, j)] the nested loop visits, in the order it visits
    them. *)
Definition indexPairs (n : nat) : list (nat * nat) :=
  flat_map (fun i => map (pair i) (seq (i + 1) (n - (i + 1)))) (seq 0 n).

(** The step the loop body makes at the index pair [ij]. *)
Definition atPair {A S : Type} (arr : list A) (body : A -> A -> S -> S)
  (s : S) (ij : nat * nat) : S :=
  match nth_error arr (fst ij), nth_error arr (snd ij) with
  | Some a, Some b => body a b s
  | _, _ => s
  end.

Lemma fold_left_flat_map {A B S : Type} (f : S -> B -> S) (g : A -> list B)
  (l : list A) (s : S) :
  fold_left f (flat_map g l) s = fold_left (fun s' a => fold_left f (g a) s') l s.
Proof.
  revert s. induction l as [| a l IH]; intros s; simpl; [reflexivity |].
  now rewrite fold_left_app, IH.
Qed.

Lemma fold_left_map {A B S : Type} (f : S -> B -> S) (h : A -> B)
  (l : list A) (s : S) :
  fold_left f (map h l) s = fold_left (fun s' a => f s' (h a)) l s.
Proof.
  revert s. induction l as [| a l IH]; intros s; simpl; [reflexivity | apply IH].
Qed.

Lemma fold_left_ext_eq {A S : Type} (f g : S -> A -> S) (l : list A) (s : S) :
  (forall s' a, f s' a = g s' a) -> fold_left f l s = fold_left g l s.
Proof.
  intros H. revert s. induction l as [| a l IH]; intros s; simpl; [reflexivity |].
  now rewrite H, IH.
Qed.

(** The nested loop is one pass over [indexPairs]. *)
Lemma forEachPair_indexPairs {A S : Type} (arr : list A) (body : A -> A -> S -> S)
  (init : S) :
  forEachPair arr body init
  = fold_left (atPair arr body) (indexPairs (List.length arr)) init.
Proof.
  unfold forEachPair, indexPairs. rewrite fold_left_flat_map.
  apply fold_left_ext_eq. intros s i. rewrite fold_left_map. reflexivity.
Qed.

(** [indexPairs n] holds the pairs [i < j < n] ... *)
Lemma In_indexPairs (n i j : nat) :
  In (i, j) (indexPairs n) <-> (i < j < n)%nat.
Proof.
  unfold indexPairs. rewrite in_flat_map. split.
  - intros [i' [Hi Hj]]. apply in_seq in Hi. apply in_map_iff in Hj.
    destruct Hj as [j' [Heq Hj]]. injection Heq as -> ->.
    apply in_seq in Hj. lia.
  - intros H. exists i. split.
    + apply in_seq. lia.
    + apply in_map_iff. exists j. split; [reflexivity |]. apply in_seq. lia.
Qed.

Lemma NoDup_flat_map {A B : Type} (g : A -> list B) (l : list A) :
  NoDup l ->
  (forall a, In a l -> NoDup (g a)) ->
  (forall a a' b, In a l -> In a' l -> In b (g a) -> In b (g a') -> a = a') ->
  NoDup (flat_map g l).
Proof.
  induction l as [| a l IH]; intros Hl Hg Hd; simpl; [constructor |].
  inversion Hl as [| ? ? Hnin Hl']; subst.
  apply NoDup_app.
  - apply Hg. now left.
  - apply IH; [assumption | |].
    + intros a' Ha'. apply Hg. now right.
    + intros a1 a2 b H1 H2. apply Hd; now right.
  - intros b Hb Hb'. apply in_flat_map in Hb'. destruct Hb' as [a' [Ha' Hb']].
    assert (a = a') by (apply (Hd a a' b); [now left | now right | assumption | assumption]).
    subst a'. contradiction.
Qed.

Lemma NoDup_map_injective {A B : Type} (f : A -> B) (l : list A) :
  (forall a a', f a = f a' -> a = a') -> NoDup l -> NoDup (map f l).
Proof.
  intros Hinj. induction 1 as [| a l Hnin Hl IH]; simpl; constructor.
  - intros Hin. apply in_map_iff in Hin. destruct Hin as [a' [Heq Ha']].
    apply Hinj in Heq. now subst.
  - assumption.
Qed.

(** ... each of them once ... *)
Lemma NoDup_indexPairs (n : nat) : NoDup (indexPairs n).
Proof.
  unfold indexPairs. apply NoDup_flat_map.
  - apply seq_NoDup.
  - intros i _. apply NoDup_map_injective; [| apply seq_NoDup].
    intros j j' H. now injection H.
  - intros i i' [i0 j0] _ _ H H'.
    apply in_map_iff in H. destruct H as [? [H _]].
    apply in_map_iff in H'. destruct H' as [? [H' _]].
    injection H as <- _. injection H' as <- _. reflexivity.
Qed.

Lemma list_sum_countdown (n : nat) :
  (2 * list_sum (map (fun i => n - (i + 1)) (seq 0 n)) = n * (n - 1))%nat.
Proof.
  induction n as [| n IH]; [reflexivity |].
  cbn [seq map list_sum]. rewrite <- seq_shift, map_map.
  replace (map (fun i => S n - (S i + 1))%nat (seq 0 n))
    with (map (fun i => n - (i + 1))%nat (seq 0 n))
    by (apply map_ext; intros i; lia).
  destruct n as [| m]; [reflexivity |].
  simpl in IH |- *. lia.
Qed.

Lemma double_length_indexPairs (n : nat) :
  (2 * List.length (indexPairs n) = n * (n - 1))%nat.
Proof.
  unfold indexPairs. rewrite length_flat_map.
  rewrite <- list_sum_countdown. f_equal. f_equal.
  apply map_ext. intros i. now rewrite length_map, length_seq.
Qed.

(** ... so there are [n * (n - 1) / 2] of them. *)
Lemma length_indexPairs (n : nat) :
  List.length (indexPairs n) = (n * (n - 1) / 2)%nat.
Proof.
  rewrite <- double_length_indexPairs.
  symmetry. rewrite Nat.mul_comm. apply Nat.div_mul. discriminate.
Qed.

Lemma INR_length_indexPairs (n : nat) :
  INR (List.length (indexPairs n)) = (INR n * (INR n - 1)) / 2.
Proof.
  pose proof (double_length_indexPairs n) as H.
  apply (f_equal INR) in H. rewrite !mult_INR in H.
  destruct n as [| m].
  - simpl in *. lra.
  - replace (S m - 1)%nat with m in H by lia.
    change (INR 2) with 2 in H. rewrite (S_INR m) in *. lra.
Qed.

(** Counting with the loop is counting in [indexPairs]. *)
Lemma fold_left_count {B : Type} (p : B -> bool) (l : list B) (k : nat) :
  fold_left (fun c b => if p b then S c else c) l k
  = (k + List.length (filter p l))%nat.
Proof.
  revert k. induction l as [| b l IH]; intros k; simpl; [lia |].
  rewrite IH. destruct (p b); simpl; lia.
Qed.

(** Collecting with the loop is collecting along [indexPairs]. *)
Lemma fold_left_collect {B C : Type} (g : B -> option C) (l : list B) (acc : list C) :
  fold_left (fun out b => match g b with Some c => out ++ [c] | None => out end) l acc
  = acc ++ flat_map (fun b => match g b with Some c => [c] | None => [] end) l.
Proof.
  revert acc. induction l as [| b l IH]; intros acc; simpl.
  - now rewrite app_nil_r.
  - rewrite IH. destruct (g b); [now rewrite <- app_assoc | reflexivity].
Qed.

(** ** GeometricAnalytics: overlapping detection ranges *)

(** Whether the drones at the index pair [ij] overlap. *)
Definition pairOverlaps (drones0 : list DroneData) (ij : nat * nat) : bool :=
  match nth_error drones0 (fst ij), nth_error drones0 (snd ij) with
  | Some a, Some b => rangesOverlap a b
  | _, _ => false
  end.

Lemma rangesOverlap_iff (a b : DroneData) :
  rangesOverlap a b = true <->
  sqrt ((x (position a) - x (position b)) * (x (position a) - x (position b))
        + (z (position a) - z (position b)) * (z (position a) - z (position b)))
  < detectionRange a + detectionRange b.
Proof. unfold rangesOverlap, planarDistance. apply Num_ltb_iff. Qed.

(** Two discs that touch do not overlap. *)
Lemma rangesOverlap_tangent (a b : DroneData) :
  planarDistance a b = detectionRange a + detectionRange b ->
  rangesOverlap a b = false.
Proof. intros H. unfold rangesOverlap. apply Num_ltb_false. lra. Qed.

Lemma countOverlapPairs_filter (drones0 : list DroneData) :
  countOverlapPairs drones0
  = List.length (filter (pairOverlaps drones0) (indexPairs (List.length drones0))).
Proof.
  unfold countOverlapPairs. rewrite forEachPair_indexPairs.
  rewrite (fold_left_ext_eq _
             (fun c ij => if pairOverlaps drones0 ij then S c else c)).
  - now rewrite fold_left_count.
  - intros c ij. unfold atPair, pairOverlaps.
    destruct (nth_error drones0 (fst ij)), (nth_error drones0 (snd ij)); reflexivity.
Qed.

Lemma detectionCoverage_overlapPairs (drones0 : list DroneData) :
  overlapPairs (detectionCoverage drones0)
  = List.length (filter (pairOverlaps drones0) (indexPairs (List.length drones0))).
Proof.
  unfold detectionCoverage. destruct drones0 as [| d l]; [reflexivity |].
  cbn [List.length Nat.eqb overlapPairs]. apply countOverlapPairs_filter.
Qed.

Lemma detectionCoverage_totalPairs (drones0 : list DroneData) :
  totalPairs (detectionCoverage drones0)
  = INR (List.length (indexPairs (List.length drones0))).
Proof.
  unfold detectionCoverage. destruct drones0 as [| d l]; [reflexivity |].
  cbn [Nat.eqb List.length totalPairs]. now rewrite INR_length_indexPairs.
Qed.

(** Scenario B: drone-1 and drone-2 at index 0, both of range 50, are
    about 90.93 apart in the x-z plane. *)
Lemma Sample_planarDistance :
  planarDistance Sample.drone1_t0 Sample.drone2_t0 = sqrt 8269.
Proof. unfold planarDistance; simpl. f_equal. lra. Qed.

Lemma sqrt_8269_bounds : 90.9 < sqrt 8269 < 91.
Proof.
  split.
  - rewrite <- (sqrt_square 90.9) by lra. apply sqrt_lt_1_alt. lra.
  - rewrite <- (sqrt_square 91) by lra. apply sqrt_lt_1_alt. lra.
Qed.

Lemma Sample_rangesOverlap : rangesOverlap Sample.drone1_t0 Sample.drone2_t0 = true.
Proof.
  unfold rangesOverlap. rewrite Sample_planarDistance. apply Num_ltb_true.
  pose proof sqrt_8269_bounds. simpl. lra.
Qed.

Lemma Sample_overlapPairs :
  overlapPairs (detectionCoverage [Sample.drone1_t0; Sample.drone2_t0]) = 1%nat.
Proof.
  rewrite detectionCoverage_overlapPairs.
  cbn [List.length indexPairs seq flat_map map Nat.add Nat.sub app filter
         pairOverlaps fst snd nth_error].
  now rewrite Sample_rangesOverlap.
Qed.

(** C3.  [overlapPairs] is the number of index pairs [i < j < n] (each
    taken once) whose drones are strictly closer in the x-z plane than the
    sum of their detection ranges, and [totalPairs] is [n * (n - 1) / 2];
    drone-1 and drone-2 of the dataset at index 0 (ranges 50, planar distance
    between 90.9 and 91) make one such pair. *)
Theorem overlapPairs_counts_pairs :
  (forall drones0 : list DroneData,
      let n := List.length drones0 in
      overlapPairs (detectionCoverage drones0)
      = List.length (filter (pairOverlaps drones0) (indexPairs n))
      /\ totalPairs (detectionCoverage drones0) = INR (n * (n - 1) / 2)
      /\ NoDup (indexPairs n)
      /\ (forall i j, In (i, j) (indexPairs n) <-> (i < j < n)%nat)
      /\ (forall i j a b,
             nth_error drones0 i = Some a ->
             nth_error drones0 j = Some b ->
             (pairOverlaps drones0 (i, j) = true <->
              sqrt ((x (position a) - x (position b)) * (x (position a) - x (position b))
                    + (z (position a) - z (position b)) * (z (position a) - z (position b)))
              < detectionRange a + detectionRange b)))
  /\ (detectionRange Sample.drone1_t0 = 50
      /\ detectionRange Sample.drone2_t0 = 50
      /\ 90.9 < planarDistance Sample.drone1_t0 Sample.drone2_t0 < 91
      /\ overlapPairs (detectionCoverage [Sample.drone1_t0; Sample.drone2_t0]) = 1%nat).
Proof.
  split.
  - intros drones0 n. subst n.
    split; [apply detectionCoverage_overlapPairs |].
    split; [now rewrite detectionCoverage_totalPairs, length_indexPairs |].
    split; [apply NoDup_indexPairs |].
    split; [intros i j; apply In_indexPairs |].
    intros i j a b Ha Hb. unfold pairOverlaps. cbn [fst snd]. rewrite Ha, Hb.
    apply rangesOverlap_iff.
  - split; [reflexivity |]. split; [reflexivity |].
    split; [rewrite Sample_planarDistance; apply sqrt_8269_bounds |].
    apply Sample_overlapPairs.
Qed.

(** Exact tangency: two drones of range 50 exactly 100 apart are not
    counted. *)
Example overlapPairs_tangent :
  let a := Sample.drone1_t0 in
  let b :=
    {| droneId := "drone-9"; timePoint := 0; timeLabel := None;
       swarmId := "none"; swarmLabel := None;
       taskId := "taking-off"; taskLabel := None; state := "taking-off";
       position := {| x := 106; y := 5; z := 7 |};
       velocity := {| x := 0; y := 0; z := 0 |};
       orientation := {| pitch := 0; roll := 0; yaw := 0 |};
       batteryPercentage := 98; detectionRange := 50; signalIntensity := 5;
       videoFeedbackOn := true |} in
  planarDistance a b = 100 /\ overlapPairs (detectionCoverage [a; b]) = 0%nat.
Proof.
  intros a b.
  assert (Hd : planarDistance a b = 100).
  { unfold planarDistance; simpl.
    replace ((6 - 106) * (6 - 106) + (7 - 7) * (7 - 7)) with (100 * 100) by lra.
    apply sqrt_square. lra. }
  split; [exact Hd |].
  rewrite detectionCoverage_overlapPairs.
  cbn [List.length indexPairs seq flat_map map Nat.add Nat.sub app filter
         pairOverlaps fst snd nth_error].
  rewrite rangesOverlap_tangent; [reflexivity |].
  rewrite Hd. simpl. lra.
Qed.

(** ** GeometricAnalytics: coverage estimate *)

(** [m] is the least (greatest) value of [f] over the drones of [l]. *)
Definition isMinOf (f : DroneData -> R) (l : list DroneData) (m : R) : Prop :=
  (forall d, In d l -> m <= f d) /\ (exists d, In d l /\ m = f d).

Definition isMaxOf (f : DroneData -> R) (l : list DroneData) (m : R) : Prop :=
  (forall d, In d l -> f d <= m) /\ (exists d, In d l /\ m = f d).

(** The sum of [f] over the drones of [l]. *)
Definition sumOf (f : DroneData -> R) (l : list DroneData) : R :=
  fold_right (fun d s => f d + s) 0 l.

(** A running minimum and maximum that have left their initial infinity. *)
Definition runMin (f : DroneData -> R) (l : list DroneData) (m : R) : R :=
  fold_left (fun m' d => Rmin m' (f d)) l m.

Definition runMax (f : DroneData -> R) (l : list DroneData) (m : R) : R :=
  fold_left (fun m' d => Rmax m' (f d)) l m.

Lemma runMin_spec f l m :
  runMin f l m <= m
  /\ (forall d, In d l -> runMin f l m <= f d)
  /\ (runMin f l m = m \/ exists d, In d l /\ runMin f l m = f d).
Proof.
  unfold runMin. revert m. induction l as [| e l IH]; intros m; simpl.
  - split; [lra |]. split; [intros d [] | now left].
  - destruct (IH (Rmin m (f e))) as (H1 & H2 & H3).
    pose proof (Rmin_l m (f e)). pose proof (Rmin_r m (f e)).
    split; [lra |]. split.
    + intros d [<- | Hd]; [lra | now apply H2].
    + destruct H3 as [H3 | [d [Hd H3]]].
      * rewrite H3. unfold Rmin. destruct (Rle_dec m (f e)).
        -- now left.
        -- right. exists e. split; [now left | reflexivity].
      * right. exists d. split; [now right | assumption].
Qed.

Lemma runMax_spec f l m :
  m <= runMax f l m
  /\ (forall d, In d l -> f d <= runMax f l m)
  /\ (runMax f l m = m \/ exists d, In d l /\ runMax f l m = f d).
Proof.
  unfold runMax. revert m. induction l as [| e l IH]; intros m; simpl.
  - split; [lra |]. split; [intros d [] | now left].
  - destruct (IH (Rmax m (f e))) as (H1 & H2 & H3).
    pose proof (Rmax_l m (f e)). pose proof (Rmax_r m (f e)).
    split; [lra |]. split.
    + intros d [<- | Hd]; [lra | now apply H2].
    + destruct H3 as [H3 | [d [Hd H3]]].
      * rewrite H3. unfold Rmax. destruct (Rle_dec m (f e)).
        -- right. exists e. split; [now left | reflexivity].
        -- now left.
      * right. exists d. split; [now right | assumption].
Qed.

Lemma runMin_isMinOf f d l : isMinOf f (d :: l) (runMin f l (f d)).
Proof.
  destruct (runMin_spec f l (f d)) as (H1 & H2 & H3). split.
  - intros e [<- | He]; [assumption | now apply H2].
  - destruct H3 as [H3 | [e [He H3]]].
    + exists d. split; [now left | assumption].
    + exists e. split; [now right | assumption].
Qed.

Lemma runMax_isMaxOf f d l : isMaxOf f (d :: l) (runMax f l (f d)).
Proof.
  destruct (runMax_spec f l (f d)) as (H1 & H2 & H3). split.
  - intros e [<- | He]; [assumption | now apply H2].
  - destruct H3 as [H3 | [e [He H3]]].
    + exists d. split; [now left | assumption].
    + exists e. split; [now right | assumption].
Qed.

Definition discArea (d : DroneData) : R := PI * (detectionRange d * detectionRange d).

Lemma discArea_nonneg d : 0 <= discArea d.
Proof.
  unfold discArea. apply Rmult_le_pos; [left; apply PI_RGT_0 |].
  apply Rle_0_sqr.
Qed.

Lemma sumOf_discArea_nonneg l : 0 <= sumOf discArea l.
Proof.
  induction l as [| d l IH]; simpl; [lra |].
  pose proof (discArea_nonneg d). lra.
Qed.

(** The loop, once its bounds are finite. *)
Lemma coverage_loop_finite (l : list DroneData) (a b c d t : R) :
  fold_left coverageStep l
    {| minX := Finite a; maxX := Finite b; minZ := Finite c; maxZ := Finite d;
       totalCoverageArea := t |}
  = {| minX := Finite (runMin (fun e => x (position e) - detectionRange e) l a);
       maxX := Finite (runMax (fun e => x (position e) + detectionRange e) l b);
       minZ := Finite (runMin (fun e => z (position e) - detectionRange e) l c);
       maxZ := Finite (runMax (fun e => z (position e) + detectionRange e) l d);
       totalCoverageArea := t + sumOf discArea l |}.
Proof.
  revert a b c d t. induction l as [| e l IH]; intros a b c d t; simpl.
  - f_equal. lra.
  - unfold coverageStep at 2. simpl. rewrite IH. f_equal.
    unfold discArea. lra.
Qed.

(** The loop over a non-empty array, from the infinite bounds. *)
Lemma coverage_loop_nonempty (e : DroneData) (l : list DroneData) :
  fold_left coverageStep (e :: l) coverageInit
  = {| minX := Finite (runMin (fun e => x (position e) - detectionRange e) l
                         (x (position e) - detectionRange e));
       maxX := Finite (runMax (fun e => x (position e) + detectionRange e) l
                         (x (position e) + detectionRange e));
       minZ := Finite (runMin (fun e => z (position e) - detectionRange e) l
                         (z (position e) - detectionRange e));
       maxZ := Finite (runMax (fun e => z (position e) + detectionRange e) l
                         (z (position e) + detectionRange e));
       totalCoverageArea := sumOf discArea (e :: l) |}.
Proof.
  simpl. unfold coverageStep at 2. simpl. rewrite coverage_loop_finite.
  f_equal. unfold discArea. lra.
Qed.

Lemma coveragePercentOf_range (acc : CoverageBounds) :
  0 <= totalCoverageArea acc -> 0 <= coveragePercentOf acc <= 100.
Proof.
  intros Ht. unfold coveragePercentOf.
  destruct (minX acc), (maxX acc), (minZ acc), (maxZ acc); try lra.
  destruct (Num.gtb _ 0) eqn:G; [| lra].
  apply Num_gtb_iff in G. split.
  - apply Rmin_glb; [lra |].
    apply Rmult_le_pos; [| lra].
    apply Rmult_le_pos; [assumption |]. left. now apply Rinv_0_lt_compat.
  - apply Rmin_l.
Qed.

Lemma detectionCoverage_percent_range (drones0 : list DroneData) :
  0 <= coveragePercent (detectionCoverage drones0) <= 100.
Proof.
  unfold detectionCoverage. destruct drones0 as [| e l]; [simpl; lra |].
  cbn [List.length Nat.eqb coveragePercent].
  apply coveragePercentOf_range. rewrite coverage_loop_nonempty.
  apply (sumOf_discArea_nonneg (e :: l)).
Qed.

(** The estimate for a non-empty array, in terms of the enclosing
    rectangle and the summed disc areas. *)
Lemma detectionCoverage_percent_nonempty (drones0 : list DroneData) :
  drones0 <> [] ->
  exists minX0 maxX0 minZ0 maxZ0,
    isMinOf (fun d => x (position d) - detectionRange d) drones0 minX0
    /\ isMaxOf (fun d => x (position d) + detectionRange d) drones0 maxX0
    /\ isMinOf (fun d => z (position d) - detectionRange d) drones0 minZ0
    /\ isMaxOf (fun d => z (position d) + detectionRange d) drones0 maxZ0
    /\ coveragePercent (detectionCoverage drones0)
       = coveragePercentOf
           {| minX := Finite minX0; maxX := Finite maxX0;
              minZ := Finite minZ0; maxZ := Finite maxZ0;
              totalCoverageArea := sumOf discArea drones0 |}.
Proof.
  intros Hne. destruct drones0 as [| e l]; [contradiction |].
  exists (runMin (fun d => x (position d) - detectionRange d) l
            (x (position e) - detectionRange e)),
    (runMax (fun d => x (position d) + detectionRange d) l
       (x (position e) + detectionRange e)),
    (runMin (fun d => z (position d) - detectionRange d) l
       (z (position e) - detectionRange e)),
    (runMax (fun d => z (position d) + detectionRange d) l
       (z (position e) + detectionRange e)).
  split; [apply (runMin_isMinOf (fun d => x (position d) - detectionRange d)) |].
  split; [apply (runMax_isMaxOf (fun d => x (position d) + detectionRange d)) |].
  split; [apply (runMin_isMinOf (fun d => z (position d) - detectionRange d)) |].
  split; [apply (runMax_isMaxOf (fun d => z (position d) + detectionRange d)) |].
  unfold detectionCoverage. cbn [List.length Nat.eqb coveragePercent].
  now rewrite coverage_loop_nonempty.
Qed.

(** C4.  [detectionCoverage] of no drone is all zeros.  Otherwise, with
    [minX], [maxX], [minZ], [maxZ] the least and greatest of
    [position -/+ detectionRange] over the drones along x and z (the
    axis-aligned rectangle around every disc), [totalCoverageArea] the sum of
    [PI * r * r] and [boundingArea = max((maxX - minX) * (maxZ - minZ), 0)],
    [coveragePercent] is [min(100, totalCoverageArea / boundingArea * 100)]
    when [boundingArea > 0] and [0] when [boundingArea = 0].  In every case
    [coveragePercent] lies in [[0, 100]]. *)
Theorem detectionCoverage_spec :
  detectionCoverage []
  = {| coveragePercent := 0; overlapPairs := 0; totalPairs := 0 |}
  /\ (forall drones0 : list DroneData,
         drones0 <> [] ->
         exists minX0 maxX0 minZ0 maxZ0,
           isMinOf (fun d => x (position d) - detectionRange d) drones0 minX0
           /\ isMaxOf (fun d => x (position d) + detectionRange d) drones0 maxX0
           /\ isMinOf (fun d => z (position d) - detectionRange d) drones0 minZ0
           /\ isMaxOf (fun d => z (position d) + detectionRange d) drones0 maxZ0
           /\ (let totalCoverageArea0 :=
                 sumOf (fun d => PI * (detectionRange d * detectionRange d)) drones0 in
               let boundingArea := Rmax ((maxX0 - minX0) * (maxZ0 - minZ0)) 0 in
               (0 < boundingArea ->
                coveragePercent (detectionCoverage drones0)
                = Rmin 100 ((totalCoverageArea0 / boundingArea) * 100))
               /\ (boundingArea = 0 ->
                   coveragePercent (detectionCoverage drones0) = 0)))
  /\ (forall drones0 : list DroneData,
         0 <= coveragePercent (detectionCoverage drones0) <= 100).
Proof.
  split; [reflexivity |]. split; [| apply detectionCoverage_percent_range].
  intros drones0 Hne.
  destruct (detectionCoverage_percent_nonempty drones0 Hne)
    as (a & b & c & d & Ha & Hb & Hc & Hd & Hp).
  exists a, b, c, d. repeat split; try apply Ha; try apply Hb; try apply Hc;
    try apply Hd.
  - intros Hpos. rewrite Hp. unfold coveragePercentOf. cbn [minX maxX minZ maxZ].
    rewrite (proj2 (Num_gtb_iff _ _) Hpos). reflexivity.
  - intros Hz. rewrite Hp. unfold coveragePercentOf. cbn [minX maxX minZ maxZ].
    rewrite Hz. unfold Num.gtb. now rewrite Num_ltb_false by lra.
Qed.

(** The estimate for drone-1 and drone-2 of the dataset at index 0: the
    rectangle is [[-44, 146] x [-43, 70]]. *)
Lemma detectionCoverage_spec_witness :
  [Sample.drone1_t0; Sample.drone2_t0] <> []
  /\ coveragePercent (detectionCoverage [Sample.drone1_t0; Sample.drone2_t0])
     = Rmin 100 ((PI * (50 * 50) + (PI * (50 * 50) + 0)) / 21470 * 100).
Proof.
  assert (Hne : [Sample.drone1_t0; Sample.drone2_t0] <> []) by discriminate.
  split; [exact Hne |].
  destruct (proj1 (proj2 detectionCoverage_spec) _ Hne)
    as (a & b & c & d & [Ha [ea [Hea Ha']]] & [Hb [eb [Heb Hb']]]
        & [Hc [ec [Hec Hc']]] & [Hd [ed [Hed Hd']]] & Hpos & _).
  assert (Ea : a = -44).
  { pose proof (Ha _ (or_introl eq_refl)) as H1. simpl in H1.
    destruct Hea as [E | [E | []]]; rewrite <- E in Ha'; simpl in Ha'; lra. }
  assert (Eb : b = 146).
  { pose proof (Hb _ (or_intror (or_introl eq_refl))) as H1. simpl in H1.
    destruct Heb as [E | [E | []]]; rewrite <- E in Hb'; simpl in Hb'; lra. }
  assert (Ec : c = -43).
  { pose proof (Hc _ (or_introl eq_refl)) as H1. simpl in H1.
    destruct Hec as [E | [E | []]]; rewrite <- E in Hc'; simpl in Hc'; lra. }
  assert (Ed : d = 70).
  { pose proof (Hd _ (or_intror (or_introl eq_refl))) as H1. simpl in H1.
    destruct Hed as [E | [E | []]]; rewrite <- E in Hd'; simpl in Hd'; lra. }
  cbv zeta in Hpos. rewrite Ea, Eb, Ec, Ed in Hpos.
  replace ((146 - -44) * (70 - -43)) with 21470 in Hpos by lra.
  rewrite (Rmax_left 21470 0) in Hpos by lra.
  apply Hpos. lra.
Defined.

(** ** GeometricAnalytics: closest points of two segments *)

Lemma THREE_dot_sub_self (p : THREE.Vector3) :
  THREE.dot (THREE.sub p p) (THREE.sub p p) = 0.
Proof. unfold THREE.dot, THREE.sub. simpl. ring. Qed.

(** The length of the difference is the distance. *)
Lemma THREE_length_sub (p q : THREE.Vector3) :
  THREE.length (THREE.sub p q) = THREE.distanceTo p q.
Proof. reflexivity. Qed.

Lemma closestPoints_of_points (p q : THREE.Vector3) :
  closestPointsBetweenSegments p p q q
  = {| pointA := p; pointB := q; distance := THREE.distanceTo p q |}.
Proof.
  unfold closestPointsBetweenSegments. cbv zeta.
  rewrite !THREE_dot_sub_self.
  rewrite (Num_leb_true 0 1e-6) by lra. reflexivity.
Qed.

(** C8.  For two segments that are single points [p] and [q] the function
    returns [p] and [q] themselves and their Euclidean distance
    [|p - q| = sqrt ((px - qx)^2 + (py - qy)^2 + (pz - qz)^2)]. *)
Theorem closestPoints_degenerate (p q : THREE.Vector3) :
  let result := closestPointsBetweenSegments p p q q in
  pointA result = p
  /\ pointB result = q
  /\ distance result
     = sqrt ((THREE.x p - THREE.x q) * (THREE.x p - THREE.x q)
             + (THREE.y p - THREE.y q) * (THREE.y p - THREE.y q)
             + (THREE.z p - THREE.z q) * (THREE.z p - THREE.z q))
  /\ distance result = THREE.length (THREE.sub p q).
Proof.
  cbv zeta. rewrite closestPoints_of_points. repeat split.
Qed.

(** ** GeometricAnalytics: near-intersection markers *)

Module SampleVectors.

(** Two unit vectors 25 apart: one along x from the origin, one along z
    from [(0, 25, 0)]. *)
Definition alongX : VelocityVectorInfo :=
  {| vec_id := "drone-1"; vec_color := "#22c55e";
     vec_start := {| THREE.x := 0; THREE.y := 0; THREE.z := 0 |};
     vec_end := {| THREE.x := 1; THREE.y := 0; THREE.z := 0 |} |}.

Definition alongZ : VelocityVectorInfo :=
  {| vec_id := "drone-2"; vec_color := "#22c55e";
     vec_start := {| THREE.x := 0; THREE.y := 25; THREE.z := 0 |};
     vec_end := {| THREE.x := 0; THREE.y := 25; THREE.z := 1 |} |}.

(** Two vectors of length 40 that pass 20 from each other at their
    midpoints: one along x from the origin, one along y through
    [(20, 0, 20)]. *)
Definition lower : VelocityVectorInfo :=
  {| vec_id := "drone-1"; vec_color := "#22c55e";
     vec_start := {| THREE.x := 0; THREE.y := 0; THREE.z := 0 |};
     vec_end := {| THREE.x := 40; THREE.y := 0; THREE.z := 0 |} |}.

Definition upper : VelocityVectorInfo :=
  {| vec_id := "drone-2"; vec_color := "#22c55e";
     vec_start := {| THREE.x := 20; THREE.y := -20; THREE.z := 20 |};
     vec_end := {| THREE.x := 20; THREE.y := 20; THREE.z := 20 |} |}.

End SampleVectors.

(** Evaluate the branches of [closestPointsBetweenSegments] on literals. *)
Ltac num_abs :=
  repeat match goal with
    | |- context [Rabs ?a] =>
        first [ rewrite (Rabs_right a) by lra | rewrite (Rabs_left a) by lra ]
    end.

Ltac closest_eval :=
  unfold closestPointsBetweenSegments, THREE.distanceTo, THREE.distanceToSquared,
    THREE.addScaledVector, THREE.dot, THREE.sub;
  cbn [THREE.x THREE.y THREE.z vec_start vec_end];
  repeat (progress (num_abs; num_eval; cbn [andb orb])).

Lemma closest_alongX_alongZ :
  closestPointsBetweenSegments
    (vec_start SampleVectors.alongX) (vec_end SampleVectors.alongX)
    (vec_start SampleVectors.alongZ) (vec_end SampleVectors.alongZ)
  = {| pointA := {| THREE.x := 0; THREE.y := 0; THREE.z := 0 |};
       pointB := {| THREE.x := 0; THREE.y := 25; THREE.z := 0 |};
       distance := 25 |}.
Proof.
  unfold SampleVectors.alongX, SampleVectors.alongZ.
  closest_eval.
  f_equal; [f_equal; lra | f_equal; lra |].
  match goal with |- sqrt ?e = _ => replace e with (25 * 25) by lra end.
  apply sqrt_square. lra.
Qed.

Lemma closest_lower_upper :
  closestPointsBetweenSegments
    (vec_start SampleVectors.lower) (vec_end SampleVectors.lower)
    (vec_start SampleVectors.upper) (vec_end SampleVectors.upper)
  = {| pointA := {| THREE.x := 40; THREE.y := 0; THREE.z := 0 |};
       pointB := {| THREE.x := 20; THREE.y := 0; THREE.z := 20 |};
       distance := sqrt 800 |}.
Proof.
  unfold SampleVectors.lower, SampleVectors.upper.
  closest_eval.
  f_equal; [f_equal; lra | f_equal; lra |].
  f_equal. lra.
Qed.

(** *** The key of a marker *)

Lemma String_ltb_antisym (s s' : string) :
  String.ltb s s' = true -> String.ltb s' s = false.
Proof.
  unfold String.ltb. rewrite (String.compare_antisym s s').
  destruct (String.compare s' s); simpl; congruence.
Qed.

Lemma String_ltb_total (s s' : string) :
  String.ltb s s' = false -> String.ltb s' s = false -> s = s'.
Proof.
  unfold String.ltb. rewrite (String.compare_antisym s s').
  destruct (String.compare s' s) eqn:E; simpl; try discriminate.
  intros _ _. symmetry. now apply String.compare_eq_iff.
Qed.

(** The key does not depend on which vector of the pair comes first. *)
Lemma intersectionKey_sym (a b : VelocityVectorInfo) :
  intersectionKey a b = intersectionKey b a.
Proof.
  unfold intersectionKey.
  destruct (String.ltb (vec_id a) (vec_id b)) eqn:E1.
  - now rewrite (String_ltb_antisym _ _ E1).
  - destruct (String.ltb (vec_id b) (vec_id a)) eqn:E2; [reflexivity |].
    now rewrite (String_ltb_total _ _ E1 E2).
Qed.

(** *** The markers *)

(** The marker of a pair: keyed by the pair, at the midpoint of the two
    points [closestPointsBetweenSegments] returns. *)
Definition markerOf (a b : VelocityVectorInfo) : VelocityIntersection :=
  let closest :=
    closestPointsBetweenSegments (vec_start a) (vec_end a) (vec_start b) (vec_end b) in
  {| hit_id := intersectionKey a b;
     hit_position :=
       ((THREE.x (pointA closest) + THREE.x (pointB closest)) * 0.5,
        (THREE.y (pointA closest) + THREE.y (pointB closest)) * 0.5,
        (THREE.z (pointA closest) + THREE.z (pointB closest)) * 0.5);
     hit_color := vec_color a |}.

(** The distance [closestPointsBetweenSegments] returns for a pair. *)
Definition returnedDistance (a b : VelocityVectorInfo) : R :=
  distance
    (closestPointsBetweenSegments (vec_start a) (vec_end a) (vec_start b) (vec_end b)).

(** The markers of the index pair [ij]: one or none. *)
Definition markersAt (vectors : list VelocityVectorInfo) (ij : nat * nat)
  : list VelocityIntersection :=
  match nth_error vectors (fst ij), nth_error vectors (snd ij) with
  | Some a, Some b =>
      if Num.leb (returnedDistance a b) VECTOR_INTERSECTION_THRESHOLD
      then [markerOf a b] else []
  | _, _ => []
  end.

Lemma intersectionOf_Some (a b : VelocityVectorInfo) :
  returnedDistance a b <= VECTOR_INTERSECTION_THRESHOLD ->
  intersectionOf a b = Some (markerOf a b).
Proof.
  intros H. unfold intersectionOf. fold (returnedDistance a b).
  rewrite (Num_leb_true _ _ H). reflexivity.
Qed.

Lemma intersectionOf_None (a b : VelocityVectorInfo) :
  VECTOR_INTERSECTION_THRESHOLD < returnedDistance a b ->
  intersectionOf a b = None.
Proof.
  intros H. unfold intersectionOf. fold (returnedDistance a b).
  rewrite (Num_leb_false _ _ H). reflexivity.
Qed.

Lemma vectorIntersections_markersAt (vectors : list VelocityVectorInfo) :
  vectorIntersections true vectors
  = flat_map (markersAt vectors) (indexPairs (List.length vectors)).
Proof.
  unfold vectorIntersections. cbn [negb]. rewrite forEachPair_indexPairs.
  rewrite (fold_left_ext_eq _
             (fun out ij =>
                match
                  match nth_error vectors (fst ij), nth_error vectors (snd ij) with
                  | Some a, Some b => intersectionOf a b
                  | _, _ => None
                  end
                with
                | Some hit => out ++ [hit]
                | None => out
                end)).
  - rewrite fold_left_collect. cbn [app]. apply flat_map_ext. intros ij.
    unfold markersAt.
    destruct (nth_error vectors (fst ij)) as [a |]; [| reflexivity].
    destruct (nth_error vectors (snd ij)) as [b |]; [| reflexivity].
    destruct (Rle_dec (returnedDistance a b) VECTOR_INTERSECTION_THRESHOLD) as [H | H].
    + now rewrite intersectionOf_Some, Num_leb_true.
    + rewrite intersectionOf_None, Num_leb_false by lra. reflexivity.
  - intros out ij. unfold atPair.
    destruct (nth_error vectors (fst ij)), (nth_error vectors (snd ij)); reflexivity.
Qed.

(** C7 (as amended).  With velocity vectors shown, the markers are those of
    the index pairs [i < j < n], in loop order: a pair has a marker exactly
    when the distance [closestPointsBetweenSegments] returns for it is at most
    the threshold 25 (a distance equal to the threshold has a marker); the
    marker lies at the midpoint of the two returned points, and its key is
    the same whichever vector of the pair comes first. *)
Theorem vectorIntersections_markers (vectors : list VelocityVectorInfo) :
  let n := List.length vectors in
  VECTOR_INTERSECTION_THRESHOLD = 25
  /\ vectorIntersections true vectors = flat_map (markersAt vectors) (indexPairs n)
  /\ (forall i j, In (i, j) (indexPairs n) <-> (i < j < n)%nat)
  /\ NoDup (indexPairs n)
  /\ (forall i j a b,
         nth_error vectors i = Some a ->
         nth_error vectors j = Some b ->
         (returnedDistance a b <= 25 -> markersAt vectors (i, j) = [markerOf a b])
         /\ (25 < returnedDistance a b -> markersAt vectors (i, j) = []))
  /\ (forall a b,
         let closest :=
           closestPointsBetweenSegments
             (vec_start a) (vec_end a) (vec_start b) (vec_end b) in
         hit_position (markerOf a b)
         = ((THREE.x (pointA closest) + THREE.x (pointB closest)) * 0.5,
            (THREE.y (pointA closest) + THREE.y (pointB closest)) * 0.5,
            (THREE.z (pointA closest) + THREE.z (pointB closest)) * 0.5)
         /\ hit_id (markerOf a b) = intersectionKey a b
         /\ intersectionKey a b = intersectionKey b a
         /\ hit_id (markerOf a b) = hit_id (markerOf b a)).
Proof.
  cbv zeta. split; [reflexivity |].
  split; [apply vectorIntersections_markersAt |].
  split; [intros i j; apply In_indexPairs |].
  split; [apply NoDup_indexPairs |].
  split.
  - intros i j a b Ha Hb. unfold markersAt. cbn [fst snd]. rewrite Ha, Hb.
    unfold VECTOR_INTERSECTION_THRESHOLD. split; intros H.
    + now rewrite Num_leb_true.
    + now rewrite Num_leb_false.
  - intros a b. repeat split; try reflexivity; apply intersectionKey_sym.
Qed.

(** Two vectors whose returned distance is exactly the threshold: not below
    it, and yet the pair has a marker. *)
Lemma vectorIntersections_at_threshold :
  returnedDistance SampleVectors.alongX SampleVectors.alongZ = 25
  /\ ~ returnedDistance SampleVectors.alongX SampleVectors.alongZ
       < VECTOR_INTERSECTION_THRESHOLD
  /\ vectorIntersections true [SampleVectors.alongX; SampleVectors.alongZ]
     = [ {| hit_id := "drone-1-drone-2";
            hit_position := (0, 12.5, 0);
            hit_color := "#22c55e" |} ].
Proof.
  assert (Hd : returnedDistance SampleVectors.alongX SampleVectors.alongZ = 25).
  { unfold returnedDistance. now rewrite closest_alongX_alongZ. }
  split; [exact Hd |]. split.
  - rewrite Hd. unfold VECTOR_INTERSECTION_THRESHOLD. lra.
  - rewrite vectorIntersections_markersAt.
    cbn [List.length indexPairs seq flat_map map Nat.add Nat.sub app
           markersAt fst snd nth_error].
    rewrite Hd. unfold VECTOR_INTERSECTION_THRESHOLD.
    rewrite (Num_leb_true 25 25) by lra.
    unfold markerOf. rewrite closest_alongX_alongZ.
    cbn [pointA pointB THREE.x THREE.y THREE.z app]. f_equal. f_equal.
    + f_equal; [f_equal |]; lra.
Qed.

(** The returned distance is not always the least distance between the two
    segments: the function divides [sN] by [a] and [tN] by [c], where the
    textbook algorithm divides both by [a * c - b * b].  Here the midpoints
    of the two segments are 20 apart, the function returns [sqrt 800 > 28],
    and the pair gets no marker. *)
Lemma returnedDistance_not_least :
  let a := SampleVectors.lower in
  let b := SampleVectors.upper in
  let onA :=
    THREE.addScaledVector (vec_start a) (THREE.sub (vec_end a) (vec_start a)) 0.5 in
  let onB :=
    THREE.addScaledVector (vec_start b) (THREE.sub (vec_end b) (vec_start b)) 0.5 in
  THREE.distanceTo onA onB = 20
  /\ returnedDistance a b = sqrt 800
  /\ 28 < sqrt 800
  /\ vectorIntersections true [a; b] = [].
Proof.
  cbv zeta.
  assert (Hd : returnedDistance SampleVectors.lower SampleVectors.upper = sqrt 800).
  { unfold returnedDistance. now rewrite closest_lower_upper. }
  assert (Hs : 28 < sqrt 800).
  { rewrite <- (sqrt_square 28) by lra. apply sqrt_lt_1_alt. lra. }
  split; [| split; [exact Hd | split; [exact Hs |]]].
  - unfold THREE.distanceTo, THREE.distanceToSquared, THREE.addScaledVector, THREE.sub.
    simpl.
    match goal with |- sqrt ?e = _ => replace e with (20 * 20) by lra end.
    apply sqrt_square. lra.
  - rewrite vectorIntersections_markersAt.
    cbn [List.length indexPairs seq flat_map map Nat.add Nat.sub app
           markersAt fst snd nth_error].
    rewrite Hd. unfold VECTOR_INTERSECTION_THRESHOLD.
    rewrite Num_leb_false by lra. reflexivity.
Qed.

(** ** TrajectoryBuilder *)

(** Ascending time index. *)
Definition byTime (a b : DroneData) : Prop := (timePoint a <= timePoint b)%Z.

Definition compareTime (a b : DroneData) : Z := (timePoint a - timePoint b)%Z.

Lemma Array_insert_perm {A : Type} (compareFn : A -> A -> Z) (a : A) (l : list A) :
  Permutation (Array_insert compareFn a l) (a :: l).
Proof.
  induction l as [| b l IH]; simpl; [reflexivity |].
  destruct (compareFn a b <=? 0)%Z; [reflexivity |].
  rewrite IH. apply perm_swap.
Qed.

(** Sorting rearranges the array and nothing else. *)
Lemma Array_sort_perm {A : Type} (compareFn : A -> A -> Z) (l : list A) :
  Permutation (Array_sort compareFn l) l.
Proof.
  induction l as [| a l IH]; simpl; [reflexivity |].
  rewrite Array_insert_perm. now constructor.
Qed.

Lemma Array_insert_sorted (a : DroneData) (l : list DroneData) :
  StronglySorted byTime l -> StronglySorted byTime (Array_insert compareTime a l).
Proof.
  induction 1 as [| b l Hs IH Hall]; simpl.
  - constructor; constructor.
  - unfold compareTime at 1. destruct (timePoint a - timePoint b <=? 0)%Z eqn:E.
    + apply Z.leb_le in E. constructor.
      * now constructor.
      * constructor; [unfold byTime; lia |].
        eapply Forall_impl; [| exact Hall].
        intros c Hc. unfold byTime in *. lia.
    + apply Z.leb_gt in E. constructor; [assumption |].
      eapply Permutation_Forall.
      * symmetry. apply Array_insert_perm.
      * constructor; [unfold byTime; lia | assumption].
Qed.

(** Sorting by [a.timePoint - b.timePoint] yields ascending time indices. *)
Lemma Array_sort_sorted (l : list DroneData) :
  StronglySorted byTime (Array_sort compareTime l).
Proof.
  induction l as [| a l IH]; simpl; [constructor |].
  now apply Array_insert_sorted.
Qed.

Lemma filter_sorted {A : Type} (R0 : A -> A -> Prop) (f : A -> bool) (l : list A) :
  StronglySorted R0 l -> StronglySorted R0 (filter f l).
Proof.
  induction 1 as [| a l Hs IH Hall]; simpl; [constructor |].
  destruct (f a); [| assumption].
  constructor; [assumption |].
  apply Forall_forall. intros b Hb. apply filter_In in Hb.
  rewrite Forall_forall in Hall. now apply Hall.
Qed.

Lemma filter_perm {A : Type} (f : A -> bool) (l l' : list A) :
  Permutation l l' -> Permutation (filter f l) (filter f l').
Proof.
  induction 1 as [| a l l' _ IH | a b l | l l' l'' _ IH1 _ IH2]; simpl.
  - reflexivity.
  - destruct (f a); [now constructor | assumption].
  - destruct (f a), (f b); try reflexivity. apply perm_swap.
  - now transitivity (filter f l').
Qed.

Lemma getDroneTrajectory_perm (dataset : DroneSwarmDataset) (droneId0 : string) :
  Permutation (getDroneTrajectory dataset droneId0)
    (filter (fun drone => String.eqb (droneId drone) droneId0) (drones dataset)).
Proof. apply Array_sort_perm. Qed.

Lemma getDroneTrajectory_sorted (dataset : DroneSwarmDataset) (droneId0 : string) :
  StronglySorted byTime (getDroneTrajectory dataset droneId0).
Proof. apply Array_sort_sorted. Qed.

(** With two points or more the body pushes a path of the filtered
    history. *)
Lemma trajectoryFor_Some (dataset : DroneSwarmDataset)
  (filters : VisualizationFilters) (droneId0 : string) :
  let history :=
    filter (matchesFilters filters) (getDroneTrajectory dataset droneId0) in
  (2 <= List.length history)%nat ->
  exists lastEntry0,
    nth_error history (List.length history - 1) = Some lastEntry0
    /\ trajectoryFor dataset filters droneId0
       = Some {| path_droneId := droneId0;
                 path_swarmId := swarmId lastEntry0;
                 points :=
                   map (fun entry =>
                          (x (position entry), y (position entry), z (position entry)))
                       history |}.
Proof.
  intros history Hlen. unfold trajectoryFor. fold history.
  replace (List.length history <=? 1)%nat with false
    by (symmetry; apply Nat.leb_gt; lia).
  destruct (nth_error history (List.length history - 1)) as [e |] eqn:E.
  - exists e. split; reflexivity.
  - apply nth_error_None in E. lia.
Qed.

Lemma trajectoryFor_None (dataset : DroneSwarmDataset)
  (filters : VisualizationFilters) (droneId0 : string) :
  (List.length (filter (matchesFilters filters) (getDroneTrajectory dataset droneId0))
   <= 1)%nat ->
  trajectoryFor dataset filters droneId0 = None.
Proof.
  intros Hlen. unfold trajectoryFor.
  now rewrite (proj2 (Nat.leb_le _ _) Hlen).
Qed.

(** With trajectories shown, the paths are those of the distinct ids of the
    current drones, in order of first appearance. *)
Lemma trajectoryPaths_flat_map (dataset : DroneSwarmDataset)
  (filters : VisualizationFilters) (currentDrones0 : list DroneData) :
  showTrajectories filters = true ->
  trajectoryPaths dataset filters currentDrones0
  = flat_map
      (fun droneId0 =>
         match trajectoryFor dataset filters droneId0 with
         | Some path => [path]
         | None => []
         end)
      (Set_from [] (map droneId currentDrones0)).
Proof.
  intros Hshow. unfold trajectoryPaths. rewrite Hshow. cbn [negb].
  now rewrite fold_left_collect.
Qed.

(** C9.  For one drone id, the history the body of [trajectoryPaths] works
    on is made of every sample of the dataset with that id that passes the
    filters, in ascending order of time index (the samples are collected,
    sorted by time index, then filtered in that order).  A history of at most
    one point pushes no path; a history of two points or more pushes one path,
    whose points are the positions of the history, one per sample and in the
    same ascending order. *)
Theorem trajectoryFor_spec (dataset : DroneSwarmDataset)
  (filters : VisualizationFilters) (droneId0 : string) :
  let collected :=
    filter (fun drone => String.eqb (droneId drone) droneId0) (drones dataset) in
  let sorted := getDroneTrajectory dataset droneId0 in
  let history := filter (matchesFilters filters) sorted in
  Permutation sorted collected
  /\ StronglySorted byTime sorted
  /\ Permutation history (filter (matchesFilters filters) collected)
  /\ StronglySorted byTime history
  /\ ((List.length history <= 1)%nat ->
      trajectoryFor dataset filters droneId0 = None)
  /\ ((2 <= List.length history)%nat ->
      exists path,
        trajectoryFor dataset filters droneId0 = Some path
        /\ path_droneId path = droneId0
        /\ points path
           = map (fun entry =>
                    (x (position entry), y (position entry), z (position entry)))
               history
        /\ List.length (points path) = List.length history).
Proof.
  cbv zeta.
  split; [apply getDroneTrajectory_perm |].
  split; [apply getDroneTrajectory_sorted |].
  split; [apply filter_perm, getDroneTrajectory_perm |].
  split; [apply filter_sorted, getDroneTrajectory_sorted |].
  split; [apply trajectoryFor_None |].
  intros Hlen.
  destruct (trajectoryFor_Some dataset filters droneId0 Hlen) as [e [_ Hp]].
  eexists. split; [exact Hp |]. cbn [path_droneId points].
  split; [reflexivity |]. split; [reflexivity | apply length_map].
Qed.

Lemma Sample_history_drone1 :
  filter (matchesFilters Sample.allFilters)
    (getDroneTrajectory Sample.dataset "drone-1")
  = [Sample.drone1_t0; Sample.drone1_t1].
Proof.
  unfold getDroneTrajectory, matchesFilters; simpl. num_eval. reflexivity.
Qed.

Lemma Sample_history_drone2 :
  filter (matchesFilters Sample.allFilters)
    (getDroneTrajectory Sample.dataset "drone-2")
  = [Sample.drone2_t0].
Proof.
  unfold getDroneTrajectory, matchesFilters; simpl. num_eval. reflexivity.
Qed.

(** Scenario D on the sample: drone-2 has one sample and no path; drone-1
    has two and a path of two points, index 0 first. *)
Lemma trajectoryFor_spec_witness :
  trajectoryFor Sample.dataset Sample.allFilters "drone-2" = None
  /\ exists path,
       trajectoryFor Sample.dataset Sample.allFilters "drone-1" = Some path
       /\ points path = [(6, 5, 7); (21, 23, 10.4)].
Proof.
  split.
  - apply (trajectoryFor_spec Sample.dataset Sample.allFilters "drone-2").
    rewrite Sample_history_drone2. simpl. lia.
  - destruct (trajectoryFor_spec Sample.dataset Sample.allFilters "drone-1")
      as (_ & _ & _ & _ & _ & Hsome).
    destruct Hsome as (path & Hp & _ & Hpts & _).
    + rewrite Sample_history_drone1. simpl. lia.
    + exists path. split; [exact Hp |].
      rewrite Hpts, Sample_history_drone1. reflexivity.
Defined.

(** Samples stored out of order come out in ascending order of time
    index. *)
Example getDroneTrajectory_reorders :
  getDroneTrajectory
    {| timePoints := [0%Z; 1%Z]; timePointLabels := None;
       drones := [Sample.drone1_t1; Sample.drone2_t0; Sample.drone1_t0];
       boundingBox := Sample.box |}
    "drone-1"
  = [Sample.drone1_t0; Sample.drone1_t1].
Proof. reflexivity. Qed.

(** * Part III: more of the program, and what it keeps *)

(** ** TimeSampler: any time on or off the timeline *)

(** The hook reads the time through its clamped value only. *)
Lemma interpolatedDrones_clamped dataset filters currentTime currentTime' :
  clampedTimeOf dataset currentTime = clampedTimeOf dataset currentTime' ->
  interpolatedDrones dataset filters currentTime
  = interpolatedDrones dataset filters currentTime'.
Proof.
  intros H. unfold interpolatedDrones, endIndexOf, fracOf, startIndexOf.
  now rewrite H.
Qed.

Lemma clampedTimeOf_below dataset currentTime :
  currentTime <= 0 -> clampedTimeOf dataset currentTime = 0.
Proof.
  intros H. unfold clampedTimeOf. rewrite Rmax_right by assumption.
  apply Rmin_left. apply (IZR_le 0). apply maxIndexOf_nonneg.
Qed.

Lemma clampedTimeOf_above dataset currentTime :
  IZR (maxIndexOf dataset) <= currentTime ->
  clampedTimeOf dataset currentTime = IZR (maxIndexOf dataset).
Proof.
  intros H. unfold clampedTimeOf.
  pose proof (IZR_le 0 _ (maxIndexOf_nonneg dataset)) as H0.
  rewrite Rmax_left by lra. now apply Rmin_right.
Qed.

Lemma interpolatedDrones_before_start dataset filters currentTime :
  timePoints dataset <> [] ->
  currentTime <= 0 ->
  interpolatedDrones dataset filters currentTime
  = filter (matchesFilters filters) (getDronesAtTime dataset 0).
Proof.
  intros Hne H.
  rewrite <- (interpolatedDrones_index_eq dataset filters 0 Hne).
  - apply interpolatedDrones_clamped.
    rewrite clampedTimeOf_below by assumption.
    symmetry. apply clampedTimeOf_below. lra.
  - pose proof (maxIndexOf_nonneg dataset). lia.
Qed.

Lemma interpolatedDrones_after_end dataset filters currentTime :
  timePoints dataset <> [] ->
  IZR (maxIndexOf dataset) <= currentTime ->
  interpolatedDrones dataset filters currentTime
  = filter (matchesFilters filters) (getDronesAtTime dataset (maxIndexOf dataset)).
Proof.
  intros Hne H.
  rewrite <- (interpolatedDrones_index_eq dataset filters (maxIndexOf dataset) Hne).
  - apply interpolatedDrones_clamped.
    rewrite clampedTimeOf_above by assumption.
    symmetry. apply clampedTimeOf_above. lra.
  - pose proof (maxIndexOf_nonneg dataset). lia.
Qed.

(** X1.  A time off the timeline is clamped, never an error: at every time
    at or before 0 the hook returns the filtered samples of index 0, and at
    every time at or after the last index those of the last index. *)
Theorem interpolatedDrones_out_of_range (dataset : DroneSwarmDataset)
  (filters : VisualizationFilters) (currentTime : R) :
  timePoints dataset <> [] ->
  (currentTime <= 0 ->
   interpolatedDrones dataset filters currentTime
   = filter (matchesFilters filters) (getDronesAtTime dataset 0))
  /\ (IZR (maxIndexOf dataset) <= currentTime ->
      interpolatedDrones dataset filters currentTime
      = filter (matchesFilters filters)
          (getDronesAtTime dataset (maxIndexOf dataset))).
Proof.
  intros Hne. split; intros H.
  - now apply interpolatedDrones_before_start.
  - now apply interpolatedDrones_after_end.
Qed.

Lemma interpolatedDrones_out_of_range_witness :
  interpolatedDrones Sample.dataset Sample.allFilters (-3) = [Sample.drone1_t0; Sample.drone2_t0]
  /\ interpolatedDrones Sample.dataset Sample.allFilters 7 = [Sample.drone1_t1].
Proof.
  destruct (interpolatedDrones_out_of_range Sample.dataset Sample.allFilters (-3))
    as [Hlow _]; [discriminate |].
  destruct (interpolatedDrones_out_of_range Sample.dataset Sample.allFilters 7)
    as [_ Hhigh]; [discriminate |].
  split.
  - rewrite Hlow by lra. apply Sample_all_at_0.
  - rewrite Hhigh by (rewrite Sample_maxIndex; lra).
    rewrite Sample_maxIndex. apply Sample_all_at_1.
Defined.

(** The start drones that pass the filters. *)
Definition startDronesOf (dataset : DroneSwarmDataset)
  (filters : VisualizationFilters) (currentTime : R) : list DroneData :=
  filter (matchesFilters filters)
    (getDronesAtTime dataset (startIndexOf dataset currentTime)).

(** The end drones that pass the filters. *)
Definition endDronesOf (dataset : DroneSwarmDataset)
  (filters : VisualizationFilters) (currentTime : R) : list DroneData :=
  filter (matchesFilters filters)
    (getDronesAtTime dataset (endIndexOf dataset currentTime)).

(** At every time the result is the start drones, some of them replaced by
    an interpolation towards an end drone of the same id. *)
Lemma interpolatedDrones_shape dataset filters currentTime :
  timePoints dataset <> [] ->
  exists step : DroneData -> DroneData,
    interpolatedDrones dataset filters currentTime
    = map step (startDronesOf dataset filters currentTime)
    /\ forall drone,
        step drone = drone
        \/ exists next,
            In next (endDronesOf dataset filters currentTime)
            /\ droneId next = droneId drone
            /\ step drone = interpolateDrone drone next (fracOf dataset currentTime).
Proof.
  intros Hne. unfold interpolatedDrones, startDronesOf, endDronesOf.
  rewrite (timePoints_nonempty_length _ Hne).
  destruct (Num.eqb (fracOf dataset currentTime) 0
            || (endIndexOf dataset currentTime =? startIndexOf dataset currentTime)%Z).
  - exists (fun drone => drone). split; [now rewrite map_id | now left].
  - eexists. split; [reflexivity |]. intros drone. cbv beta.
    destruct (JSMap.get _ (droneId drone)) as [next |] eqn:G; [| now left].
    right. exists next. destruct (endById_get_Some _ _ _ G) as [Hn Hid].
    repeat split; assumption.
Qed.

(** X2.  At every time the hook returns one drone per start sample that
    passes the filters, in the stored order, with the id, time index and tags
    of that sample: no drone vanishes between two indices and a drone that
    exists only at the end index is not brought in. *)
Theorem interpolatedDrones_keeps_identity (dataset : DroneSwarmDataset)
  (filters : VisualizationFilters) (currentTime : R) :
  timePoints dataset <> [] ->
  let result := interpolatedDrones dataset filters currentTime in
  let startDrones :=
    filter (matchesFilters filters)
      (getDronesAtTime dataset (startIndexOf dataset currentTime)) in
  map droneId result = map droneId startDrones
  /\ map timePoint result = map timePoint startDrones
  /\ map swarmId result = map swarmId startDrones
  /\ map taskId result = map taskId startDrones
  /\ map state result = map state startDrones.
Proof.
  intros Hne. cbv zeta.
  destruct (interpolatedDrones_shape dataset filters currentTime Hne)
    as [step [-> Hstep]].
  unfold startDronesOf. rewrite !map_map.
  repeat split; apply map_ext; intros drone;
    destruct (Hstep drone) as [-> | [next [_ [_ ->]]]]; reflexivity.
Qed.

Lemma interpolatedDrones_keeps_identity_witness :
  map droneId (interpolatedDrones Sample.dataset Sample.allFilters 0.5)
  = ["drone-1"%string; "drone-2"%string].
Proof.
  destruct (interpolatedDrones_keeps_identity Sample.dataset Sample.allFilters 0.5)
    as [Hid _]; [discriminate |].
  rewrite Hid, Sample_start_half, Sample_all_at_0. reflexivity.
Defined.

(** [v] lies between [a] and [b], whichever is the smaller. *)
Definition between (a b v : R) : Prop := Rmin a b <= v <= Rmax a b.

Lemma lerp_between (from to alpha : R) :
  0 <= alpha <= 1 -> between from to (lerp from to alpha).
Proof.
  intros [H0 H1]. unfold between, lerp, Rmin, Rmax.
  destruct (Rle_dec from to); split; nra.
Qed.

Lemma between_refl (a b : R) : between a b a.
Proof. unfold between. split; [apply Rmin_l | apply Rmax_l]. Qed.

(** X3.  Interpolation never overshoots: every drone the hook returns comes
    from a start sample that passes the filters, and is either that sample
    itself or has its battery, detection range, signal intensity and each
    coordinate of its position lying between the values of that sample and
    those of an end sample with the same id that passes the filters. *)
Theorem interpolatedDrones_no_overshoot (dataset : DroneSwarmDataset)
  (filters : VisualizationFilters) (currentTime : R) (out : DroneData) :
  In out (interpolatedDrones dataset filters currentTime) ->
  exists drone,
    In drone (filter (matchesFilters filters)
                (getDronesAtTime dataset (startIndexOf dataset currentTime)))
    /\ droneId out = droneId drone
    /\ (out = drone
        \/ exists next,
            In next (filter (matchesFilters filters)
                       (getDronesAtTime dataset (endIndexOf dataset currentTime)))
            /\ droneId next = droneId drone
            /\ between (batteryPercentage drone) (batteryPercentage next)
                 (batteryPercentage out)
            /\ between (detectionRange drone) (detectionRange next)
                 (detectionRange out)
            /\ between (signalIntensity drone) (signalIntensity next)
                 (signalIntensity out)
            /\ between (x (position drone)) (x (position next)) (x (position out))
            /\ between (y (position drone)) (y (position next)) (y (position out))
            /\ between (z (position drone)) (z (position next)) (z (position out))).
Proof.
  intros Hin.
  assert (Hne : timePoints dataset <> []).
  { intros E. unfold interpolatedDrones in Hin. rewrite E in Hin. exact Hin. }
  destruct (interpolatedDrones_shape dataset filters currentTime Hne)
    as [step [E Hstep]].
  rewrite E in Hin. apply in_map_iff in Hin. destruct Hin as [drone [<- Hd]].
  exists drone. split; [exact Hd |].
  destruct (Hstep drone) as [-> | [next [Hn [Hid ->]]]].
  - split; [reflexivity | now left].
  - split; [reflexivity |]. right. exists next.
    pose proof (fracOf_range dataset currentTime) as Hf.
    assert (Hf' : 0 <= fracOf dataset currentTime <= 1) by lra.
    split; [exact Hn |]. split; [exact Hid |].
    repeat split; apply lerp_between; exact Hf'.
Qed.

Lemma Sample_noSwarm_half :
  interpolatedDrones Sample.dataset Sample.onlyNoSwarm 0.5
  = [Sample.drone1_t0; Sample.drone2_t0].
Proof.
  rewrite interpolatedDrones_fractional.
  - rewrite Sample_start_half, Sample_noSwarm_at_0. reflexivity.
  - discriminate.
  - rewrite Sample_frac_half. lra.
Qed.

Lemma Sample_all_half :
  interpolatedDrones Sample.dataset Sample.allFilters 0.5
  = [interpolateDrone Sample.drone1_t0 Sample.drone1_t1 0.5; Sample.drone2_t0].
Proof.
  rewrite interpolatedDrones_fractional.
  - rewrite Sample_start_half, Sample_frac_half, Sample_all_at_0.
    unfold endByIdOf. change (0 + 1)%Z with 1%Z. rewrite Sample_all_at_1.
    reflexivity.
  - discriminate.
  - rewrite Sample_frac_half. lra.
Qed.

(** Half way between the two indices of the sample, with every filter
    open, drone-1 is interpolated: its x lies between 6 and 21, its y between
    5 and 23 and its battery between 98 and 98. *)
Lemma interpolatedDrones_no_overshoot_witness :
  In (interpolateDrone Sample.drone1_t0 Sample.drone1_t1 0.5)
    (interpolatedDrones Sample.dataset Sample.allFilters 0.5)
  /\ between 6 21
       (x (position (interpolateDrone Sample.drone1_t0 Sample.drone1_t1 0.5)))
  /\ between 5 23
       (y (position (interpolateDrone Sample.drone1_t0 Sample.drone1_t1 0.5)))
  /\ between 98 98
       (batteryPercentage (interpolateDrone Sample.drone1_t0 Sample.drone1_t1 0.5)).
Proof.
  assert (Hin : In (interpolateDrone Sample.drone1_t0 Sample.drone1_t1 0.5)
                  (interpolatedDrones Sample.dataset Sample.allFilters 0.5))
    by (rewrite Sample_all_half; now left).
  split; [exact Hin |].
  destruct (interpolatedDrones_no_overshoot Sample.dataset Sample.allFilters 0.5
              _ Hin) as (drone & Hd & Hid & Hcase).
  rewrite Sample_start_half, Sample_all_at_0 in Hd.
  assert (Edrone : drone = Sample.drone1_t0).
  { destruct Hd as [<- | [<- | []]]; [reflexivity | discriminate Hid]. }
  subst drone.
  destruct Hcase as [Hsame | (next & Hn & Hnid & Hb & _ & _ & Hx & Hy & _)].
  - exfalso. apply (f_equal (fun d => x (position d))) in Hsame.
    simpl in Hsame. unfold lerp in Hsame. lra.
  - rewrite Sample_end_half, Sample_all_at_1 in Hn.
    destruct Hn as [<- | []].
    split; [exact Hx |]. split; [exact Hy | exact Hb].
Defined.

Lemma currentDrones_pass (dataset : DroneSwarmDataset)
  (filters : VisualizationFilters) (currentTime : R)
  (customDrones : list DroneData) (drone : DroneData) :
  In drone (currentDrones dataset filters currentTime customDrones) ->
  matchesFilters filters drone = true.
Proof.
  unfold currentDrones. intros H. apply in_app_or in H. destruct H as [H | H].
  - eapply interpolatedDrones_pass_filters. exact H.
  - apply filter_In in H. tauto.
Qed.

(** X4.  Every drone handed to the views, whether taken or interpolated
    from the dataset or added by the operator, passes the current filters; in
    particular its battery lies in the selected range even when it was
    interpolated. *)
Theorem currentDrones_pass_filters (dataset : DroneSwarmDataset)
  (filters : VisualizationFilters) (currentTime : R)
  (customDrones : list DroneData) (drone : DroneData) :
  In drone (currentDrones dataset filters currentTime customDrones) ->
  matchesFilters filters drone = true
  /\ fst (batteryRange filters) <= batteryPercentage drone
     <= snd (batteryRange filters).
Proof.
  intros H. pose proof (currentDrones_pass _ _ _ _ _ H) as Hm.
  split; [exact Hm |]. apply matchesFilters_iff in Hm. tauto.
Qed.

Lemma currentDrones_pass_filters_witness :
  matchesFilters Sample.allFilters Sample.drone2_t0 = true
  /\ 0 <= batteryPercentage Sample.drone2_t0 <= 100.
Proof.
  apply (currentDrones_pass_filters Sample.dataset Sample.allFilters 0.5
           [Sample.drone4_t4] Sample.drone2_t0).
  unfold currentDrones. apply in_or_app. left.
  rewrite Sample_all_half. now right; left.
Defined.

(** ** Playback: the timeline state (DroneSwarmDashboard.tsx) *)

Module Timeline.

Record TimelineState := {
  currentTime : R;
  isPlaying : bool;
  playbackSpeed : R;
  timeRange : R * R
}.

(** [useState(() => ({ currentTime: 0, isPlaying: false, playbackSpeed: 1,
    timeRange: [0, dataset.timePoints.length - 1] }))]. *)
Definition initial (dataset : DroneSwarmDataset) : TimelineState :=
  {| currentTime := 0;
     isPlaying := false;
     playbackSpeed := 1;
     timeRange := (0, IZR (Z.of_nat (List.length (timePoints dataset)) - 1)) |}.

(** The updater the auto-play interval passes to [setTimelineState]. *)
Definition autoPlayTick (dataset : DroneSwarmDataset) (prev : TimelineState)
  : TimelineState :=
  let maxIndex := Z.max 0 (Z.of_nat (List.length (timePoints dataset)) - 1) in
  if (maxIndex =? 0)%Z then prev
  else
    let nextTime := currentTime prev + playbackSpeed prev in
    if Num.gtb nextTime (IZR maxIndex)
    then {| currentTime := 0;
            isPlaying := isPlaying prev;
            playbackSpeed := playbackSpeed prev;
            timeRange := timeRange prev |}
    else {| currentTime := nextTime;
            isPlaying := isPlaying prev;
            playbackSpeed := playbackSpeed prev;
            timeRange := timeRange prev |}.

(** The auto-play effect: the interval runs only while playing. *)
Definition autoPlay (dataset : DroneSwarmDataset) (state0 : TimelineState)
  : TimelineState :=
  if negb (isPlaying state0) then state0 else autoPlayTick dataset state0.

Definition handleTimeChange (dataset : DroneSwarmDataset) (time : R)
  (prev : TimelineState) : TimelineState :=
  let maxIndex := Z.max 0 (Z.of_nat (List.length (timePoints dataset)) - 1) in
  let clamped := Rmin (Rmax time 0) (IZR maxIndex) in
  {| currentTime := clamped;
     isPlaying := isPlaying prev;
     playbackSpeed := playbackSpeed prev;
     timeRange := timeRange prev |}.

Definition handlePlayPause (prev : TimelineState) : TimelineState :=
  {| currentTime := currentTime prev;
     isPlaying := negb (isPlaying prev);
     playbackSpeed := playbackSpeed prev;
     timeRange := timeRange prev |}.

Definition handleSpeedChange (speed : R) (prev : TimelineState) : TimelineState :=
  {| currentTime := currentTime prev;
     isPlaying := isPlaying prev;
     playbackSpeed := speed;
     timeRange := timeRange prev |}.

End Timeline.

(** The time of a state lies on the timeline of the dataset. *)
Definition onTimeline (dataset : DroneSwarmDataset) (state0 : Timeline.TimelineState)
  : Prop :=
  0 <= Timeline.currentTime state0 <= IZR (maxIndexOf dataset).

Lemma autoPlayTick_onTimeline dataset state0 :
  0 <= Timeline.playbackSpeed state0 ->
  onTimeline dataset state0 ->
  onTimeline dataset (Timeline.autoPlayTick dataset state0).
Proof.
  intros Hs [H0 H1]. unfold onTimeline, Timeline.autoPlayTick.
  fold (maxIndexOf dataset).
  destruct (maxIndexOf dataset =? 0)%Z; [split; assumption |].
  destruct (Num.gtb _ _) eqn:G; cbn [Timeline.currentTime].
  - split; [lra |]. apply (IZR_le 0). apply maxIndexOf_nonneg.
  - unfold Num.gtb in G.
    destruct (Rlt_dec (IZR (maxIndexOf dataset))
                (Timeline.currentTime state0 + Timeline.playbackSpeed state0))
      as [L | L].
    + rewrite (Num_ltb_true _ _ L) in G. discriminate.
    + lra.
Qed.

Lemma autoPlayTick_frame dataset state0 :
  Timeline.isPlaying (Timeline.autoPlayTick dataset state0) = Timeline.isPlaying state0
  /\ Timeline.playbackSpeed (Timeline.autoPlayTick dataset state0)
     = Timeline.playbackSpeed state0
  /\ Timeline.timeRange (Timeline.autoPlayTick dataset state0)
     = Timeline.timeRange state0.
Proof.
  unfold Timeline.autoPlayTick.
  destruct (_ =? 0)%Z; [repeat split |].
  destruct (Num.gtb _ _); repeat split.
Qed.

Lemma autoPlayTicks_onTimeline dataset state0 (n : nat) :
  0 <= Timeline.playbackSpeed state0 ->
  onTimeline dataset state0 ->
  onTimeline dataset (Nat.iter n (Timeline.autoPlayTick dataset) state0)
  /\ Timeline.playbackSpeed (Nat.iter n (Timeline.autoPlayTick dataset) state0)
     = Timeline.playbackSpeed state0
  /\ Timeline.isPlaying (Nat.iter n (Timeline.autoPlayTick dataset) state0)
     = Timeline.isPlaying state0.
Proof.
  intros Hs Hon. induction n as [| n IH]; simpl.
  - repeat split; apply Hon.
  - destruct IH as (IH1 & IH2 & IH3).
    destruct (autoPlayTick_frame dataset
                (Nat.iter n (Timeline.autoPlayTick dataset) state0))
      as (F1 & F2 & _).
    split; [| split; congruence].
    apply autoPlayTick_onTimeline; [rewrite IH2 |]; assumption.
Qed.

(** What one tick does to the time: nothing on a timeline of one index (or
    none); otherwise it adds the speed, and goes back to 0 when that would
    pass the last index. *)
Lemma autoPlayTick_time dataset state0 :
  ((maxIndexOf dataset = 0)%Z -> Timeline.autoPlayTick dataset state0 = state0)
  /\ ((0 < maxIndexOf dataset)%Z ->
      Timeline.currentTime state0 + Timeline.playbackSpeed state0
      <= IZR (maxIndexOf dataset) ->
      Timeline.currentTime (Timeline.autoPlayTick dataset state0)
      = Timeline.currentTime state0 + Timeline.playbackSpeed state0)
  /\ ((0 < maxIndexOf dataset)%Z ->
      IZR (maxIndexOf dataset)
      < Timeline.currentTime state0 + Timeline.playbackSpeed state0 ->
      Timeline.currentTime (Timeline.autoPlayTick dataset state0) = 0).
Proof.
  unfold Timeline.autoPlayTick. fold (maxIndexOf dataset).
  split; [| split].
  - intros E. now rewrite E.
  - intros Hpos Hle. destruct (maxIndexOf dataset =? 0)%Z eqn:E;
      [apply Z.eqb_eq in E; lia |].
    unfold Num.gtb. rewrite Num_ltb_false by exact Hle. reflexivity.
  - intros Hpos Hlt. destruct (maxIndexOf dataset =? 0)%Z eqn:E;
      [apply Z.eqb_eq in E; lia |].
    unfold Num.gtb. rewrite Num_ltb_true by exact Hlt. reflexivity.
Qed.

Lemma autoPlay_run dataset state0 (n : nat) :
  0 <= Timeline.playbackSpeed state0 ->
  0 <= Timeline.currentTime state0 <= IZR (maxIndexOf dataset) ->
  let after := Nat.iter n (Timeline.autoPlayTick dataset) state0 in
  let next := Timeline.autoPlayTick dataset after in
  0 <= Timeline.currentTime after <= IZR (maxIndexOf dataset)
  /\ Timeline.playbackSpeed after = Timeline.playbackSpeed state0
  /\ Timeline.isPlaying after = Timeline.isPlaying state0
  /\ ((maxIndexOf dataset = 0)%Z -> next = after)
  /\ ((0 < maxIndexOf dataset)%Z ->
      Timeline.currentTime after + Timeline.playbackSpeed state0
      <= IZR (maxIndexOf dataset) ->
      Timeline.currentTime next
      = Timeline.currentTime after + Timeline.playbackSpeed state0)
  /\ ((0 < maxIndexOf dataset)%Z ->
      IZR (maxIndexOf dataset)
      < Timeline.currentTime after + Timeline.playbackSpeed state0 ->
      Timeline.currentTime next = 0).
Proof.
  intros Hs Hon after next.
  destruct (autoPlayTicks_onTimeline dataset state0 n Hs Hon) as (H1 & H2 & H3).
  fold after in H1, H2, H3.
  destruct (autoPlayTick_time dataset after) as (T0 & T1 & T2).
  fold next in T0, T1, T2. rewrite H2 in T1, T2.
  split; [exact H1 |]. split; [exact H2 |]. split; [exact H3 |].
  split; [exact T0 |]. split; [exact T1 | exact T2].
Qed.

(** X5.  Playback keeps the time on the timeline: from a state whose time
    lies in [[0, maxIndex]] and whose speed is not negative, any number of
    auto-play ticks leaves the time in [[0, maxIndex]] and changes neither the
    speed nor the play/pause flag; and the tick that follows adds the speed
    to the time when the sum does not pass the last index, wraps the time to
    0 when it does, and changes nothing on a timeline with a single index. *)
Theorem autoPlay_stays_on_timeline (dataset : DroneSwarmDataset)
  (state0 : Timeline.TimelineState) (n : nat) :
  0 <= Timeline.playbackSpeed state0 ->
  0 <= Timeline.currentTime state0 <= IZR (maxIndexOf dataset) ->
  let after := Nat.iter n (Timeline.autoPlayTick dataset) state0 in
  let next := Timeline.autoPlayTick dataset after in
  0 <= Timeline.currentTime after <= IZR (maxIndexOf dataset)
  /\ Timeline.playbackSpeed after = Timeline.playbackSpeed state0
  /\ Timeline.isPlaying after = Timeline.isPlaying state0
  /\ ((maxIndexOf dataset = 0)%Z -> next = after)
  /\ ((0 < maxIndexOf dataset)%Z ->
      Timeline.currentTime after + Timeline.playbackSpeed state0
      <= IZR (maxIndexOf dataset) ->
      Timeline.currentTime next
      = Timeline.currentTime after + Timeline.playbackSpeed state0)
  /\ ((0 < maxIndexOf dataset)%Z ->
      IZR (maxIndexOf dataset)
      < Timeline.currentTime after + Timeline.playbackSpeed state0 ->
      Timeline.currentTime next = 0).
Proof. intros Hs Hon. exact (autoPlay_run dataset state0 n Hs Hon). Qed.

(** Two ticks at speed 1 on the two-index sample: the first moves the time
    from 0 to 1, the second (2 would pass the last index) wraps it to 0. *)
Lemma autoPlay_stays_on_timeline_witness :
  Timeline.currentTime
    (Nat.iter 1 (Timeline.autoPlayTick Sample.dataset)
       (Timeline.initial Sample.dataset)) = 1
  /\ Timeline.currentTime
       (Nat.iter 2 (Timeline.autoPlayTick Sample.dataset)
          (Timeline.initial Sample.dataset)) = 0.
Proof.
  assert (Hs : 0 <= Timeline.playbackSpeed (Timeline.initial Sample.dataset))
    by (simpl; lra).
  assert (Hon : 0 <= Timeline.currentTime (Timeline.initial Sample.dataset)
                <= IZR (maxIndexOf Sample.dataset))
    by (rewrite Sample_maxIndex; simpl; lra).
  assert (Hpos : (0 < maxIndexOf Sample.dataset)%Z)
    by (rewrite Sample_maxIndex; lia).
  destruct (autoPlay_stays_on_timeline Sample.dataset
              (Timeline.initial Sample.dataset) 0 Hs Hon)
    as (_ & _ & _ & _ & Hadd & _).
  cbv zeta in Hadd. unfold Nat.iter, nat_rect in Hadd.
  assert (H1 : Timeline.currentTime
                 (Timeline.autoPlayTick Sample.dataset
                    (Timeline.initial Sample.dataset)) = 1).
  { rewrite Hadd; [simpl; lra | exact Hpos |].
    rewrite Sample_maxIndex. simpl. lra. }
  destruct (autoPlay_stays_on_timeline Sample.dataset
              (Timeline.initial Sample.dataset) 1 Hs Hon)
    as (_ & _ & _ & _ & _ & Hwrap).
  cbv zeta in Hwrap. unfold Nat.iter, nat_rect in Hwrap.
  unfold Nat.iter, nat_rect. split; [exact H1 |].
  apply Hwrap; [exact Hpos |].
  rewrite H1, Sample_maxIndex. simpl. lra.
Defined.

Example autoPlayTick_wraps :
  let playing := Timeline.handlePlayPause (Timeline.initial Sample.dataset) in
  Timeline.currentTime (Timeline.autoPlayTick Sample.dataset playing) = 1
  /\ Timeline.currentTime
       (Timeline.autoPlayTick Sample.dataset
          (Timeline.autoPlayTick Sample.dataset playing)) = 0.
Proof.
  unfold Timeline.autoPlayTick; simpl. change (Z.max 0 1) with 1%Z.
  num_eval. simpl. num_eval. simpl. split; lra.
Qed.

(** With a negative speed the tick has no lower bound: the stored time
    leaves the timeline (and is clamped only where it is read). *)
Example autoPlayTick_negative_speed :
  let rewinding :=
    Timeline.handleSpeedChange (-1) (Timeline.initial Sample.dataset) in
  Timeline.currentTime (Timeline.autoPlayTick Sample.dataset rewinding) = -1.
Proof.
  unfold Timeline.autoPlayTick; simpl. change (Z.max 0 1) with 1%Z.
  num_eval. simpl. lra.
Qed.

Lemma handleTimeChange_time dataset time prev :
  Timeline.currentTime (Timeline.handleTimeChange dataset time prev)
  = clampedTimeOf dataset time.
Proof. reflexivity. Qed.

Lemma clampedTimeOf_idempotent dataset time :
  clampedTimeOf dataset (clampedTimeOf dataset time) = clampedTimeOf dataset time.
Proof. apply clampedTimeOf_inside. apply clampedTimeOf_range. Qed.

(** X6.  Scrubbing stores a time on the timeline: whatever time is asked
    for, [handleTimeChange] stores a time in [[0, maxIndex]], the asked time
    itself when it already lies there, and leaves speed and play/pause flag
    alone; the drones shown for the stored time are those the hook computes
    for the asked time. *)
Theorem handleTimeChange_clamps (dataset : DroneSwarmDataset)
  (filters : VisualizationFilters) (time : R) (prev : Timeline.TimelineState) :
  let next := Timeline.handleTimeChange dataset time prev in
  0 <= Timeline.currentTime next <= IZR (maxIndexOf dataset)
  /\ (0 <= time <= IZR (maxIndexOf dataset) -> Timeline.currentTime next = time)
  /\ Timeline.isPlaying next = Timeline.isPlaying prev
  /\ Timeline.playbackSpeed next = Timeline.playbackSpeed prev
  /\ interpolatedDrones dataset filters (Timeline.currentTime next)
     = interpolatedDrones dataset filters time.
Proof.
  cbv zeta. rewrite handleTimeChange_time.
  split; [apply clampedTimeOf_range |].
  split; [apply clampedTimeOf_inside |].
  split; [reflexivity |]. split; [reflexivity |].
  apply interpolatedDrones_clamped. apply clampedTimeOf_idempotent.
Qed.

(** ** Filter bookkeeping: [mergeUnique], [arraysAreEqual] and the effect
    that merges new categories into the filters (DroneSwarmDashboard.tsx) *)

(** [mergeUnique]: the [forEach] over [[...base, ...additions]] threads the
    [Set] of seen items and the result array. *)
Definition mergeUnique (base additions : list string) : list string :=
  snd
    (fold_left
       (fun (acc : list string * list string) item =>
          let (seen, result) := acc in
          if includes seen item then (seen, result)
          else (item :: seen, result ++ [item]))
       (base ++ additions) ([], [])).

(** [a.every((value, index) => test(value, index))] from [index] on. *)
Fixpoint everyFrom (test : string -> nat -> bool) (index : nat) (a : list string)
  : bool :=
  match a with
  | [] => true
  | value :: rest => test value index && everyFrom test (S index) rest
  end.

Definition arraysAreEqual (a b : list string) : bool :=
  (List.length a =? List.length b)%nat
  && everyFrom
       (fun value index =>
          match nth_error b index with
          | Some other => String.eqb value other
          | None => false
          end)
       0 a.

(** The updater of the effect that follows [combinedSwarms],
    [combinedTasks] and [combinedStates]. *)
Definition mergeIntoFilters (combinedSwarms combinedTasks combinedStates : list string)
  (prev : VisualizationFilters) : VisualizationFilters :=
  let mergedSwarms := mergeUnique (selectedSwarms prev) combinedSwarms in
  let mergedTasks := mergeUnique (selectedTasks prev) combinedTasks in
  let mergedStates :=
    if (0 <? List.length combinedStates)%nat
    then mergeUnique (selectedStates prev) combinedStates
    else selectedStates prev in
  if arraysAreEqual (selectedSwarms prev) mergedSwarms
     && arraysAreEqual (selectedTasks prev) mergedTasks
     && arraysAreEqual (selectedStates prev) mergedStates
  then prev
  else
    {| selectedSwarms := mergedSwarms;
       selectedTasks := mergedTasks;
       selectedStates := mergedStates;
       batteryRange := batteryRange prev;
       showTrajectories := showTrajectories prev;
       showDetectionRanges := showDetectionRanges prev;
       showVelocityVectors := showVelocityVectors prev;
       showSignalIntensity := showSignalIntensity prev;
       showVideoFeedback := showVideoFeedback prev |}.

(** [combinedSwarms], [combinedTasks], [combinedStates]. *)
Definition combinedSwarmsOf (availableSwarms : list string)
  (customDrones : list DroneData) : list string :=
  mergeUnique availableSwarms (map swarmId customDrones).

Definition combinedTasksOf (availableTasks customTasks : list string)
  (customDrones : list DroneData) : list string :=
  mergeUnique (mergeUnique availableTasks customTasks) (map taskId customDrones).

Definition combinedStatesOf (availableStates : list string)
  (customDrones : list DroneData) : list string :=
  mergeUnique availableStates (map state customDrones).

(** *** [mergeUnique] *)

Lemma includes_false l s : includes l s = false <-> ~ In s l.
Proof.
  rewrite <- includes_In. destruct (includes l s); split; intros H;
    try discriminate; try reflexivity; try (intros E; discriminate).
  exfalso. now apply H.
Qed.

(** The loop of [mergeUnique] from any state in which [seen] holds the
    items of [result]. *)
Lemma mergeUnique_loop (items seen result : list string) :
  (forall s, In s seen <-> In s result) ->
  NoDup result ->
  let out :=
    snd (fold_left
           (fun (acc : list string * list string) item =>
              let (seen0, result0) := acc in
              if includes seen0 item then (seen0, result0)
              else (item :: seen0, result0 ++ [item]))
           items (seen, result)) in
  NoDup out
  /\ (forall s, In s out <-> In s result \/ In s items)
  /\ exists added, out = result ++ added.
Proof.
  revert seen result. induction items as [| item items IH]; intros seen result Hs Hnd.
  - cbn. split; [assumption |]. split; [tauto |]. exists []. now rewrite app_nil_r.
  - cbn [fold_left]. destruct (includes seen item) eqn:E.
    + destruct (IH seen result Hs Hnd) as (H1 & H2 & H3).
      split; [exact H1 |]. split; [| exact H3].
      intros s. rewrite H2. apply includes_In in E. apply Hs in E.
      simpl. split; [tauto |]. intros [H | [<- | H]]; tauto.
    + apply includes_false in E.
      destruct (IH (item :: seen) (result ++ [item])) as (H1 & H2 & [added H3]).
      * intros s. rewrite in_app_iff. simpl. rewrite Hs. tauto.
      * apply NoDup_app; [assumption | repeat constructor; intros [] |].
        intros s Hin [<- | []]. apply E. now apply Hs.
      * split; [exact H1 |]. split.
        -- intros s. rewrite H2, in_app_iff. simpl. tauto.
        -- exists (item :: added). rewrite H3, <- app_assoc. reflexivity.
Qed.

Lemma mergeUnique_NoDup base additions : NoDup (mergeUnique base additions).
Proof.
  unfold mergeUnique.
  destruct (mergeUnique_loop (base ++ additions) [] []) as [H _];
    [intros; tauto | constructor | exact H].
Qed.

Lemma mergeUnique_In base additions s :
  In s (mergeUnique base additions) <-> In s base \/ In s additions.
Proof.
  unfold mergeUnique.
  destruct (mergeUnique_loop (base ++ additions) [] []) as (_ & H & _);
    [intros; tauto | constructor |].
  rewrite H, in_app_iff. simpl. tauto.
Qed.

(** Items that are all seen already change nothing. *)
Lemma mergeUnique_loop_seen (items seen result : list string) :
  (forall s, In s items -> In s seen) ->
  fold_left
    (fun (acc : list string * list string) item =>
       let (seen0, result0) := acc in
       if includes seen0 item then (seen0, result0)
       else (item :: seen0, result0 ++ [item]))
    items (seen, result)
  = (seen, result).
Proof.
  induction items as [| item items IH]; intros H; cbn [fold_left]; [reflexivity |].
  rewrite (proj2 (includes_In seen item)) by (apply H; now left).
  apply IH. intros s Hs. apply H. now right.
Qed.

(** A duplicate-free array is the state the loop reaches on it. *)
Lemma mergeUnique_loop_NoDup (base seen result : list string) :
  NoDup (result ++ base) ->
  (forall s, In s seen <-> In s result) ->
  exists seen',
    fold_left
      (fun (acc : list string * list string) item =>
         let (seen0, result0) := acc in
         if includes seen0 item then (seen0, result0)
         else (item :: seen0, result0 ++ [item]))
      base (seen, result)
    = (seen', result ++ base)
    /\ (forall s, In s seen' <-> In s (result ++ base)).
Proof.
  revert seen result. induction base as [| b base IH]; intros seen result Hnd Hs.
  - exists seen. rewrite app_nil_r. split; [reflexivity | assumption].
  - cbn [fold_left].
    assert (Hb : ~ In b seen).
    { rewrite Hs. intros Hin. apply NoDup_remove_2 in Hnd. apply Hnd.
      apply in_or_app. now left. }
    rewrite (proj2 (includes_false seen b) Hb).
    destruct (IH (b :: seen) (result ++ [b])) as [seen' [E Hs']].
    + now rewrite <- app_assoc.
    + intros s. rewrite in_app_iff. simpl. rewrite Hs. tauto.
    + exists seen'. rewrite <- app_assoc in E, Hs'. split; assumption.
Qed.

(** A duplicate-free [base] stays in front, as it is. *)
Lemma mergeUnique_prefix base additions :
  NoDup base -> exists added, mergeUnique base additions = base ++ added.
Proof.
  intros Hnd. unfold mergeUnique. rewrite fold_left_app.
  destruct (mergeUnique_loop_NoDup base [] []) as [seen' [E Hs']];
    [assumption | intros; tauto |].
  rewrite E. cbn [app] in Hs' |- *.
  destruct (mergeUnique_loop additions seen' base Hs' Hnd) as (_ & _ & H).
  exact H.
Qed.

(** Merging what is there already changes nothing. *)
Lemma mergeUnique_absorbs base additions :
  NoDup base ->
  (forall s, In s additions -> In s base) ->
  mergeUnique base additions = base.
Proof.
  intros Hnd Hincl. unfold mergeUnique. rewrite fold_left_app.
  destruct (mergeUnique_loop_NoDup base [] []) as [seen' [E Hs']];
    [assumption | intros; tauto |].
  rewrite E. cbn [app] in Hs' |- *.
  rewrite mergeUnique_loop_seen; [reflexivity |].
  intros s Hs. apply Hs'. now apply Hincl.
Qed.

(** X7.  [mergeUnique base additions] holds exactly the items of [base] and
    [additions], each once; a duplicate-free [base] is kept in front, in its
    order, so merging only ever appends; and merging items that are all
    present already returns [base] unchanged. *)
Theorem mergeUnique_spec (base additions : list string) :
  NoDup (mergeUnique base additions)
  /\ (forall s, In s (mergeUnique base additions) <-> In s base \/ In s additions)
  /\ (NoDup base -> exists added, mergeUnique base additions = base ++ added)
  /\ (NoDup base ->
      (forall s, In s additions -> In s base) ->
      mergeUnique base additions = base).
Proof.
  split; [apply mergeUnique_NoDup |].
  split; [apply mergeUnique_In |].
  split; [apply mergeUnique_prefix | apply mergeUnique_absorbs].
Qed.

Example mergeUnique_example :
  mergeUnique ["alpha"; "beta"; "alpha"]%string ["gamma"; "beta"; "gamma"]%string
  = ["alpha"; "beta"; "gamma"]%string.
Proof. reflexivity. Qed.

Lemma mergeUnique_spec_witness :
  mergeUnique ["alpha"; "beta"]%string ["beta"]%string = ["alpha"; "beta"]%string.
Proof.
  apply (proj2 (proj2 (proj2 (mergeUnique_spec ["alpha"; "beta"]%string ["beta"]%string)))).
  - repeat constructor; simpl; intuition discriminate.
  - intros s [<- | []]. now right; left.
Defined.

(** *** [arraysAreEqual] *)

Lemma everyFrom_prefix (a pre b' : list string) :
  everyFrom
    (fun value index =>
       match nth_error (pre ++ b') index with
       | Some other => String.eqb value other
       | None => false
       end)
    (List.length pre) a = true
  <-> exists rest, b' = a ++ rest.
Proof.
  revert pre b'. induction a as [| v a IH]; intros pre b'; cbn [everyFrom].
  - split; [intros _; now exists b' | reflexivity].
  - rewrite nth_error_app2 by lia. rewrite Nat.sub_diag.
    destruct b' as [| w b'']; cbn [nth_error].
    + split; [discriminate | intros [rest H]; discriminate].
    + rewrite andb_true_iff, String.eqb_eq.
      replace (pre ++ w :: b'') with ((pre ++ [w]) ++ b'')
        by (now rewrite <- app_assoc).
      replace (S (List.length pre)) with (List.length (pre ++ [w]))
        by (rewrite length_app; simpl; lia).
      rewrite IH. split.
      * intros [-> [rest ->]]. now exists rest.
      * intros [rest H]. injection H as -> ->. split; [reflexivity | now exists rest].
Qed.

Lemma arraysAreEqual_iff (a b : list string) :
  arraysAreEqual a b = true <-> a = b.
Proof.
  unfold arraysAreEqual. rewrite andb_true_iff, Nat.eqb_eq.
  rewrite (everyFrom_prefix a [] b). split.
  - intros [Hlen [rest ->]]. rewrite length_app in Hlen.
    destruct rest; [now rewrite app_nil_r | simpl in Hlen; lia].
  - intros ->. split; [reflexivity | exists []; now rewrite app_nil_r].
Qed.

(** X9.  [arraysAreEqual] answers true exactly for two arrays with the same
    strings in the same order; arrays of different lengths, or that differ at
    one index, compare unequal. *)
Theorem arraysAreEqual_spec (a b : list string) :
  arraysAreEqual a b = true <-> a = b.
Proof. exact (arraysAreEqual_iff a b). Qed.

(** *** The effect *)

(** The state lists the effect arrives at. *)
Definition mergedStatesOf (combinedStates : list string) (prev : VisualizationFilters)
  : list string :=
  if (0 <? List.length combinedStates)%nat
  then mergeUnique (selectedStates prev) combinedStates
  else selectedStates prev.

(** Whether it returns [prev] or a new object, the effect's result has the
    merged lists. *)
Lemma mergeIntoFilters_value combinedSwarms combinedTasks combinedStates prev :
  mergeIntoFilters combinedSwarms combinedTasks combinedStates prev
  = {| selectedSwarms := mergeUnique (selectedSwarms prev) combinedSwarms;
       selectedTasks := mergeUnique (selectedTasks prev) combinedTasks;
       selectedStates := mergedStatesOf combinedStates prev;
       batteryRange := batteryRange prev;
       showTrajectories := showTrajectories prev;
       showDetectionRanges := showDetectionRanges prev;
       showVelocityVectors := showVelocityVectors prev;
       showSignalIntensity := showSignalIntensity prev;
       showVideoFeedback := showVideoFeedback prev |}.
Proof.
  unfold mergeIntoFilters. fold (mergedStatesOf combinedStates prev).
  destruct (arraysAreEqual (selectedSwarms prev) _ && _ && _) eqn:E; [| reflexivity].
  rewrite !andb_true_iff, !arraysAreEqual_iff in E. destruct E as [[E1 E2] E3].
  rewrite <- E1, <- E2, <- E3. now destruct prev.
Qed.

Lemma mergeIntoFilters_idempotent combinedSwarms combinedTasks combinedStates prev :
  mergeIntoFilters combinedSwarms combinedTasks combinedStates
    (mergeIntoFilters combinedSwarms combinedTasks combinedStates prev)
  = mergeIntoFilters combinedSwarms combinedTasks combinedStates prev.
Proof.
  rewrite (mergeIntoFilters_value _ _ _ prev).
  rewrite mergeIntoFilters_value.
  cbn [selectedSwarms selectedTasks batteryRange showTrajectories
         showDetectionRanges showVelocityVectors showSignalIntensity
         showVideoFeedback].
  f_equal.
  - apply mergeUnique_absorbs; [apply mergeUnique_NoDup |].
    intros s Hs. apply mergeUnique_In. now right.
  - apply mergeUnique_absorbs; [apply mergeUnique_NoDup |].
    intros s Hs. apply mergeUnique_In. now right.
  - unfold mergedStatesOf. cbn [selectedStates].
    destruct (0 <? List.length combinedStates)%nat; [| reflexivity].
    apply mergeUnique_absorbs; [apply mergeUnique_NoDup |].
    intros s Hs. apply mergeUnique_In. now right.
Qed.

(** X8.  The effect that merges the available categories into the filters
    only adds: afterwards the selected swarms are exactly the previously
    selected and the available swarms (likewise tasks, and states when any
    state is available), battery range and display toggles are untouched, and
    running the effect again changes nothing, so it settles after one
    update. *)
Theorem mergeIntoFilters_spec (combinedSwarms combinedTasks combinedStates : list string)
  (prev : VisualizationFilters) :
  let next := mergeIntoFilters combinedSwarms combinedTasks combinedStates prev in
  (forall s, In s (selectedSwarms next) <->
             In s (selectedSwarms prev) \/ In s combinedSwarms)
  /\ (forall s, In s (selectedTasks next) <->
                In s (selectedTasks prev) \/ In s combinedTasks)
  /\ (forall s, In s (selectedStates next) <->
                In s (selectedStates prev) \/ In s combinedStates)
  /\ batteryRange next = batteryRange prev
  /\ showTrajectories next = showTrajectories prev
  /\ showDetectionRanges next = showDetectionRanges prev
  /\ showVelocityVectors next = showVelocityVectors prev
  /\ showSignalIntensity next = showSignalIntensity prev
  /\ showVideoFeedback next = showVideoFeedback prev
  /\ mergeIntoFilters combinedSwarms combinedTasks combinedStates next = next.
Proof.
  cbv zeta. split; [| split; [| split]].
  - intros s. rewrite mergeIntoFilters_value. apply mergeUnique_In.
  - intros s. rewrite mergeIntoFilters_value. apply mergeUnique_In.
  - intros s. rewrite mergeIntoFilters_value. cbn [selectedStates].
    unfold mergedStatesOf. destruct combinedStates as [| c cs]; cbn [List.length Nat.ltb Nat.leb].
    + simpl. tauto.
    + apply mergeUnique_In.
  - rewrite mergeIntoFilters_idempotent, mergeIntoFilters_value.
    repeat split.
Qed.

(** X10.  Once the effect has run on the combined categories, no custom
    drone is hidden by a category filter: each custom drone whose battery lies
    in the selected range passes the filters, whatever swarm, task or state
    it was added with. *)
Theorem custom_drone_visible_after_merge
  (availableSwarms availableTasks availableStates customTasks : list string)
  (customDrones : list DroneData) (prev : VisualizationFilters) (drone : DroneData) :
  In drone customDrones ->
  fst (batteryRange prev) <= batteryPercentage drone <= snd (batteryRange prev) ->
  matchesFilters
    (mergeIntoFilters
       (combinedSwarmsOf availableSwarms customDrones)
       (combinedTasksOf availableTasks customTasks customDrones)
       (combinedStatesOf availableStates customDrones)
       prev)
    drone = true.
Proof.
  intros Hin Hb. apply matchesFilters_iff.
  rewrite mergeIntoFilters_value.
  cbn [selectedSwarms selectedTasks selectedStates batteryRange].
  split; [| split; [| split; [| exact Hb]]].
  - apply mergeUnique_In. right. apply mergeUnique_In. right. now apply in_map.
  - apply mergeUnique_In. right. apply mergeUnique_In. right. now apply in_map.
  - right. unfold mergedStatesOf.
    assert (Hc : In (state drone) (combinedStatesOf availableStates customDrones)).
    { apply mergeUnique_In. right. now apply in_map. }
    destruct (combinedStatesOf availableStates customDrones) as [| c cs];
      [destruct Hc |].
    cbn [List.length Nat.ltb Nat.leb]. apply mergeUnique_In. now right.
Qed.

(** A drone of swarm "beta" added while only swarm "alpha" is selected. *)
Lemma custom_drone_visible_after_merge_witness :
  matchesFilters
    (mergeIntoFilters
       (combinedSwarmsOf ["none"; "alpha"]%string [Sample.drone4_t4])
       (combinedTasksOf ["taking-off"; "entering-swarm"]%string [] [Sample.drone4_t4])
       (combinedStatesOf ["taking-off"; "entering-swarm"]%string [Sample.drone4_t4])
       Sample.onlyAlpha)
    Sample.drone4_t4 = true.
Proof.
  apply (custom_drone_visible_after_merge
           ["none"; "alpha"]%string ["taking-off"; "entering-swarm"]%string
           ["taking-off"; "entering-swarm"]%string [] [Sample.drone4_t4]
           Sample.onlyAlpha Sample.drone4_t4).
  - now left.
  - simpl. lra.
Defined.

(** ** TrajectoryBuilder: the whole of [trajectoryPaths] *)

Lemma Set_from_In (seen ids : list string) (s : string) :
  In s (Set_from seen ids) <-> In s ids /\ ~ In s seen.
Proof.
  revert seen. induction ids as [| i ids IH]; intros seen; cbn [Set_from].
  - simpl. tauto.
  - destruct (includes seen i) eqn:E.
    + apply includes_In in E. rewrite IH. simpl. split.
      * tauto.
      * intros [[<- | H] Hn]; [contradiction | tauto].
    + apply includes_false in E. simpl. rewrite IH. simpl. split.
      * intros [<- | [H Hn]]; [tauto |]. split; [tauto |]. tauto.
      * intros [[<- | H] Hn]; [now left |].
        destruct (string_dec i s) as [-> | Hne]; [now left |].
        right. split; [assumption |]. intros [H' | H']; contradiction.
Qed.

Lemma Set_from_NoDup (seen ids : list string) : NoDup (Set_from seen ids).
Proof.
  revert seen. induction ids as [| i ids IH]; intros seen; cbn [Set_from].
  - constructor.
  - destruct (includes seen i); [apply IH |].
    constructor; [| apply IH].
    rewrite Set_from_In. intros [_ Hn]. apply Hn. now left.
Qed.

Lemma trajectoryFor_Some_inv dataset filters droneId0 path :
  trajectoryFor dataset filters droneId0 = Some path ->
  path_droneId path = droneId0
  /\ (2 <= List.length (points path))%nat
  /\ points path
     = map (fun entry => (x (position entry), y (position entry), z (position entry)))
         (filter (matchesFilters filters) (getDroneTrajectory dataset droneId0)).
Proof.
  unfold trajectoryFor.
  destruct (List.length _ <=? 1)%nat eqn:E; [discriminate |].
  destruct (nth_error _ _); [| discriminate].
  intros H. injection H as <-. cbn [path_droneId points].
  apply Nat.leb_gt in E. rewrite length_map. repeat split. lia.
Qed.

Lemma NoDup_flat_map_option {A B : Type} (g : A -> option B) (key : B -> A)
  (l : list A) :
  (forall a b, g a = Some b -> key b = a) ->
  NoDup l ->
  NoDup (map key (flat_map (fun a => match g a with Some b => [b] | None => [] end) l)).
Proof.
  intros Hkey. induction 1 as [| a l Hnin Hnd IH]; cbn [flat_map map]; [constructor |].
  rewrite map_app. destruct (g a) as [b |] eqn:G; cbn [map app]; [| exact IH].
  constructor; [| exact IH].
  intros Hin. apply in_map_iff in Hin. destruct Hin as [b' [Hk Hb']].
  apply in_flat_map in Hb'. destruct Hb' as [a' [Ha' Hb']].
  destruct (g a') as [b'' |] eqn:G'; [| destruct Hb'].
  destruct Hb' as [<- | []]. rewrite (Hkey _ _ G') in Hk. rewrite (Hkey _ _ G) in Hk.
  subst a'. contradiction.
Qed.

Lemma trajectoryPaths_hidden dataset filters currentDrones0 :
  showTrajectories filters = false ->
  trajectoryPaths dataset filters currentDrones0 = [].
Proof. intros H. unfold trajectoryPaths. now rewrite H. Qed.

Lemma trajectoryPaths_In dataset filters currentDrones0 path :
  In path (trajectoryPaths dataset filters currentDrones0) <->
  showTrajectories filters = true
  /\ (exists drone, In drone currentDrones0 /\ droneId drone = path_droneId path)
  /\ trajectoryFor dataset filters (path_droneId path) = Some path.
Proof.
  destruct (showTrajectories filters) eqn:Hshow.
  - rewrite trajectoryPaths_flat_map by assumption. rewrite in_flat_map. split.
    + intros [id [Hid Hp]]. apply Set_from_In in Hid. destruct Hid as [Hid _].
      apply in_map_iff in Hid. destruct Hid as [drone [Hd Hin]].
      destruct (trajectoryFor dataset filters id) as [p |] eqn:T; [| destruct Hp].
      destruct Hp as [<- | []].
      destruct (trajectoryFor_Some_inv _ _ _ _ T) as [Hk _].
      split; [reflexivity |]. split.
      * exists drone. split; [assumption | congruence].
      * now rewrite Hk.
    + intros (_ & [drone [Hin Hd]] & T). exists (path_droneId path). split.
      * apply Set_from_In. split; [| intros []]. rewrite <- Hd. now apply in_map.
      * rewrite T. now left.
  - rewrite trajectoryPaths_hidden by assumption. split; [intros [] |].
    intros [H _]. discriminate.
Qed.

(** X11.  Trajectory paths: with trajectories hidden there is none; shown,
    there is one path for each distinct id among the current drones whose
    filtered history has at least two samples, and no other; every path has
    at least two points, and no two paths carry the same id. *)
Theorem trajectoryPaths_spec (dataset : DroneSwarmDataset)
  (filters : VisualizationFilters) (currentDrones0 : list DroneData) :
  let paths := trajectoryPaths dataset filters currentDrones0 in
  (showTrajectories filters = false -> paths = [])
  /\ NoDup (map path_droneId paths)
  /\ (forall path,
         In path paths <->
         showTrajectories filters = true
         /\ (exists drone, In drone currentDrones0 /\ droneId drone = path_droneId path)
         /\ trajectoryFor dataset filters (path_droneId path) = Some path)
  /\ (forall path, In path paths -> (2 <= List.length (points path))%nat).
Proof.
  cbv zeta. split; [apply trajectoryPaths_hidden |]. split; [| split].
  - destruct (showTrajectories filters) eqn:Hshow.
    + rewrite trajectoryPaths_flat_map by assumption.
      apply NoDup_flat_map_option; [| apply Set_from_NoDup].
      intros id p T. now destruct (trajectoryFor_Some_inv _ _ _ _ T).
    + rewrite trajectoryPaths_hidden by assumption. constructor.
  - apply trajectoryPaths_In.
  - intros path Hin. apply trajectoryPaths_In in Hin. destruct Hin as (_ & _ & T).
    now destruct (trajectoryFor_Some_inv _ _ _ _ T) as (_ & H & _).
Qed.

Lemma Sample_trajectoryPaths :
  exists path,
    trajectoryPaths Sample.dataset Sample.allFilters
      (interpolatedDrones Sample.dataset Sample.allFilters 0.5) = [path]
    /\ path_droneId path = "drone-1"%string.
Proof.
  destruct (trajectoryFor_Some Sample.dataset Sample.allFilters "drone-1")
    as [e [_ H1]]; [rewrite Sample_history_drone1; simpl; lia |].
  pose proof (trajectoryFor_None Sample.dataset Sample.allFilters "drone-2") as H2.
  rewrite Sample_history_drone2 in H2. specialize (H2 (le_n 1)).
  eexists. split.
  - rewrite trajectoryPaths_flat_map by reflexivity.
    rewrite Sample_all_half.
    change (map droneId
              [interpolateDrone Sample.drone1_t0 Sample.drone1_t1 0.5;
               Sample.drone2_t0])
      with ["drone-1"%string; "drone-2"%string].
    change (Set_from [] ["drone-1"%string; "drone-2"%string])
      with ["drone-1"%string; "drone-2"%string].
    cbn [flat_map]. rewrite H1, H2. reflexivity.
  - reflexivity.
Qed.

(** On the sample at time 0.5 both drones are current; only drone-1 has two
    samples, so there is one path, of two points or more. *)
Lemma trajectoryPaths_spec_witness :
  exists path,
    In path
      (trajectoryPaths Sample.dataset Sample.allFilters
         (interpolatedDrones Sample.dataset Sample.allFilters 0.5))
    /\ (2 <= List.length (points path))%nat.
Proof.
  destruct Sample_trajectoryPaths as [path [E _]].
  exists path.
  assert (Hin : In path
                  (trajectoryPaths Sample.dataset Sample.allFilters
                     (interpolatedDrones Sample.dataset Sample.allFilters 0.5))).
  { rewrite E. now left. }
  split; [exact Hin |].
  destruct (trajectoryPaths_spec Sample.dataset Sample.allFilters
              (interpolatedDrones Sample.dataset Sample.allFilters 0.5))
    as (_ & _ & _ & Hlen).
  now apply Hlen.
Defined.

(** ** GeometricAnalytics: the statistics do not depend on the order *)

Lemma rangesOverlap_sym (a b : DroneData) : rangesOverlap a b = rangesOverlap b a.
Proof.
  unfold rangesOverlap, planarDistance. cbv zeta.
  replace ((x (position b) - x (position a)) * (x (position b) - x (position a))
           + (z (position b) - z (position a)) * (z (position b) - z (position a)))
    with ((x (position a) - x (position b)) * (x (position a) - x (position b))
          + (z (position a) - z (position b)) * (z (position a) - z (position b)))
    by ring.
  now rewrite (Rplus_comm (detectionRange b)).
Qed.

(** The count of overlapping pairs, by recursion on the array: the pairs
    of the first drone, then the pairs among the others. *)
Fixpoint overlapCount (drones0 : list DroneData) : nat :=
  match drones0 with
  | [] => 0
  | a :: rest => List.length (filter (rangesOverlap a) rest) + overlapCount rest
  end.

Lemma flat_map_map_inner {A B C : Type} (g : B -> list C) (h : A -> B) (l : list A) :
  flat_map g (map h l) = flat_map (fun a => g (h a)) l.
Proof. induction l as [| a l IH]; simpl; [reflexivity | now rewrite IH]. Qed.

Lemma map_flat_map_outer {A B C : Type} (h : B -> C) (g : A -> list B) (l : list A) :
  map h (flat_map g l) = flat_map (fun a => map h (g a)) l.
Proof.
  induction l as [| a l IH]; simpl; [reflexivity | now rewrite map_app, IH].
Qed.

(** The pairs of [n + 1] indices: those of index 0, then those of the other
    [n] indices, shifted. *)
Lemma indexPairs_S (n : nat) :
  indexPairs (S n)
  = map (pair 0%nat) (seq 1 n)
    ++ map (fun ij => (S (fst ij), S (snd ij))) (indexPairs n).
Proof.
  unfold indexPairs. cbn [seq flat_map Nat.add Nat.sub]. rewrite Nat.sub_0_r. f_equal.
  rewrite <- seq_shift, flat_map_map_inner, map_flat_map_outer.
  apply flat_map_ext. intros i. rewrite map_map. cbn [fst snd].
  replace (S i + 1)%nat with (S (i + 1)) by lia.
  rewrite <- seq_shift, map_map.
  replace (S n - S (i + 1))%nat with (n - (i + 1))%nat by lia.
  reflexivity.
Qed.

Lemma filter_map_swap {A B : Type} (p : B -> bool) (h : A -> B) (l : list A) :
  filter p (map h l) = map h (filter (fun a => p (h a)) l).
Proof.
  induction l as [| a l IH]; simpl; [reflexivity |].
  destruct (p (h a)); simpl; now rewrite IH.
Qed.

(** Counting a property of the elements through their indices. *)
Lemma count_by_index {A : Type} (f : A -> bool) (l : list A) :
  List.length
    (filter (fun j => match nth_error l j with Some b => f b | None => false end)
       (seq 0 (List.length l)))
  = List.length (filter f l).
Proof.
  induction l as [| a l IH]; [reflexivity |].
  cbn [List.length seq filter nth_error].
  assert (E : List.length
                (filter
                   (fun j => match nth_error (a :: l) j with
                             | Some b => f b
                             | None => false
                             end)
                   (seq 1 (List.length l)))
              = List.length (filter f l)).
  { rewrite <- seq_shift, filter_map_swap, length_map. cbn [nth_error]. exact IH. }
  destruct (f a); cbn [List.length]; now rewrite E.
Qed.

Lemma countOverlapPairs_cons (a : DroneData) (rest : list DroneData) :
  countOverlapPairs (a :: rest)
  = (List.length (filter (rangesOverlap a) rest) + countOverlapPairs rest)%nat.
Proof.
  rewrite !countOverlapPairs_filter. cbn [List.length].
  rewrite indexPairs_S, filter_app, length_app. f_equal.
  - rewrite <- seq_shift, !filter_map_swap, !length_map.
    unfold pairOverlaps. cbn [fst snd nth_error].
    apply (count_by_index (rangesOverlap a) rest).
  - rewrite filter_map_swap, length_map. f_equal.
Qed.

Lemma countOverlapPairs_overlapCount (drones0 : list DroneData) :
  countOverlapPairs drones0 = overlapCount drones0.
Proof.
  induction drones0 as [| a rest IH]; [reflexivity |].
  rewrite countOverlapPairs_cons, IH. reflexivity.
Qed.

Lemma overlapCount_perm (l l' : list DroneData) :
  Permutation l l' -> overlapCount l = overlapCount l'.
Proof.
  induction 1 as [| a l l' Hp IH | a b l | l l' l'' _ IH1 _ IH2]; cbn [overlapCount].
  - reflexivity.
  - rewrite IH. f_equal. apply Permutation_length. now apply filter_perm.
  - cbn [filter]. rewrite (rangesOverlap_sym b a).
    destruct (rangesOverlap a b); cbn [List.length]; lia.
  - congruence.
Qed.

Lemma sumOf_perm (f : DroneData -> R) (l l' : list DroneData) :
  Permutation l l' -> sumOf f l = sumOf f l'.
Proof.
  induction 1 as [| a l l' _ IH | a b l | l l' l'' _ IH1 _ IH2]; simpl;
    [reflexivity | now rewrite IH | lra | congruence].
Qed.

Lemma isMinOf_unique (f : DroneData -> R) (l l' : list DroneData) (m m' : R) :
  (forall d, In d l <-> In d l') -> isMinOf f l m -> isMinOf f l' m' -> m = m'.
Proof.
  intros Hin [Hlow [d [Hd Hm]]] [Hlow' [d' [Hd' Hm']]].
  pose proof (Hlow d' (proj2 (Hin d') Hd')). pose proof (Hlow' d (proj1 (Hin d) Hd)).
  lra.
Qed.

Lemma isMaxOf_unique (f : DroneData -> R) (l l' : list DroneData) (m m' : R) :
  (forall d, In d l <-> In d l') -> isMaxOf f l m -> isMaxOf f l' m' -> m = m'.
Proof.
  intros Hin [Hup [d [Hd Hm]]] [Hup' [d' [Hd' Hm']]].
  pose proof (Hup d' (proj2 (Hin d') Hd')). pose proof (Hup' d (proj1 (Hin d) Hd)).
  lra.
Qed.

Lemma detectionCoverage_perm (l l' : list DroneData) :
  Permutation l l' -> detectionCoverage l = detectionCoverage l'.
Proof.
  intros Hp.
  assert (Hin : forall d, In d l <-> In d l').
  { intros d. split; apply Permutation_in; [assumption | now symmetry]. }
  destruct l as [| a l0].
  { apply Permutation_nil in Hp. now subst. }
  destruct l' as [| a' l0'].
  { symmetry in Hp. apply Permutation_nil in Hp. discriminate. }
  assert (Hne : a :: l0 <> []) by discriminate.
  assert (Hne' : a' :: l0' <> []) by discriminate.
  destruct (detectionCoverage_percent_nonempty _ Hne)
    as (m1 & m2 & m3 & m4 & A1 & A2 & A3 & A4 & Ec).
  destruct (detectionCoverage_percent_nonempty _ Hne')
    as (n1 & n2 & n3 & n4 & B1 & B2 & B3 & B4 & Ec').
  rewrite (isMinOf_unique _ _ _ _ _ Hin A1 B1), (isMaxOf_unique _ _ _ _ _ Hin A2 B2),
    (isMinOf_unique _ _ _ _ _ Hin A3 B3), (isMaxOf_unique _ _ _ _ _ Hin A4 B4),
    (sumOf_perm discArea _ _ Hp) in Ec.
  rewrite <- Ec' in Ec.
  pose proof (Permutation_length Hp) as Hlen.
  unfold detectionCoverage in *. cbn [List.length Nat.eqb] in *.
  cbn [coveragePercent] in Ec. rewrite Ec. f_equal.
  - rewrite !countOverlapPairs_overlapCount. now apply overlapCount_perm.
  - injection Hlen as Hlen. now rewrite Hlen.
Qed.

Lemma overlapPairs_le_totalPairs (drones0 : list DroneData) :
  0 <= INR (overlapPairs (detectionCoverage drones0))
  <= totalPairs (detectionCoverage drones0).
Proof.
  split; [apply pos_INR |].
  rewrite detectionCoverage_overlapPairs, detectionCoverage_totalPairs.
  apply le_INR. apply filter_length_le.
Qed.

(** X12.  The coverage statistics do not depend on the order in which the
    drones are listed: reordering the array changes none of
    [coveragePercent], [overlapPairs] and [totalPairs]; and the number of
    overlapping pairs never exceeds the number of pairs. *)
Theorem detectionCoverage_order_independent (drones0 drones1 : list DroneData) :
  Permutation drones0 drones1 ->
  detectionCoverage drones0 = detectionCoverage drones1
  /\ 0 <= INR (overlapPairs (detectionCoverage drones0))
     <= totalPairs (detectionCoverage drones0).
Proof.
  intros Hp. split; [now apply detectionCoverage_perm |].
  apply overlapPairs_le_totalPairs.
Qed.

Lemma detectionCoverage_order_independent_witness :
  detectionCoverage [Sample.drone2_t0; Sample.drone1_t0]
  = detectionCoverage [Sample.drone1_t0; Sample.drone2_t0].
Proof.
  apply (detectionCoverage_order_independent
           [Sample.drone2_t0; Sample.drone1_t0] [Sample.drone1_t0; Sample.drone2_t0]).
  apply perm_swap.
Defined.

(** ** GeometricAnalytics: where the closest points lie *)

Lemma THREE_dot_self_nonneg (u : THREE.Vector3) : 0 <= THREE.dot u u.
Proof. unfold THREE.dot. nra. Qed.

(** [Math.abs(n) < EPS ? 0 : n / m] is a parameter of the segment whenever
    [0 <= n <= m]. *)
Lemma segment_parameter (n m : R) :
  0 <= n <= m ->
  0 <= (if Num.ltb (Rabs n) 1e-6 then 0 else n / m) <= 1.
Proof.
  intros [H0 H1]. destruct (Num.ltb (Rabs n) 1e-6) eqn:E; [lra |].
  rewrite Rabs_right in E by lra.
  assert (Hn : 1e-6 <= n).
  { destruct (Rlt_dec n 1e-6) as [L | L]; [| lra].
    rewrite (Num_ltb_true _ _ L) in E. discriminate. }
  assert (Hm : 0 < m) by lra.
  split.
  - apply Rmult_le_pos; [lra |]. left. now apply Rinv_0_lt_compat.
  - apply (Rmult_le_reg_r m); [assumption |]. unfold Rdiv.
    rewrite Rmult_assoc, Rinv_l by lra. lra.
Qed.

(** Split a goal on every comparison it tests. *)
Ltac num_cases :=
  repeat match goal with
    | |- context [Num.gtb ?a ?b] => unfold Num.gtb
    | |- context [Num.leb ?a ?b] =>
        destruct (Rle_dec a b);
        [ rewrite (Num_leb_true a b) by assumption
        | rewrite (Num_leb_false a b) by lra ];
        cbn [andb orb]
    | |- context [if Num.ltb ?a ?b then _ else _] =>
        lazymatch a with
        | Rabs _ => fail
        | _ =>
            destruct (Rlt_dec a b);
            [ rewrite (Num_ltb_true a b) by assumption
            | rewrite (Num_ltb_false a b) by lra ]
        end
    end.

Lemma closestPoints_parameters (p1 p2 q1 q2 : THREE.Vector3) :
  let u := THREE.sub p2 p1 in
  let v := THREE.sub q2 q1 in
  1e-6 < THREE.dot v v \/ THREE.dot u u <= 1e-6 ->
  exists sc tc,
    0 <= sc <= 1 /\ 0 <= tc <= 1
    /\ pointA (closestPointsBetweenSegments p1 p2 q1 q2)
       = THREE.addScaledVector p1 u sc
    /\ pointB (closestPointsBetweenSegments p1 p2 q1 q2)
       = THREE.addScaledVector q1 v tc.
Proof.
  intros u v Hyp. unfold closestPointsBetweenSegments. cbv zeta.
  fold u. fold v.
  pose proof (THREE_dot_self_nonneg u) as Ha.
  pose proof (THREE_dot_self_nonneg v) as Hc.
  set (a := THREE.dot u u) in *. set (c := THREE.dot v v) in *.
  set (b := THREE.dot u v). set (d := THREE.dot u (THREE.sub p1 q1)).
  set (e := THREE.dot v (THREE.sub p1 q1)).
  set (sN0 := b * e - c * d). set (tN0 := a * e - b * d).
  num_cases; cbn [pointA pointB];
    try (exfalso; lra);
    try (exists 0, 0; repeat split; try lra;
         unfold THREE.addScaledVector; destruct p1, q1; cbn; f_equal; ring);
    (eexists; eexists; split; [| split; [| split; reflexivity]];
     apply segment_parameter; lra).
Qed.

(** X13.  Unless the second segment is degenerate while the first is not
    (squared lengths [c <= EPS < a]), the two points
    [closestPointsBetweenSegments] returns lie on their segments: they are
    [p1 + sc * (p2 - p1)] and [q1 + tc * (q2 - q1)] for parameters [sc] and
    [tc] in [[0, 1]]. *)
Theorem closestPoints_on_segments (p1 p2 q1 q2 : THREE.Vector3) :
  let u := THREE.sub p2 p1 in
  let v := THREE.sub q2 q1 in
  1e-6 < THREE.dot v v \/ THREE.dot u u <= 1e-6 ->
  exists sc tc,
    0 <= sc <= 1 /\ 0 <= tc <= 1
    /\ pointA (closestPointsBetweenSegments p1 p2 q1 q2)
       = THREE.addScaledVector p1 u sc
    /\ pointB (closestPointsBetweenSegments p1 p2 q1 q2)
       = THREE.addScaledVector q1 v tc.
Proof. exact (closestPoints_parameters p1 p2 q1 q2). Qed.

Lemma closestPoints_on_segments_witness :
  exists sc tc,
    0 <= sc <= 1 /\ 0 <= tc <= 1
    /\ pointA (closestPointsBetweenSegments
                 (vec_start SampleVectors.lower) (vec_end SampleVectors.lower)
                 (vec_start SampleVectors.upper) (vec_end SampleVectors.upper))
       = THREE.addScaledVector (vec_start SampleVectors.lower)
           (THREE.sub (vec_end SampleVectors.lower) (vec_start SampleVectors.lower)) sc
    /\ pointB (closestPointsBetweenSegments
                 (vec_start SampleVectors.lower) (vec_end SampleVectors.lower)
                 (vec_start SampleVectors.upper) (vec_end SampleVectors.upper))
       = THREE.addScaledVector (vec_start SampleVectors.upper)
           (THREE.sub (vec_end SampleVectors.upper) (vec_start SampleVectors.upper)) tc.
Proof.
  apply (closestPoints_on_segments
           (vec_start SampleVectors.lower) (vec_end SampleVectors.lower)
           (vec_start SampleVectors.upper) (vec_end SampleVectors.upper)).
  left. unfold THREE.dot, THREE.sub; simpl. lra.
Defined.

Lemma THREE_dot_sub_self_r (u q : THREE.Vector3) : THREE.dot u (THREE.sub q q) = 0.
Proof. unfold THREE.dot, THREE.sub. simpl. ring. Qed.

Lemma THREE_dot_sub_self_l (w q : THREE.Vector3) : THREE.dot (THREE.sub q q) w = 0.
Proof. unfold THREE.dot, THREE.sub. simpl. ring. Qed.

Lemma THREE_addScaledVector_0 (q v : THREE.Vector3) :
  THREE.addScaledVector q (THREE.sub v v) 0 = q.
Proof. unfold THREE.addScaledVector, THREE.sub. destruct q; simpl. f_equal; ring. Qed.

(** The branch for a second segment that is a point. *)
Lemma closestPoints_to_point (p1 p2 q : THREE.Vector3) :
  let u := THREE.sub p2 p1 in
  let d := THREE.dot u (THREE.sub p1 q) in
  1e-6 < THREE.dot u u ->
  closestPointsBetweenSegments p1 p2 q q
  = let sc := if Num.ltb (Rabs (- d)) 1e-6 then 0 else - d / THREE.dot u u in
    {| pointA := THREE.addScaledVector p1 u sc;
       pointB := q;
       distance := THREE.distanceTo (THREE.addScaledVector p1 u sc) q |}.
Proof.
  intros u d Ha. unfold closestPointsBetweenSegments. cbv zeta.
  fold u. fold d.
  rewrite THREE_dot_sub_self, THREE_dot_sub_self_r, THREE_dot_sub_self_l.
  rewrite (Num_leb_false (THREE.dot u u) 1e-6) by lra. cbn [andb].
  rewrite (Num_leb_true 0 1e-6) by lra.
  rewrite (Num_ltb_false 0 0) by lra.
  unfold Num.gtb. rewrite (Num_ltb_false 1 0) by lra.
  rewrite Rabs_R0, (Num_ltb_true 0 1e-6) by lra.
  now rewrite THREE_addScaledVector_0.
Qed.

(** X14.  When the second segment is a single point [q] and the first is
    not degenerate, [pointB] is [q] and [pointA] is the foot of the
    perpendicular from [q] on the line through the first segment,
    [p1 + sc * (p2 - p1)] with [sc = -d / a] (or 0 when [|d| < EPS]): the
    parameter is not clamped to [[0, 1]], so [pointA] may lie outside the
    segment, and the returned distance is the distance from [q] to the line. *)
Theorem closestPoints_point_projection (p1 p2 q : THREE.Vector3) :
  let u := THREE.sub p2 p1 in
  let d := THREE.dot u (THREE.sub p1 q) in
  let result := closestPointsBetweenSegments p1 p2 q q in
  1e-6 < THREE.dot u u ->
  pointB result = q
  /\ (exists sc,
         pointA result = THREE.addScaledVector p1 u sc
         /\ (1e-6 <= Rabs d -> sc = - d / THREE.dot u u)
         /\ (Rabs d < 1e-6 -> sc = 0))
  /\ Rabs (THREE.dot (THREE.sub (pointA result) q) u) < 1e-6
  /\ distance result = THREE.distanceTo (pointA result) q.
Proof.
  intros u d result Ha. subst result.
  rewrite (closestPoints_to_point p1 p2 q Ha). fold u. fold d. cbv zeta.
  cbn [pointA pointB distance]. rewrite Rabs_Ropp.
  split; [reflexivity |]. split; [| split; [| reflexivity]].
  - eexists. split; [reflexivity |]. split; intros H.
    + now rewrite Num_ltb_false.
    + now rewrite Num_ltb_true.
  - assert (E : forall sc,
               THREE.dot (THREE.sub (THREE.addScaledVector p1 u sc) q) u
               = d + THREE.dot u u * sc).
    { intros sc. unfold d, THREE.dot, THREE.sub, THREE.addScaledVector. simpl. ring. }
    rewrite E. destruct (Rlt_dec (Rabs d) 1e-6) as [L | L].
    + rewrite (Num_ltb_true _ _ L). now replace (d + THREE.dot u u * 0) with d by ring.
    + rewrite Num_ltb_false by lra.
      replace (d + THREE.dot u u * (- d / THREE.dot u u)) with 0
        by (field; lra).
      rewrite Rabs_R0. lra.
Qed.

(** The unit segment from the origin along x and the point [(5, 0, 0)] on
    its line: the returned [pointA] is the point itself, at parameter 5, and
    the returned distance is 0, while every point of the segment is at least
    4 away. *)
Lemma closestPoints_point_projection_witness :
  let p1 := {| THREE.x := 0; THREE.y := 0; THREE.z := 0 |} in
  let p2 := {| THREE.x := 1; THREE.y := 0; THREE.z := 0 |} in
  let q := {| THREE.x := 5; THREE.y := 0; THREE.z := 0 |} in
  pointA (closestPointsBetweenSegments p1 p2 q q) = q
  /\ distance (closestPointsBetweenSegments p1 p2 q q) = 0.
Proof.
  cbv zeta.
  destruct (closestPoints_point_projection
              {| THREE.x := 0; THREE.y := 0; THREE.z := 0 |}
              {| THREE.x := 1; THREE.y := 0; THREE.z := 0 |}
              {| THREE.x := 5; THREE.y := 0; THREE.z := 0 |})
    as (_ & [sc [HA [Hsc _]]] & _ & Hd).
  - unfold THREE.dot, THREE.sub; simpl. lra.
  - assert (Esc : sc = 5).
    { rewrite Hsc.
      - unfold THREE.dot, THREE.sub; simpl. field.
      - unfold THREE.dot, THREE.sub; simpl.
        replace ((1 - 0) * (0 - 5) + (0 - 0) * (0 - 0) + (0 - 0) * (0 - 0)) with (-5)
          by ring.
        rewrite Rabs_left by lra. lra. }
    assert (EA : pointA
                   (closestPointsBetweenSegments
                      {| THREE.x := 0; THREE.y := 0; THREE.z := 0 |}
                      {| THREE.x := 1; THREE.y := 0; THREE.z := 0 |}
                      {| THREE.x := 5; THREE.y := 0; THREE.z := 0 |}
                      {| THREE.x := 5; THREE.y := 0; THREE.z := 0 |})
                 = {| THREE.x := 5; THREE.y := 0; THREE.z := 0 |}).
    { rewrite HA, Esc. unfold THREE.addScaledVector, THREE.sub; simpl.
      f_equal; ring. }
    split; [exact EA |].
    rewrite Hd, EA. unfold THREE.distanceTo, THREE.distanceToSquared; simpl.
    replace ((5 - 5) * (5 - 5) + (0 - 0) * (0 - 0) + (0 - 0) * (0 - 0)) with 0 by ring.
    apply sqrt_0.
Defined.

(** ** GeometricAnalytics: the velocity vectors *)

(** The speed [computeVelocityAttributes] measures. *)
Definition speedOf (drone : DroneData) : R :=
  sqrt (x (velocity drone) * x (velocity drone)
        + y (velocity drone) * y (velocity drone)
        + z (velocity drone) * z (velocity drone)).

Definition velocityVectorOf (drone : DroneData) : THREE.Vector3 :=
  {| THREE.x := x (velocity drone);
     THREE.y := y (velocity drone);
     THREE.z := z (velocity drone) |}.

Definition positionVectorOf (drone : DroneData) : THREE.Vector3 :=
  {| THREE.x := x (position drone);
     THREE.y := y (position drone);
     THREE.z := z (position drone) |}.

Lemma THREE_length_sqr (v : THREE.Vector3) :
  THREE.length v * THREE.length v = THREE.dot v v.
Proof.
  unfold THREE.length. rewrite sqrt_sqrt; [reflexivity |].
  apply (THREE_dot_self_nonneg v).
Qed.

(** A vector that is not null is normalised to length 1. *)
Lemma THREE_normalize_unit (v : THREE.Vector3) :
  0 < THREE.length v -> THREE.dot (THREE.normalize v) (THREE.normalize v) = 1.
Proof.
  intros Hl. unfold THREE.normalize. cbv zeta.
  rewrite Num_eqb_false by lra.
  pose proof (THREE_length_sqr v) as Hs.
  unfold THREE.multiplyScalar, THREE.dot in *. cbn [THREE.x THREE.y THREE.z].
  set (l := THREE.length v) in *.
  replace (THREE.x v * (1 / l) * (THREE.x v * (1 / l))
           + THREE.y v * (1 / l) * (THREE.y v * (1 / l))
           + THREE.z v * (1 / l) * (THREE.z v * (1 / l)))
    with ((THREE.x v * THREE.x v + THREE.y v * THREE.y v + THREE.z v * THREE.z v)
          * / (l * l))
    by (field; lra).
  rewrite <- Hs. field. lra.
Qed.

(** The far end of a segment laid along a unit direction. *)
Lemma THREE_segment_length (start dir : THREE.Vector3) (len : R) :
  THREE.dot dir dir = 1 -> 0 <= len ->
  THREE.distanceTo start (THREE.addScaledVector start dir len) = len.
Proof.
  intros Hd Hl. unfold THREE.distanceTo, THREE.distanceToSquared,
    THREE.addScaledVector. cbn [THREE.x THREE.y THREE.z].
  unfold THREE.dot in Hd.
  match goal with
  | |- sqrt ?e = _ =>
      replace e with
        (len * len
         * (THREE.x dir * THREE.x dir + THREE.y dir * THREE.y dir
            + THREE.z dir * THREE.z dir)) by ring
  end.
  rewrite Hd, Rmult_1_r. now apply sqrt_square.
Qed.

Lemma computeVelocityAttributes_Some (drone : DroneData) :
  ~ speedOf drone < VELOCITY_MIN_SPEED ->
  exists attributes,
    computeVelocityAttributes drone = Some attributes
    /\ attr_speed attributes = speedOf drone
    /\ attr_direction attributes = THREE.normalize (velocityVectorOf drone)
    /\ attr_length attributes
       = Rmin (speedOf drone * VELOCITY_LENGTH_SCALE) VELOCITY_MAX_LENGTH.
Proof.
  intros H. unfold computeVelocityAttributes. cbv zeta.
  change (THREE.length _) with (speedOf drone).
  rewrite Num_ltb_false by lra. eexists. split; [reflexivity |].
  repeat split.
Qed.

Lemma computeVelocityAttributes_None (drone : DroneData) :
  speedOf drone < VELOCITY_MIN_SPEED -> computeVelocityAttributes drone = None.
Proof.
  intros H. unfold computeVelocityAttributes. cbv zeta.
  change (THREE.length _) with (speedOf drone).
  now rewrite Num_ltb_true.
Qed.

(** What [velocityVectors] holds for a drone it keeps. *)
Lemma velocityVectors_In drones0 timePointColors activeTimePoint vec :
  In vec (velocityVectors drones0 true timePointColors activeTimePoint) ->
  exists drone,
    In drone drones0
    /\ VELOCITY_MIN_SPEED <= speedOf drone
    /\ vec_id vec = droneId drone
    /\ vec_start vec = positionVectorOf drone
    /\ vec_end vec
       = THREE.addScaledVector (positionVectorOf drone)
           (THREE.normalize (velocityVectorOf drone))
           (Rmin (speedOf drone * VELOCITY_LENGTH_SCALE) VELOCITY_MAX_LENGTH).
Proof.
  unfold velocityVectors. cbn [negb]. intros H.
  apply in_flat_map in H. destruct H as [drone [Hd Hv]]. exists drone.
  destruct (Rlt_dec (speedOf drone) VELOCITY_MIN_SPEED) as [L | L].
  - rewrite (computeVelocityAttributes_None _ L) in Hv. destruct Hv.
  - destruct (computeVelocityAttributes_Some _ L) as (attrs & E & _ & Hdir & Hlen).
    rewrite E in Hv. destruct Hv as [<- | []].
    cbn [vec_id vec_start vec_end]. rewrite Hdir, Hlen.
    repeat split; try assumption; try reflexivity. lra.
Qed.

(** The ids of the vectors: those of the drones that move. *)
Lemma velocityVectors_ids drones0 timePointColors activeTimePoint :
  map vec_id (velocityVectors drones0 true timePointColors activeTimePoint)
  = map droneId
      (filter (fun drone => negb (Num.ltb (speedOf drone) VELOCITY_MIN_SPEED)) drones0).
Proof.
  unfold velocityVectors. cbn [negb].
  induction drones0 as [| drone rest IH]; [reflexivity |].
  cbn [flat_map filter]. rewrite map_app, IH.
  destruct (Rlt_dec (speedOf drone) VELOCITY_MIN_SPEED) as [L | L].
  - rewrite (computeVelocityAttributes_None _ L), (Num_ltb_true _ _ L). reflexivity.
  - destruct (computeVelocityAttributes_Some _ L) as (attrs & E & _).
    rewrite E, Num_ltb_false by lra. reflexivity.
Qed.

(** X15.  Velocity vectors: hidden, there is none; shown, there is one per
    drone whose speed is at least [VELOCITY_MIN_SPEED] (a drone that stands
    still has none), in the order of the drones; each starts at its drone's
    position and is exactly [min(300 * speed, 2400)] long, so no vector is
    longer than 2400. *)
Theorem velocityVectors_spec (drones0 : list DroneData)
  (timePointColors : option (Z -> option string)) (activeTimePoint : option Z) :
  velocityVectors drones0 false timePointColors activeTimePoint = []
  /\ map vec_id (velocityVectors drones0 true timePointColors activeTimePoint)
     = map droneId
         (filter (fun drone => negb (Num.ltb (speedOf drone) 1e-6)) drones0)
  /\ (forall vec,
         In vec (velocityVectors drones0 true timePointColors activeTimePoint) ->
         exists drone,
           In drone drones0
           /\ 1e-6 <= speedOf drone
           /\ vec_id vec = droneId drone
           /\ vec_start vec = positionVectorOf drone
           /\ THREE.distanceTo (vec_start vec) (vec_end vec)
              = Rmin (speedOf drone * 300) 2400
           /\ THREE.distanceTo (vec_start vec) (vec_end vec) <= 2400).
Proof.
  split; [reflexivity |]. split; [apply velocityVectors_ids |].
  intros vec Hin.
  destruct (velocityVectors_In _ _ _ _ Hin) as (drone & Hd & Hs & Hid & Hst & Hen).
  exists drone. unfold VELOCITY_MIN_SPEED, VELOCITY_LENGTH_SCALE,
    VELOCITY_MAX_LENGTH in *.
  assert (Hlen : THREE.distanceTo (vec_start vec) (vec_end vec)
                 = Rmin (speedOf drone * 300) 2400).
  { rewrite Hst, Hen. apply THREE_segment_length.
    - apply THREE_normalize_unit.
      change (THREE.length (velocityVectorOf drone)) with (speedOf drone). lra.
    - apply Rmin_glb; lra. }
  repeat split; try assumption. rewrite Hlen. apply Rmin_r.
Qed.

Lemma Sample_speed_drone1 : 3 < speedOf Sample.drone1_t0 < 4.
Proof.
  unfold speedOf; simpl. split.
  - apply (Rle_lt_trans _ (sqrt (3 * 3))); [rewrite sqrt_square; lra |].
    apply sqrt_lt_1_alt. lra.
  - apply (Rlt_le_trans _ (sqrt (4 * 4))); [| rewrite sqrt_square; lra].
    apply sqrt_lt_1_alt. split; [nra | lra].
Qed.

(** Drone-1 at index 0 moves at a speed between 3 and 4: its vector is
    between 900 and 1200 long. *)
Lemma velocityVectors_spec_witness :
  exists vec,
    In vec (velocityVectors [Sample.drone1_t0] true None None)
    /\ 900 < THREE.distanceTo (vec_start vec) (vec_end vec) < 1200.
Proof.
  pose proof Sample_speed_drone1 as Hs.
  destruct (computeVelocityAttributes_Some Sample.drone1_t0) as (attrs & E & _).
  { unfold VELOCITY_MIN_SPEED. lra. }
  eexists. split.
  - unfold velocityVectors. cbn [negb flat_map]. rewrite E. now left.
  - match goal with
    | |- _ < THREE.distanceTo (vec_start ?v) (vec_end ?v) < _ =>
        destruct (proj2 (proj2 (velocityVectors_spec [Sample.drone1_t0] None None)) v)
          as (drone & Hd & _ & _ & _ & Hlen & _)
    end.
    + unfold velocityVectors. cbn [negb flat_map]. rewrite E. now left.
    + destruct Hd as [<- | []]. rewrite Hlen.
      rewrite Rmin_left by lra. lra.
Defined.

(** ** Time-point colours (lib/timeSeriesColors.ts) *)

Definition TIME_POINT_COLORS : list string :=
  ["#1f77b4"; "#d62728"; "#2ca02c"; "#8b5cf6";
   "#9467bd"; "#8c564b"; "#17becf"; "#bcbd22"]%string.

(** [getTimePointColor], on an integer index; [None] would be the
    [undefined] of an array read out of bounds. *)
Definition getTimePointColor (index : Z) : option string :=
  if (index <? 0)%Z then nth_error TIME_POINT_COLORS 0
  else
    nth_error TIME_POINT_COLORS
      (Z.to_nat (Z.rem index (Z.of_nat (List.length TIME_POINT_COLORS)))).

(** A [Record<number, string>] with integer keys: [set] is [map[i] = v]
    (where [v] may be [undefined]), [get] is [map?.[i]] with [undefined] for
    a key that is absent or holds [undefined]. *)
Module NumRecord.

Definition t : Type := list (Z * option string).

Fixpoint set (m : t) (k : Z) (v : option string) : t :=
  match m with
  | [] => [(k, v)]
  | (k', v') :: m' =>
      if (k' =? k)%Z then (k', v) :: m' else (k', v') :: set m' k v
  end.

Fixpoint get (m : t) (k : Z) : option string :=
  match m with
  | [] => None
  | (k', v) :: m' => if (k' =? k)%Z then v else get m' k
  end.

End NumRecord.

(** [buildTimePointColorMap]: [for (let i = 0; i < count; i += 1)
    map[i] = getTimePointColor(i)], for an integer [count]. *)
Definition buildTimePointColorMap (count : Z) : NumRecord.t :=
  fold_left
    (fun map0 i => NumRecord.set map0 (Z.of_nat i) (getTimePointColor (Z.of_nat i)))
    (seq 0 (Z.to_nat count)) [].

(** The vectors the dashboard hands to the 3D view: the current drones,
    [timePointColors = buildTimePointColorMap(dataset.timePoints.length)] and
    [activeTimePoint = Math.floor(timelineState.currentTime)]. *)
Definition dashboardVelocityVectors (dataset : DroneSwarmDataset)
  (filters : VisualizationFilters) (state0 : Timeline.TimelineState)
  (customDrones : list DroneData) : list VelocityVectorInfo :=
  velocityVectors
    (currentDrones dataset filters (Timeline.currentTime state0) customDrones)
    (showVelocityVectors filters)
    (Some (NumRecord.get
             (buildTimePointColorMap (Z.of_nat (List.length (timePoints dataset))))))
    (Some (Num.floor (Timeline.currentTime state0))).

Lemma getTimePointColor_total (index : Z) :
  exists color, getTimePointColor index = Some color /\ In color TIME_POINT_COLORS.
Proof.
  unfold getTimePointColor.
  assert (H : forall n, (n < List.length TIME_POINT_COLORS)%nat ->
                        exists color,
                          nth_error TIME_POINT_COLORS n = Some color
                          /\ In color TIME_POINT_COLORS).
  { intros n Hn. destruct (nth_error TIME_POINT_COLORS n) as [c |] eqn:E.
    - exists c. split; [reflexivity |]. eapply nth_error_In. exact E.
    - apply nth_error_None in E. lia. }
  destruct (index <? 0)%Z eqn:E.
  - apply H. simpl. lia.
  - apply H. apply Z.ltb_ge in E.
    change (Z.of_nat (List.length TIME_POINT_COLORS)) with 8%Z.
    change (List.length TIME_POINT_COLORS) with 8%nat.
    pose proof (Z.rem_bound_pos index 8 E ltac:(lia)). lia.
Qed.

Lemma getTimePointColor_periodic (index : Z) :
  (0 <= index)%Z -> getTimePointColor (index + 8) = getTimePointColor index.
Proof.
  intros H. unfold getTimePointColor.
  rewrite (proj2 (Z.ltb_ge index 0) H), (proj2 (Z.ltb_ge (index + 8) 0)) by lia.
  change (Z.of_nat (List.length TIME_POINT_COLORS)) with 8%Z.
  rewrite !Z.rem_mod_nonneg by lia.
  replace (index + 8)%Z with (index + 1 * 8)%Z by lia.
  now rewrite Z.mod_add by lia.
Qed.

(** X16.  [getTimePointColor] answers a colour of the palette for every
    integer index, never [undefined]: the first colour for a negative index,
    and for the others the palette repeated with period 8. *)
Theorem getTimePointColor_spec (index : Z) :
  (exists color, getTimePointColor index = Some color /\ In color TIME_POINT_COLORS)
  /\ ((index < 0)%Z -> getTimePointColor index = Some "#1f77b4"%string)
  /\ ((0 <= index)%Z ->
      getTimePointColor index = nth_error TIME_POINT_COLORS (Z.to_nat (index mod 8))
      /\ getTimePointColor (index + 8) = getTimePointColor index).
Proof.
  split; [apply getTimePointColor_total |]. split.
  - intros H. unfold getTimePointColor. now rewrite (proj2 (Z.ltb_lt index 0) H).
  - intros H. split; [| now apply getTimePointColor_periodic].
    unfold getTimePointColor. rewrite (proj2 (Z.ltb_ge index 0) H).
    change (Z.of_nat (List.length TIME_POINT_COLORS)) with 8%Z.
    now rewrite Z.rem_mod_nonneg by lia.
Qed.

Lemma NumRecord_get_set (m : NumRecord.t) (k k' : Z) (v : option string) :
  NumRecord.get (NumRecord.set m k v) k'
  = if (k =? k')%Z then v else NumRecord.get m k'.
Proof.
  induction m as [| [k0 v0] m IH]; simpl.
  - reflexivity.
  - destruct (k0 =? k)%Z eqn:E0; simpl.
    + apply Z.eqb_eq in E0. subst k0. destruct (k =? k')%Z; reflexivity.
    + rewrite IH. destruct (k0 =? k')%Z eqn:E1; [| reflexivity].
      apply Z.eqb_eq in E1. subst k0. rewrite Z.eqb_sym in E0. now rewrite E0.
Qed.

Lemma buildTimePointColorMap_loop (n : nat) (k : Z) :
  NumRecord.get
    (fold_left
       (fun map0 i => NumRecord.set map0 (Z.of_nat i) (getTimePointColor (Z.of_nat i)))
       (seq 0 n) [])
    k
  = if ((0 <=? k) && (k <? Z.of_nat n))%Z then getTimePointColor k else None.
Proof.
  induction n as [| n IH].
  - simpl. destruct (0 <=? k)%Z eqn:E; [| reflexivity].
    apply Z.leb_le in E. simpl. now rewrite (proj2 (Z.ltb_ge k 0) E).
  - rewrite seq_S, fold_left_app. cbn [fold_left Nat.add].
    rewrite NumRecord_get_set, IH.
    destruct (Z.of_nat n =? k)%Z eqn:E.
    + apply Z.eqb_eq in E. subst k.
      rewrite (proj2 (Z.leb_le 0 _)), (proj2 (Z.ltb_lt _ _)) by lia. reflexivity.
    + apply Z.eqb_neq in E.
      destruct (0 <=? k)%Z; [| reflexivity]. cbn [andb].
      destruct (k <? Z.of_nat n)%Z eqn:L.
      * apply Z.ltb_lt in L. now rewrite (proj2 (Z.ltb_lt k _)) by lia.
      * apply Z.ltb_ge in L. now rewrite (proj2 (Z.ltb_ge k _)) by lia.
Qed.

Lemma buildTimePointColorMap_get (count k : Z) :
  NumRecord.get (buildTimePointColorMap count) k
  = if ((0 <=? k) && (k <? count))%Z then getTimePointColor k else None.
Proof.
  unfold buildTimePointColorMap. rewrite buildTimePointColorMap_loop.
  destruct (0 <=? k)%Z eqn:E; [| reflexivity]. cbn [andb].
  apply Z.leb_le in E.
  destruct (k <? count)%Z eqn:L.
  - apply Z.ltb_lt in L. now rewrite (proj2 (Z.ltb_lt k _)) by lia.
  - apply Z.ltb_ge in L. now rewrite (proj2 (Z.ltb_ge k _)) by lia.
Qed.

(** X17.  [buildTimePointColorMap(count)] has a colour exactly for the
    indices [0 <= k < count], and it is [getTimePointColor(k)]; every other
    key reads [undefined]. *)
Theorem buildTimePointColorMap_spec (count k : Z) :
  ((0 <= k < count)%Z ->
   NumRecord.get (buildTimePointColorMap count) k = getTimePointColor k
   /\ exists color,
       NumRecord.get (buildTimePointColorMap count) k = Some color
       /\ In color TIME_POINT_COLORS)
  /\ ((k < 0 \/ count <= k)%Z ->
      NumRecord.get (buildTimePointColorMap count) k = None).
Proof.
  rewrite buildTimePointColorMap_get. split.
  - intros [H0 H1].
    rewrite (proj2 (Z.leb_le 0 k) H0), (proj2 (Z.ltb_lt k count) H1). cbn [andb].
    split; [reflexivity | apply getTimePointColor_total].
  - intros [H | H].
    + now rewrite (proj2 (Z.leb_gt 0 k) H).
    + rewrite (proj2 (Z.ltb_ge k count) H). now rewrite andb_false_r.
Qed.

Lemma velocityVectors_color drones0 (colors : Z -> option string) (active : Z)
  (color : string) vec :
  colors active = Some color ->
  In vec (velocityVectors drones0 true (Some colors) (Some active)) ->
  vec_color vec = color.
Proof.
  intros Hc. unfold velocityVectors. cbn [negb]. intros H.
  apply in_flat_map in H. destruct H as [drone [_ Hv]].
  destruct (computeVelocityAttributes drone); [| destruct Hv].
  destruct Hv as [<- | []]. cbn [vec_color]. unfold vectorColorOf. now rewrite Hc.
Qed.

(** X18.  In the dashboard, while the time lies on the timeline, every
    velocity vector is drawn in the colour of the current time point,
    [getTimePointColor(Math.floor(currentTime))]: all vectors share one
    colour and the speed colours (green, amber, red) are not used. *)
Theorem dashboard_vectors_time_coloured (dataset : DroneSwarmDataset)
  (filters : VisualizationFilters) (state0 : Timeline.TimelineState)
  (customDrones : list DroneData) (vec : VelocityVectorInfo) :
  timePoints dataset <> [] ->
  0 <= Timeline.currentTime state0 <= IZR (maxIndexOf dataset) ->
  In vec (dashboardVelocityVectors dataset filters state0 customDrones) ->
  Some (vec_color vec) = getTimePointColor (Num.floor (Timeline.currentTime state0))
  /\ In (vec_color vec) TIME_POINT_COLORS.
Proof.
  intros Hne [H0 H1] Hin. unfold dashboardVelocityVectors in Hin.
  destruct (showVelocityVectors filters); [| destruct Hin].
  destruct (Num_floor_bounds (Timeline.currentTime state0)) as [F0 F1].
  set (k := Num.floor (Timeline.currentTime state0)) in *.
  assert (Hk0 : (0 <= k)%Z).
  { apply Z.lt_succ_r. apply lt_IZR. rewrite succ_IZR. lra. }
  assert (Hk1 : (k <= maxIndexOf dataset)%Z) by (apply le_IZR; lra).
  assert (Hlen : (k < Z.of_nat (List.length (timePoints dataset)))%Z).
  { unfold maxIndexOf in Hk1. destruct (timePoints dataset); [contradiction |].
    cbn [List.length] in *. lia. }
  destruct (getTimePointColor_total k) as [color [Hc Hpal]].
  assert (Hget : NumRecord.get
                   (buildTimePointColorMap (Z.of_nat (List.length (timePoints dataset))))
                   k = Some color).
  { rewrite buildTimePointColorMap_get.
    rewrite (proj2 (Z.leb_le 0 k) Hk0), (proj2 (Z.ltb_lt k _) Hlen). exact Hc. }
  rewrite (velocityVectors_color _ _ _ _ _ Hget Hin). now split.
Qed.

(** The sample filters with the velocity vectors switched on. *)
Definition vectorsShown : VisualizationFilters :=
  {| selectedSwarms := selectedSwarms Sample.allFilters;
     selectedTasks := selectedTasks Sample.allFilters;
     selectedStates := selectedStates Sample.allFilters;
     batteryRange := batteryRange Sample.allFilters;
     showTrajectories := false;
     showDetectionRanges := false;
     showVelocityVectors := true;
     showSignalIntensity := true;
     showVideoFeedback := true |}.

Lemma Sample_vectorsShown_at_0 :
  currentDrones Sample.dataset vectorsShown 0 []
  = [Sample.drone1_t0; Sample.drone2_t0].
Proof.
  unfold currentDrones. rewrite app_nil_r.
  rewrite (interpolatedDrones_index_eq Sample.dataset vectorsShown 0).
  - exact Sample_all_at_0.
  - discriminate.
  - rewrite Sample_maxIndex. lia.
Qed.

(** At the start of the sample timeline the vector of drone-1 is blue, the
    colour of time point 0. *)
Lemma dashboard_vectors_time_coloured_witness :
  exists vec,
    In vec (dashboardVelocityVectors Sample.dataset vectorsShown
              (Timeline.initial Sample.dataset) [])
    /\ vec_id vec = "drone-1"%string
    /\ vec_color vec = "#1f77b4"%string.
Proof.
  pose proof Sample_speed_drone1 as Hs.
  destruct (computeVelocityAttributes_Some Sample.drone1_t0) as (attrs & E & _).
  { unfold VELOCITY_MIN_SPEED. lra. }
  assert (Hin : exists vec,
             In vec (dashboardVelocityVectors Sample.dataset vectorsShown
                       (Timeline.initial Sample.dataset) [])
             /\ vec_id vec = "drone-1"%string).
  { unfold dashboardVelocityVectors.
    cbn [Timeline.initial Timeline.currentTime showVelocityVectors vectorsShown].
    rewrite Sample_vectorsShown_at_0.
    unfold velocityVectors. cbn [negb flat_map]. rewrite E.
    eexists. split; [now left | reflexivity]. }
  destruct Hin as [vec [Hin Hid]]. exists vec.
  split; [exact Hin |]. split; [exact Hid |].
  destruct (dashboard_vectors_time_coloured Sample.dataset vectorsShown
              (Timeline.initial Sample.dataset) [] vec) as [Hc _].
  - discriminate.
  - rewrite Sample_maxIndex. simpl. lra.
  - exact Hin.
  - cbn [Timeline.initial Timeline.currentTime] in Hc.
    rewrite (Num_floor_IZR 0) in Hc. now injection Hc.
Defined.

(** ** SpatialProjector: order on the map *)

Lemma clampWithMargin_monotone (a b : R) :
  a <= b -> clampWithMargin a <= clampWithMargin b.
Proof.
  intros H. unfold clampWithMargin.
  apply Rle_min_compat_r. apply Rle_max_compat_r. exact H.
Qed.

Lemma normalizeToMap_monotone (a b minValue span : R) :
  0 < span -> a <= b ->
  normalizeToMap a minValue span <= normalizeToMap b minValue span.
Proof.
  intros Hs H. unfold normalizeToMap, MAP_SIZE, MAP_MAX, MAP_MIN.
  apply Rplus_le_compat_r. apply Rmult_le_compat_r; [lra |].
  unfold Rdiv. apply Rmult_le_compat_r; [| lra].
  left. now apply Rinv_0_lt_compat.
Qed.

Lemma projectToMap_order (boundingBox0 : option BoundingBox) (p q : DronePosition) :
  (x p <= x q ->
   fst (projectToMap boundingBox0 p) <= fst (projectToMap boundingBox0 q))
  /\ (z p <= z q ->
      snd (projectToMap boundingBox0 q) <= snd (projectToMap boundingBox0 p)).
Proof.
  unfold projectToMap. cbn [fst snd]. split; intros H.
  - apply clampWithMargin_monotone. apply normalizeToMap_monotone; [| exact H].
    pose proof (spanXOf_ge_1 (bounds3dOf boundingBox0)). lra.
  - apply clampWithMargin_monotone.
    apply Rplus_le_compat_l. apply Ropp_le_contravar.
    apply normalizeToMap_monotone; [| exact H].
    pose proof (spanZOf_ge_1 (bounds3dOf boundingBox0)). lra.
Qed.

(** X19.  The projection keeps the order of the drones along x and turns
    the order along z upside down, each axis on its own: a drone that is not
    west of another is not left of it on the map, whatever their z, and a
    drone that is not south of another (larger or equal z) is not below it
    (smaller or equal map y), whatever their x; this holds for every bounding
    box, given or defaulted, and also where the clamp to the margins is
    active. *)
Theorem projectToMap_monotone (boundingBox0 : option BoundingBox)
  (p q : DronePosition) :
  (x p <= x q ->
   fst (projectToMap boundingBox0 p) <= fst (projectToMap boundingBox0 q))
  /\ (z p <= z q ->
      snd (projectToMap boundingBox0 q) <= snd (projectToMap boundingBox0 p)).
Proof. exact (projectToMap_order boundingBox0 p q). Qed.

(** drone-4 of index 4 is west but north of drone-2 of index 0: on the map
    it is not to the right of drone-2 and not below it. *)
Lemma projectToMap_monotone_witness :
  x (position Sample.drone4_t4) <= x (position Sample.drone2_t0)
  /\ z (position Sample.drone2_t0) <= z (position Sample.drone4_t4)
  /\ fst (projectToMap (Some Sample.box) (position Sample.drone4_t4))
     <= fst (projectToMap (Some Sample.box) (position Sample.drone2_t0))
  /\ snd (projectToMap (Some Sample.box) (position Sample.drone4_t4))
     <= snd (projectToMap (Some Sample.box) (position Sample.drone2_t0)).
Proof.
  assert (Hx : x (position Sample.drone4_t4) <= x (position Sample.drone2_t0))
    by (simpl; lra).
  assert (Hz : z (position Sample.drone2_t0) <= z (position Sample.drone4_t4))
    by (simpl; lra).
  split; [exact Hx |]. split; [exact Hz |]. split.
  - exact (proj1 (projectToMap_monotone (Some Sample.box) _ _) Hx).
  - exact (proj2 (projectToMap_monotone (Some Sample.box) _ _) Hz).
Defined.

(** ** Marker shapes (DroneRangeMap2D.tsx) *)

Definition markerShapePalette : list string :=
  ["circle"; "square"; "diamond"; "hexagon"; "cross"]%string.

(** [n | 0] on an integer: the 32-bit two's-complement wrap. *)
Definition toInt32 (n : Z) : Z := ((n + 2 ^ 31) mod 2 ^ 32 - 2 ^ 31)%Z.

(** [id.charCodeAt(i)] for [i = 0 .. id.length - 1]; ids are byte strings
    here, so that a code unit is a byte. *)
Definition charCodes (id : string) : list Z :=
  map (fun c => Z.of_N (Ascii.N_of_ascii c)) (list_ascii_of_string id).

(** The loop of [hashToShape]: [hash = (hash * 31 + id.charCodeAt(i)) | 0].
    With [hash] a 32-bit integer, [hash * 31 + code] is below [2 ^ 53] in
    magnitude and exact as a double. *)
Definition hashOf (id : string) : Z :=
  fold_left (fun hash code => toInt32 (hash * 31 + code)) (charCodes id) 0%Z.

(** [hashToShape]; [None] would be the [undefined] of an array read out of
    bounds. *)
Definition hashToShape (id : string) : option string :=
  let index :=
    Z.rem (Z.abs (hashOf id)) (Z.of_nat (List.length markerShapePalette)) in
  nth_error markerShapePalette (Z.to_nat index).

Lemma toInt32_range (n : Z) : (- 2 ^ 31 <= toInt32 n < 2 ^ 31)%Z.
Proof.
  unfold toInt32.
  pose proof (Z.mod_pos_bound (n + 2 ^ 31) (2 ^ 32) ltac:(lia)). lia.
Qed.

(** A value that fits 32 bits is left alone by [| 0]. *)
Lemma toInt32_small (n : Z) : (- 2 ^ 31 <= n < 2 ^ 31)%Z -> toInt32 n = n.
Proof.
  intros H. unfold toInt32. rewrite Z.mod_small by lia. lia.
Qed.

Lemma hashOf_loop_range (codes : list Z) (hash : Z) :
  (- 2 ^ 31 <= hash < 2 ^ 31)%Z ->
  (- 2 ^ 31
   <= fold_left (fun hash code => toInt32 (hash * 31 + code)) codes hash
   < 2 ^ 31)%Z.
Proof.
  revert hash. induction codes as [| c codes IH]; intros hash H; simpl.
  - exact H.
  - apply IH. apply toInt32_range.
Qed.

Lemma hashOf_range (id : string) : (- 2 ^ 31 <= hashOf id < 2 ^ 31)%Z.
Proof. unfold hashOf. apply hashOf_loop_range. lia. Qed.

Lemma hashToShape_total (id : string) :
  exists shape, hashToShape id = Some shape /\ In shape markerShapePalette.
Proof.
  unfold hashToShape. cbv zeta.
  set (index := Z.rem _ _).
  assert (Hi : (0 <= index < 5)%Z).
  { subst index. change (Z.of_nat (List.length markerShapePalette)) with 5%Z.
    rewrite Z.rem_mod_nonneg by lia. apply Z.mod_pos_bound. lia. }
  destruct (nth_error markerShapePalette (Z.to_nat index)) as [shape |] eqn:E.
  - exists shape. split; [reflexivity |]. eapply nth_error_In. exact E.
  - apply nth_error_None in E. simpl in E. lia.
Qed.

(** X20.  [hashToShape] never returns [undefined]: the running hash stays
    a 32-bit integer, and for every id, also one whose hash is [- 2 ^ 31]
    (whose absolute value does not fit 32 bits), the index
    [Math.abs(hash) % 5] selects one of the five shapes of the palette; the
    empty id gets the first shape. *)
Theorem hashToShape_spec :
  (forall id, (- 2 ^ 31 <= hashOf id < 2 ^ 31)%Z)
  /\ (forall id,
        exists shape, hashToShape id = Some shape /\ In shape markerShapePalette)
  /\ hashToShape ""%string = Some "circle"%string.
Proof.
  split; [exact hashOf_range |]. split; [exact hashToShape_total |]. reflexivity.
Qed.

(** ** DroneStatistics: averages and battery levels *)

(** [drones.reduce((sum, drone) => sum + f(drone), 0)]. *)
Definition reduceSum (f : DroneData -> R) (drones0 : list DroneData) : R :=
  fold_left (fun sum drone => sum + f drone) drones0 0.

Definition totalDrones (drones0 : list DroneData) : nat := List.length drones0.

Definition avgBattery (drones0 : list DroneData) : R :=
  if (totalDrones drones0 =? 0)%nat then 0
  else reduceSum batteryPercentage drones0 / INR (totalDrones drones0).

Definition avgSpeed (drones0 : list DroneData) : R :=
  if (totalDrones drones0 =? 0)%nat then 0
  else
    let total :=
      reduceSum
        (fun drone =>
           sqrt (x (velocity drone) ^ 2
                 + y (velocity drone) ^ 2
                 + z (velocity drone) ^ 2))
        drones0 in
    total / INR (totalDrones drones0).

Definition avgAltitude (drones0 : list DroneData) : R :=
  if (totalDrones drones0 =? 0)%nat then 0
  else reduceSum (fun drone => y (position drone)) drones0
       / INR (totalDrones drones0).

Definition avgDetectionRange (drones0 : list DroneData) : R :=
  if (totalDrones drones0 =? 0)%nat then 0
  else reduceSum detectionRange drones0 / INR (totalDrones drones0).

Record BatteryLevels := {
  critical : nat;
  low : nat;
  medium : nat;
  high : nat
}.

Definition batteryLevels (drones0 : list DroneData) : BatteryLevels :=
  {| critical :=
       List.length (filter (fun d => Num.ltb (batteryPercentage d) 20) drones0);
     low :=
       List.length
         (filter (fun d => Num.geb (batteryPercentage d) 20
                           && Num.ltb (batteryPercentage d) 50) drones0);
     medium :=
       List.length
         (filter (fun d => Num.geb (batteryPercentage d) 50
                           && Num.ltb (batteryPercentage d) 80) drones0);
     high :=
       List.length (filter (fun d => Num.geb (batteryPercentage d) 80) drones0) |}.

Lemma reduceSum_loop (f : DroneData -> R) (l : list DroneData) (acc : R) :
  fold_left (fun sum drone => sum + f drone) l acc = acc + reduceSum f l.
Proof.
  unfold reduceSum. revert acc. induction l as [| d l IH]; intros acc; simpl.
  - lra.
  - rewrite IH. rewrite (IH (0 + f d)). lra.
Qed.

Lemma reduceSum_cons (f : DroneData -> R) (d : DroneData) (l : list DroneData) :
  reduceSum f (d :: l) = f d + reduceSum f l.
Proof.
  unfold reduceSum at 1. simpl. rewrite reduceSum_loop. lra.
Qed.

(** A sum of values between [lo] and [hi] lies between [n * lo] and
    [n * hi]. *)
Lemma reduceSum_bounds (f : DroneData -> R) (l : list DroneData) (lo hi : R) :
  (forall d, In d l -> lo <= f d <= hi) ->
  INR (List.length l) * lo <= reduceSum f l <= INR (List.length l) * hi.
Proof.
  induction l as [| d l IH]; intros H.
  - unfold reduceSum. simpl. lra.
  - rewrite reduceSum_cons.
    change (List.length (d :: l)) with (S (List.length l)). rewrite S_INR.
    pose proof (H d (or_introl eq_refl)).
    assert (Hl : forall d', In d' l -> lo <= f d' <= hi)
      by (intros d' Hd; apply H; now right).
    specialize (IH Hl). lra.
Qed.

Lemma reduceSum_ext (f g : DroneData -> R) (l : list DroneData) :
  (forall d, f d = g d) -> reduceSum f l = reduceSum g l.
Proof.
  intros H. induction l as [| d l IH]; [reflexivity |].
  rewrite !reduceSum_cons, H, IH. reflexivity.
Qed.

(** The mean of values between [lo] and [hi] lies between them. *)
Lemma mean_bounds (f : DroneData -> R) (l : list DroneData) (lo hi : R) :
  l <> [] ->
  (forall d, In d l -> lo <= f d <= hi) ->
  lo <= reduceSum f l / INR (List.length l) <= hi.
Proof.
  intros Hne H. pose proof (reduceSum_bounds f l lo hi H) as [H1 H2].
  assert (Hn : 0 < INR (List.length l)).
  { destruct l; [contradiction |]. apply lt_0_INR. simpl. lia. }
  split.
  - apply Rmult_le_reg_r with (INR (List.length l)); [exact Hn |].
    unfold Rdiv. rewrite Rmult_assoc, Rinv_l by lra. lra.
  - apply Rmult_le_reg_r with (INR (List.length l)); [exact Hn |].
    unfold Rdiv. rewrite Rmult_assoc, Rinv_l by lra. lra.
Qed.

Lemma totalDrones_nonempty (l : list DroneData) :
  l <> [] -> (List.length l =? 0)%nat = false.
Proof.
  intros H. destruct l; [contradiction | reflexivity].
Qed.

Lemma speed_formula (drone : DroneData) :
  sqrt (x (velocity drone) ^ 2 + y (velocity drone) ^ 2 + z (velocity drone) ^ 2)
  = speedOf drone.
Proof. unfold speedOf. f_equal. ring. Qed.

Lemma averages_bounded (drones0 : list DroneData) :
  drones0 <> [] ->
  (forall lo hi,
      (forall d, In d drones0 -> lo <= batteryPercentage d <= hi) ->
      lo <= avgBattery drones0 <= hi)
  /\ (forall lo hi,
        (forall d, In d drones0 -> lo <= y (position d) <= hi) ->
        lo <= avgAltitude drones0 <= hi)
  /\ (forall lo hi,
        (forall d, In d drones0 -> lo <= detectionRange d <= hi) ->
        lo <= avgDetectionRange drones0 <= hi)
  /\ (forall lo hi,
        (forall d, In d drones0 -> lo <= speedOf d <= hi) ->
        lo <= avgSpeed drones0 <= hi)
  /\ 0 <= avgSpeed drones0.
Proof.
  intros Hne.
  assert (Hs : forall lo hi,
             (forall d, In d drones0 -> lo <= speedOf d <= hi) ->
             lo <= avgSpeed drones0 <= hi).
  { intros lo hi H. unfold avgSpeed, totalDrones.
    rewrite (totalDrones_nonempty _ Hne). cbv zeta. rewrite (reduceSum_ext _ speedOf) by exact speed_formula.
    now apply mean_bounds. }
  split; [| split; [| split; [| split]]].
  - intros lo hi H. unfold avgBattery, totalDrones.
    rewrite (totalDrones_nonempty _ Hne). now apply mean_bounds.
  - intros lo hi H. unfold avgAltitude, totalDrones.
    rewrite (totalDrones_nonempty _ Hne).
    now apply (mean_bounds (fun drone => y (position drone))).
  - intros lo hi H. unfold avgDetectionRange, totalDrones.
    rewrite (totalDrones_nonempty _ Hne). now apply mean_bounds.
  - exact Hs.
  - destruct drones0 as [| d0 rest]; [contradiction |].
    assert (Hmax : exists hi, forall d, In d (d0 :: rest) -> 0 <= speedOf d <= hi).
    { clear. induction (d0 :: rest) as [| d l [hi IH]].
      - exists 0. intros d [].
      - exists (Rmax hi (speedOf d)). intros d' [<- | Hd].
        + split; [apply sqrt_pos | apply Rmax_r].
        + destruct (IH d' Hd). split; [assumption |].
          eapply Rle_trans; [eassumption | apply Rmax_l]. }
    destruct Hmax as [hi Hhi]. now apply (Hs 0 hi).
Qed.

(** X21.  For a non-empty list of drones each average of the statistics
    panel lies between any two bounds that hold for every drone: the
    average battery (so between 0 and 100 for percentages), the average
    altitude, the average detection range and the average speed, which is
    never negative. *)
Theorem statistics_averages_bounded (drones0 : list DroneData) :
  drones0 <> [] ->
  (forall lo hi,
      (forall d, In d drones0 -> lo <= batteryPercentage d <= hi) ->
      lo <= avgBattery drones0 <= hi)
  /\ (forall lo hi,
        (forall d, In d drones0 -> lo <= y (position d) <= hi) ->
        lo <= avgAltitude drones0 <= hi)
  /\ (forall lo hi,
        (forall d, In d drones0 -> lo <= detectionRange d <= hi) ->
        lo <= avgDetectionRange drones0 <= hi)
  /\ (forall lo hi,
        (forall d, In d drones0 -> lo <= speedOf d <= hi) ->
        lo <= avgSpeed drones0 <= hi)
  /\ 0 <= avgSpeed drones0.
Proof. exact (averages_bounded drones0). Qed.

(** The two drones of index 0: batteries 98 and 100, altitudes 5 and 40. *)
Lemma statistics_averages_bounded_witness :
  [Sample.drone1_t0; Sample.drone2_t0] <> []
  /\ 98 <= avgBattery [Sample.drone1_t0; Sample.drone2_t0] <= 100
  /\ 5 <= avgAltitude [Sample.drone1_t0; Sample.drone2_t0] <= 40.
Proof.
  assert (Hne : [Sample.drone1_t0; Sample.drone2_t0] <> []) by discriminate.
  destruct (statistics_averages_bounded _ Hne) as (Hb & Ha & _).
  split; [exact Hne |]. split.
  - apply Hb. intros d [<- | [<- | []]]; simpl; lra.
  - apply Ha. intros d [<- | [<- | []]]; simpl; lra.
Defined.

(** With no drone every average is 0, and nothing is divided. *)
Lemma averages_of_no_drone :
  avgBattery [] = 0 /\ avgSpeed [] = 0 /\ avgAltitude [] = 0
  /\ avgDetectionRange [] = 0.
Proof. repeat split. Qed.

Lemma batteryLevels_total (drones0 : list DroneData) :
  (critical (batteryLevels drones0) + low (batteryLevels drones0)
   + medium (batteryLevels drones0) + high (batteryLevels drones0)
   = totalDrones drones0)%nat.
Proof.
  unfold batteryLevels, totalDrones. cbn [critical low medium high].
  induction drones0 as [| d l IH]; [reflexivity |].
  cbn [filter].
  unfold Num.geb, Num.leb, Num.ltb in *.
  destruct (Rlt_dec (batteryPercentage d) 20),
    (Rle_dec 20 (batteryPercentage d)),
    (Rlt_dec (batteryPercentage d) 50),
    (Rle_dec 50 (batteryPercentage d)),
    (Rlt_dec (batteryPercentage d) 80),
    (Rle_dec 80 (batteryPercentage d));
    cbn [andb List.length]; try lra; lia.
Qed.

(** X22.  The four battery classes of the statistics panel (below 20,
    from 20 to below 50, from 50 to below 80, 80 and above) partition the
    drones: every drone is counted in exactly one class, so the four
    counts add up to the number of drones. *)
Theorem batteryLevels_partition (drones0 : list DroneData) :
  (critical (batteryLevels drones0) + low (batteryLevels drones0)
   + medium (batteryLevels drones0) + high (batteryLevels drones0)
   = totalDrones drones0)%nat
  /\ forall d,
       1%nat
       = ((if Num.ltb (batteryPercentage d) 20 then 1 else 0)
          + (if Num.geb (batteryPercentage d) 20
                && Num.ltb (batteryPercentage d) 50 then 1 else 0)
          + (if Num.geb (batteryPercentage d) 50
                && Num.ltb (batteryPercentage d) 80 then 1 else 0)
          + (if Num.geb (batteryPercentage d) 80 then 1 else 0))%nat.
Proof.
  split; [exact (batteryLevels_total drones0) |].
  intros d. unfold Num.geb, Num.leb, Num.ltb.
  destruct (Rlt_dec (batteryPercentage d) 20),
    (Rle_dec 20 (batteryPercentage d)),
    (Rlt_dec (batteryPercentage d) 50),
    (Rle_dec 50 (batteryPercentage d)),
    (Rlt_dec (batteryPercentage d) 80),
    (Rle_dec 80 (batteryPercentage d));
    cbn [andb]; try lra; reflexivity.
Qed.

(** ** Custom-entity store (the [/api/custom-entities] handlers of the dev
    server) *)

Module CustomStore.

(** The contents of the data file, as [readCustomData] returns them. *)
Record CustomEntityFile := {
  drones : list DroneData;
  tasks : list string
}.

(** [arr.findIndex(test)], with [None] for [-1]. *)
Fixpoint findIndex (test : DroneData -> bool) (arr : list DroneData) : option nat :=
  match arr with
  | [] => None
  | drone :: rest =>
      if test drone then Some 0%nat else option_map S (findIndex test rest)
  end.

(** [arr[index] = value]; the index comes from [findIndex] and lies within
    the array. *)
Fixpoint assign (arr : list DroneData) (index : nat) (value : DroneData)
  : list DroneData :=
  match arr, index with
  | [], _ => []
  | _ :: rest, O => value :: rest
  | drone :: rest, S index' => drone :: assign rest index' value
  end.

(** [POST /api/custom-entities/drones]: the file that is written, or [None]
    for the 400 answer (no [drone] in the payload, or an empty [droneId]),
    which writes nothing. *)
Definition postDrone (data : CustomEntityFile) (parsedDrone : option DroneData)
  : option CustomEntityFile :=
  match parsedDrone with
  | None => None
  | Some incomingDrone =>
      if String.eqb (droneId incomingDrone) "" then None
      else
        let index :=
          findIndex
            (fun drone => String.eqb (droneId drone) (droneId incomingDrone))
            (drones data) in
        Some {| drones :=
                  match index with
                  | Some i => assign (drones data) i incomingDrone
                  | None => drones data ++ [incomingDrone]
                  end;
                tasks := tasks data |}
  end.

(** [DELETE /api/custom-entities/drones/:id]. *)
Definition deleteDrone (data : CustomEntityFile) (droneId0 : string)
  : CustomEntityFile :=
  {| drones :=
       filter (fun drone => negb (String.eqb (droneId drone) droneId0))
         (drones data);
     tasks := tasks data |}.

(** [POST /api/custom-entities/tasks]: [new Set(data.tasks)], [add], and
    [Array.from]; [None] for the 400 answer. *)
Definition postTask (data : CustomEntityFile) (parsedTaskId : option string)
  : option CustomEntityFile :=
  match parsedTaskId with
  | None => None
  | Some taskId0 =>
      if String.eqb taskId0 "" then None
      else
        Some {| drones := drones data;
                tasks := Set_from [] (tasks data ++ [taskId0]) |}
  end.

End CustomStore.

Definition storedIds (data : CustomStore.CustomEntityFile) : list string :=
  map droneId (CustomStore.drones data).

Lemma findIndex_None (test : DroneData -> bool) (arr : list DroneData) :
  CustomStore.findIndex test arr = None <->
  forall drone, In drone arr -> test drone = false.
Proof.
  induction arr as [| d arr IH]; simpl.
  - split; [intros _ drone [] | reflexivity].
  - destruct (test d) eqn:E.
    + split; [discriminate |]. intros H. rewrite (H d) in E by now left.
      discriminate.
    + destruct (CustomStore.findIndex test arr); simpl.
      * split; [discriminate |]. intros H.
        assert (Some n = None) as Hn; [| discriminate].
        apply IH. intros drone Hd. apply H. now right.
      * split; [| reflexivity]. intros _ drone [<- | Hd]; [exact E |].
        now apply (proj1 IH).
Qed.

(** The index found is that of the first drone that passes the test. *)
Lemma findIndex_Some (test : DroneData -> bool) (arr : list DroneData) (i : nat) :
  CustomStore.findIndex test arr = Some i ->
  exists before found after,
    arr = before ++ found :: after
    /\ List.length before = i
    /\ test found = true
    /\ forall drone, In drone before -> test drone = false.
Proof.
  revert i. induction arr as [| d arr IH]; intros i; simpl; [discriminate |].
  destruct (test d) eqn:E.
  - intros [= <-]. exists [], d, arr. repeat split; try assumption.
    intros drone [].
  - destruct (CustomStore.findIndex test arr) as [j |]; simpl; [| discriminate].
    intros [= <-]. destruct (IH j eq_refl) as (before & found & after & -> & <- & Ht & Hb).
    exists (d :: before), found, after. repeat split; try assumption.
    intros drone [<- | Hd]; [exact E | now apply Hb].
Qed.

Lemma assign_middle (before after : list DroneData) (found value : DroneData) :
  CustomStore.assign (before ++ found :: after) (List.length before) value
  = before ++ value :: after.
Proof.
  induction before as [| d before IH]; simpl; [reflexivity |].
  now rewrite IH.
Qed.

(** What a successful [POST] of a drone writes: the first drone of the same
    id is replaced in place, and a drone of a new id is appended. *)
Lemma postDrone_value (data : CustomStore.CustomEntityFile) (incoming : DroneData) :
  droneId incoming <> ""%string ->
  exists written,
    CustomStore.postDrone data (Some incoming) = Some written
    /\ CustomStore.tasks written = CustomStore.tasks data
    /\ ((~ In (droneId incoming) (storedIds data)
         /\ CustomStore.drones written = CustomStore.drones data ++ [incoming])
        \/ (exists before found after,
              CustomStore.drones data = before ++ found :: after
              /\ droneId found = droneId incoming
              /\ ~ In (droneId incoming) (map droneId before)
              /\ CustomStore.drones written = before ++ incoming :: after)).
Proof.
  intros Hid. unfold CustomStore.postDrone.
  apply String.eqb_neq in Hid. rewrite Hid. cbv zeta.
  eexists. split; [reflexivity |]. split; [reflexivity |]. cbn [CustomStore.drones].
  destruct (CustomStore.findIndex _ (CustomStore.drones data)) as [i |] eqn:E.
  - right. apply findIndex_Some in E.
    destruct E as (before & found & after & Hd & Hl & Ht & Hb).
    exists before, found, after. split; [exact Hd |].
    split; [now apply String.eqb_eq in Ht |].
    split.
    + intros Hin. apply in_map_iff in Hin. destruct Hin as (d & Hdid & Hd').
      specialize (Hb d Hd'). apply String.eqb_neq in Hb. contradiction.
    + rewrite Hd, <- Hl. apply assign_middle.
  - left. split; [| reflexivity].
    intros Hin. apply in_map_iff in Hin. destruct Hin as (d & Hdid & Hd').
    pose proof (proj1 (findIndex_None _ _) E d Hd') as Hf.
    apply String.eqb_neq in Hf. contradiction.
Qed.

Lemma postDrone_properties (data : CustomStore.CustomEntityFile) (incoming : DroneData) :
  droneId incoming <> ""%string ->
  exists written,
    CustomStore.postDrone data (Some incoming) = Some written
    /\ CustomStore.tasks written = CustomStore.tasks data
    /\ In incoming (CustomStore.drones written)
    /\ (forall drone, In drone (CustomStore.drones written) ->
          drone = incoming \/ In drone (CustomStore.drones data))
    /\ (forall drone, In drone (CustomStore.drones data) ->
          droneId drone <> droneId incoming ->
          In drone (CustomStore.drones written))
    /\ (In (droneId incoming) (storedIds data) -> storedIds written = storedIds data)
    /\ (~ In (droneId incoming) (storedIds data) ->
        CustomStore.drones written = CustomStore.drones data ++ [incoming])
    /\ (NoDup (storedIds data) ->
        NoDup (storedIds written)
        /\ forall drone, In drone (CustomStore.drones written) ->
             droneId drone = droneId incoming -> drone = incoming).
Proof.
  intros Hid. destruct (postDrone_value data incoming Hid)
    as (written & Hw & Ht & [[Hnew Hd] | (before & found & after & Hd & Hf & Hb & Hd')]);
    exists written; (split; [exact Hw |]); (split; [exact Ht |]).
  - rewrite Hd. split; [apply in_or_app; right; now left |].
    split; [intros drone H; apply in_app_or in H; destruct H as [H | [<- | []]]; tauto |].
    split; [intros drone H _; apply in_or_app; now left |].
    split; [intros H; contradiction |].
    split; [reflexivity |].
    intros Hnd. unfold storedIds in *. rewrite Hd, map_app. cbn [map]. split.
    + apply NoDup_app; [exact Hnd | repeat constructor; intros [] |].
      intros s Hs [<- | []]. contradiction.
    + intros drone H Hdid. apply in_app_or in H. destruct H as [H | [<- | []]];
        [| reflexivity].
      exfalso. apply Hnew. rewrite <- Hdid. now apply in_map.
  - rewrite Hd'. split; [apply in_or_app; right; now left |].
    split.
    { intros drone H. apply in_app_or in H. destruct H as [H | [<- | H]].
      - right. rewrite Hd. apply in_or_app. now left.
      - now left.
      - right. rewrite Hd. apply in_or_app. right. now right. }
    split.
    { intros drone H Hne. rewrite Hd in H. apply in_app_or in H.
      destruct H as [H | [<- | H]].
      - apply in_or_app. now left.
      - contradiction.
      - apply in_or_app. right. now right. }
    assert (Hids : storedIds written = storedIds data).
    { unfold storedIds. rewrite Hd, Hd', !map_app. cbn [map]. now rewrite Hf. }
    split; [intros _; exact Hids |].
    split.
    { intros Hn. exfalso. apply Hn. unfold storedIds. rewrite Hd, map_app.
      apply in_or_app. right. left. exact Hf. }
    intros Hnd. split; [now rewrite Hids |].
    intros drone H Hdid. apply in_app_or in H. destruct H as [H | [<- | H]].
    + exfalso. apply Hb. rewrite <- Hdid. now apply in_map.
    + reflexivity.
    + exfalso. unfold storedIds in Hnd. rewrite Hd, map_app in Hnd.
      apply NoDup_remove_2 in Hnd. apply Hnd. apply in_or_app. right.
      cbn [map]. rewrite Hf, <- Hdid. now apply in_map.
Qed.

(** X23.  A [POST] of a drone with a non-empty id succeeds and is an
    upsert: the tasks are untouched; the posted drone is stored; every
    stored drone is the posted one or was stored before; drones of other
    ids are kept; when the id was stored already the sequence of ids (and
    with it the number of drones) is unchanged, otherwise the drone is
    appended at the end; and a store with pairwise distinct ids stays so,
    the posted drone being then the only one of its id. *)
Theorem postDrone_upserts (data : CustomStore.CustomEntityFile)
  (incoming : DroneData) :
  droneId incoming <> ""%string ->
  exists written,
    CustomStore.postDrone data (Some incoming) = Some written
    /\ CustomStore.tasks written = CustomStore.tasks data
    /\ In incoming (CustomStore.drones written)
    /\ (forall drone, In drone (CustomStore.drones written) ->
          drone = incoming \/ In drone (CustomStore.drones data))
    /\ (forall drone, In drone (CustomStore.drones data) ->
          droneId drone <> droneId incoming ->
          In drone (CustomStore.drones written))
    /\ (In (droneId incoming) (storedIds data) -> storedIds written = storedIds data)
    /\ (~ In (droneId incoming) (storedIds data) ->
        CustomStore.drones written = CustomStore.drones data ++ [incoming])
    /\ (NoDup (storedIds data) ->
        NoDup (storedIds written)
        /\ forall drone, In drone (CustomStore.drones written) ->
             droneId drone = droneId incoming -> drone = incoming).
Proof. exact (postDrone_properties data incoming). Qed.

(** A store that holds drone-1 and drone-2 of index 0. *)
Definition sampleStore : CustomStore.CustomEntityFile :=
  {| CustomStore.drones := [Sample.drone1_t0; Sample.drone2_t0];
     CustomStore.tasks := ["taking-off"%string] |}.

(** Posting drone-1 of index 1 replaces the stored drone-1 in place. *)
Lemma postDrone_upserts_witness :
  droneId Sample.drone1_t1 <> ""%string
  /\ exists written,
       CustomStore.postDrone sampleStore (Some Sample.drone1_t1) = Some written
       /\ storedIds written = ["drone-1"; "drone-2"]%string
       /\ In Sample.drone1_t1 (CustomStore.drones written).
Proof.
  assert (Hid : droneId Sample.drone1_t1 <> ""%string) by discriminate.
  split; [exact Hid |].
  destruct (postDrone_upserts sampleStore Sample.drone1_t1 Hid)
    as (written & Hw & _ & Hin & _ & _ & Hids & _).
  exists written. split; [exact Hw |]. split; [| exact Hin].
  apply Hids. simpl. now left.
Defined.

(** The two 400 answers of the drone handler. *)
Lemma postDrone_rejects (data : CustomStore.CustomEntityFile) (incoming : DroneData) :
  CustomStore.postDrone data None = None
  /\ (droneId incoming = ""%string ->
      CustomStore.postDrone data (Some incoming) = None).
Proof.
  split; [reflexivity |]. intros H. unfold CustomStore.postDrone. now rewrite H.
Qed.

Lemma filter_negb_id_absent (droneId0 : string) (l : list DroneData) :
  ~ In droneId0 (map droneId l) ->
  filter (fun drone => negb (String.eqb (droneId drone) droneId0)) l = l.
Proof.
  induction l as [| d l IH]; intros H; simpl; [reflexivity |].
  destruct (String.eqb (droneId d) droneId0) eqn:E.
  - exfalso. apply H. left. now apply String.eqb_eq.
  - simpl. rewrite IH; [reflexivity |]. intros Hin. apply H. now right.
Qed.

Lemma deleteDrone_properties (data : CustomStore.CustomEntityFile)
  (droneId0 : string) :
  CustomStore.tasks (CustomStore.deleteDrone data droneId0) = CustomStore.tasks data
  /\ ~ In droneId0 (storedIds (CustomStore.deleteDrone data droneId0))
  /\ (forall drone,
        In drone (CustomStore.drones (CustomStore.deleteDrone data droneId0))
        <-> In drone (CustomStore.drones data) /\ droneId drone <> droneId0)
  /\ (~ In droneId0 (storedIds data) ->
      CustomStore.deleteDrone data droneId0 = data)
  /\ (forall incoming written,
        droneId incoming = droneId0 ->
        ~ In droneId0 (storedIds data) ->
        CustomStore.postDrone data (Some incoming) = Some written ->
        CustomStore.deleteDrone written droneId0 = data).
Proof.
  assert (Hin : forall drone,
             In drone (CustomStore.drones (CustomStore.deleteDrone data droneId0))
             <-> In drone (CustomStore.drones data) /\ droneId drone <> droneId0).
  { intros drone. unfold CustomStore.deleteDrone. cbn [CustomStore.drones].
    rewrite filter_In, negb_true_iff, String.eqb_neq. tauto. }
  assert (Habsent : forall data',
             ~ In droneId0 (storedIds data') ->
             CustomStore.deleteDrone data' droneId0 = data').
  { intros data' H. unfold CustomStore.deleteDrone.
    rewrite filter_negb_id_absent by exact H. now destruct data'. }
  split; [reflexivity |]. split.
  { intros H. unfold storedIds in H. apply in_map_iff in H.
    destruct H as (drone & Hid & Hd). apply Hin in Hd. tauto. }
  split; [exact Hin |]. split; [apply Habsent |].
  intros incoming written Hid Hnew Hpost.
  unfold CustomStore.postDrone in Hpost.
  destruct (String.eqb (droneId incoming) ""); [discriminate |].
  cbv zeta in Hpost.
  destruct (CustomStore.findIndex _ (CustomStore.drones data)) as [i |] eqn:E.
  - exfalso. apply findIndex_Some in E.
    destruct E as (before & found & after & Hd & _ & Ht & _).
    apply Hnew. unfold storedIds. rewrite Hd, map_app. apply in_or_app.
    right. left. apply String.eqb_eq in Ht. congruence.
  - injection Hpost as <-. unfold CustomStore.deleteDrone.
    cbn [CustomStore.drones CustomStore.tasks].
    rewrite filter_app. cbn [filter]. rewrite Hid, String.eqb_refl. cbn [negb].
    rewrite app_nil_r, filter_negb_id_absent by exact Hnew. now destruct data.
Qed.

(** X24.  A [DELETE] of an id leaves the tasks alone and removes exactly the
    drones of that id; deleting an id that is not stored changes nothing;
    and posting a drone of a new id and deleting that id again restores the
    file as it was. *)
Theorem deleteDrone_spec (data : CustomStore.CustomEntityFile) (droneId0 : string) :
  CustomStore.tasks (CustomStore.deleteDrone data droneId0) = CustomStore.tasks data
  /\ ~ In droneId0 (storedIds (CustomStore.deleteDrone data droneId0))
  /\ (forall drone,
        In drone (CustomStore.drones (CustomStore.deleteDrone data droneId0))
        <-> In drone (CustomStore.drones data) /\ droneId drone <> droneId0)
  /\ (~ In droneId0 (storedIds data) ->
      CustomStore.deleteDrone data droneId0 = data)
  /\ (forall incoming written,
        droneId incoming = droneId0 ->
        ~ In droneId0 (storedIds data) ->
        CustomStore.postDrone data (Some incoming) = Some written ->
        CustomStore.deleteDrone written droneId0 = data).
Proof. exact (deleteDrone_properties data droneId0). Qed.

Lemma Set_from_absorbs (seen l more : list string) :
  (forall s, In s more -> In s l \/ In s seen) ->
  Set_from seen (l ++ more) = Set_from seen l.
Proof.
  revert seen. induction l as [| i l IH]; intros seen H.
  - cbn [app]. induction more as [| m more IHm]; [reflexivity |].
    cbn [Set_from].
    assert (Hm : In m seen) by (destruct (H m (or_introl eq_refl)) as [[] | Hs]; exact Hs).
    apply includes_In in Hm. rewrite Hm. apply IHm.
    intros s Hs. apply H. now right.
  - cbn [app Set_from]. destruct (includes seen i) eqn:E.
    + apply IH. intros s Hs. destruct (H s Hs) as [[<- | Hl] | Hseen];
        [| tauto | tauto].
      right. now apply includes_In.
    + f_equal. apply IH. intros s Hs. destruct (H s Hs) as [[<- | Hl] | Hseen].
      * right. now left.
      * now left.
      * right. now right.
Qed.

Lemma Set_from_distinct (seen l : list string) :
  NoDup l -> (forall s, In s l -> ~ In s seen) -> Set_from seen l = l.
Proof.
  revert seen. induction l as [| i l IH]; intros seen Hnd H; [reflexivity |].
  cbn [Set_from]. inversion Hnd as [| i' l' Hni Hnd']; subst.
  destruct (includes seen i) eqn:E.
  - apply includes_In in E. exfalso. apply (H i); [now left | exact E].
  - f_equal. apply IH; [exact Hnd' |].
    intros s Hs [<- | Hseen]; [contradiction |].
    apply (H s); [now right | exact Hseen].
Qed.

Lemma postTask_properties (data : CustomStore.CustomEntityFile) (taskId0 : string) :
  taskId0 <> ""%string ->
  exists written,
    CustomStore.postTask data (Some taskId0) = Some written
    /\ CustomStore.drones written = CustomStore.drones data
    /\ NoDup (CustomStore.tasks written)
    /\ (forall task, In task (CustomStore.tasks written)
                     <-> In task (CustomStore.tasks data) \/ task = taskId0)
    /\ (NoDup (CustomStore.tasks data) ->
        In taskId0 (CustomStore.tasks data) ->
        written = data)
    /\ (NoDup (CustomStore.tasks data) ->
        ~ In taskId0 (CustomStore.tasks data) ->
        CustomStore.tasks written = CustomStore.tasks data ++ [taskId0])
    /\ CustomStore.postTask written (Some taskId0) = Some written.
Proof.
  intros Hid. unfold CustomStore.postTask at 1.
  apply String.eqb_neq in Hid. rewrite Hid.
  eexists. split; [reflexivity |]. cbn [CustomStore.drones CustomStore.tasks].
  split; [reflexivity |]. split; [apply Set_from_NoDup |].
  assert (Hin : forall task,
             In task (Set_from [] (CustomStore.tasks data ++ [taskId0]))
             <-> In task (CustomStore.tasks data) \/ task = taskId0).
  { intros task. rewrite Set_from_In, in_app_iff. simpl. intuition. }
  split; [exact Hin |]. split; [| split].
  - intros Hnd Hold. rewrite Set_from_absorbs.
    + rewrite Set_from_distinct; [now destruct data | exact Hnd | intros s _ []].
    + intros s [<- | []]. now left.
  - intros Hnd Hnew. apply Set_from_distinct; [| intros s _ []].
    apply NoDup_app; [exact Hnd | repeat constructor; intros [] |].
    intros s Hs [<- | []]. contradiction.
  - unfold CustomStore.postTask. rewrite Hid.
    cbn [CustomStore.drones CustomStore.tasks]. f_equal. f_equal.
    rewrite Set_from_absorbs.
    + apply Set_from_distinct; [apply Set_from_NoDup | intros s _ []].
    + intros s [<- | []]. left. apply Hin. now right.
Qed.

(** X25.  A [POST] of a non-empty task id succeeds, leaves the drones
    alone and writes a duplicate-free task list that holds the old tasks
    and the posted one and nothing else; on a duplicate-free list a task
    that is present changes nothing and a new task is appended at the end;
    posting the same task a second time changes nothing. *)
Theorem postTask_spec (data : CustomStore.CustomEntityFile) (taskId0 : string) :
  taskId0 <> ""%string ->
  exists written,
    CustomStore.postTask data (Some taskId0) = Some written
    /\ CustomStore.drones written = CustomStore.drones data
    /\ NoDup (CustomStore.tasks written)
    /\ (forall task, In task (CustomStore.tasks written)
                     <-> In task (CustomStore.tasks data) \/ task = taskId0)
    /\ (NoDup (CustomStore.tasks data) ->
        In taskId0 (CustomStore.tasks data) ->
        written = data)
    /\ (NoDup (CustomStore.tasks data) ->
        ~ In taskId0 (CustomStore.tasks data) ->
        CustomStore.tasks written = CustomStore.tasks data ++ [taskId0])
    /\ CustomStore.postTask written (Some taskId0) = Some written.
Proof. exact (postTask_properties data taskId0). Qed.

(** Posting the new task "scouting" to the sample store appends it. *)
Lemma postTask_spec_witness :
  "scouting"%string <> ""%string
  /\ exists written,
       CustomStore.postTask sampleStore (Some "scouting"%string) = Some written
       /\ CustomStore.tasks written = ["taking-off"; "scouting"]%string.
Proof.
  assert (Hid : "scouting"%string <> ""%string) by discriminate.
  split; [exact Hid |].
  destruct (postTask_spec sampleStore "scouting"%string Hid)
    as (written & Hw & _ & _ & _ & _ & Hnew & _).
  exists written. split; [exact Hw |].
  apply Hnew.
  - simpl. repeat constructor. intros [].
  - simpl. intros [H | []]. discriminate.
Defined.

(** ** Time-point series (DroneSwarmDashboard.tsx) *)

Module Series.

(** The label of an entry: a stored label [dataset.timePointLabels[index]],
    or one of the template strings [`T${timePoint}`], [`AI-${timePoint}`]. *)
Inductive Label :=
| Stored (text : string)
| T (timePoint : Z)
| AI (timePoint : Z).

Record Entry := {
  timePoint : Z;
  label : Label;
  drones : list DroneData
}.

End Series.

(** A [Map<number, V>] with integer keys, in insertion order; [set] on a
    key that is present overwrites its value in place. *)
Module NumMap.

Definition t (V : Type) : Type := list (Z * V).

Fixpoint set {V : Type} (m : t V) (k : Z) (v : V) : t V :=
  match m with
  | [] => [(k, v)]
  | (k', v') :: m' =>
      if (k' =? k)%Z then (k', v) :: m' else (k', v') :: set m' k v
  end.

Fixpoint get {V : Type} (m : t V) (k : Z) : option V :=
  match m with
  | [] => None
  | (k', v) :: m' => if (k' =? k)%Z then Some v else get m' k
  end.

End NumMap.

(** [dataset.timePointLabels?.[index] ?? `T${timePoint}`]. *)
Definition labelAt (dataset : DroneSwarmDataset) (index : nat) (timePoint0 : Z)
  : Series.Label :=
  match timePointLabels dataset with
  | Some labels =>
      match nth_error labels index with
      | Some text => Series.Stored text
      | None => Series.T timePoint0
      end
  | None => Series.T timePoint0
  end.

(** The callback of [dataset.timePoints.map], [None] for [null]. *)
Definition baseEntryOf (dataset : DroneSwarmDataset) (filters : VisualizationFilters)
  (timePoint0 : Z) (index : nat) : option Series.Entry :=
  let dronesAtTime :=
    filter (matchesFilters filters) (getDronesAtTime dataset timePoint0) in
  if (List.length dronesAtTime =? 0)%nat then None
  else
    Some {| Series.timePoint := timePoint0;
            Series.label := labelAt dataset index timePoint0;
            Series.drones := dronesAtTime |}.

(** [timePoints.map(callback).filter(entry => entry !== null)], from the
    index [index] on. *)
Fixpoint baseSeriesFrom (dataset : DroneSwarmDataset) (filters : VisualizationFilters)
  (index : nat) (timePoints0 : list Z) : list Series.Entry :=
  match timePoints0 with
  | [] => []
  | timePoint0 :: rest =>
      match baseEntryOf dataset filters timePoint0 index with
      | Some entry => entry :: baseSeriesFrom dataset filters (S index) rest
      | None => baseSeriesFrom dataset filters (S index) rest
      end
  end.

Definition baseSeriesOf (dataset : DroneSwarmDataset) (filters : VisualizationFilters)
  : list Series.Entry :=
  baseSeriesFrom dataset filters 0 (timePoints dataset).

(** The body of [customDrones.forEach]; a drone's [timePoint] is a number,
    so that the [Math.floor(currentTime)] alternative is not taken. *)
Definition customByTimeStep (filters : VisualizationFilters)
  (customByTime : NumMap.t (list DroneData)) (drone : DroneData)
  : NumMap.t (list DroneData) :=
  if negb (matchesFilters filters drone) then customByTime
  else
    let timePoint0 := timePoint drone in
    let existing :=
      match NumMap.get customByTime timePoint0 with
      | Some found => found
      | None => []
      end in
    NumMap.set customByTime timePoint0 (existing ++ [drone]).

Definition customByTimeOf (filters : VisualizationFilters)
  (customDrones : list DroneData) : NumMap.t (list DroneData) :=
  fold_left (customByTimeStep filters) customDrones [].

(** [(a, b) => a[0] - b[0]]. *)
Definition compareKey (a b : Z * list DroneData) : Z := (fst a - fst b)%Z.

Definition customEntryOf (entry : Z * list DroneData) : Series.Entry :=
  {| Series.timePoint := fst entry;
     Series.label := Series.AI (fst entry);
     Series.drones := snd entry |}.

Definition customEntriesOf (filters : VisualizationFilters)
  (customDrones : list DroneData) : list Series.Entry :=
  map customEntryOf (Array_sort compareKey (customByTimeOf filters customDrones)).

Definition timePointSeries (dataset : DroneSwarmDataset)
  (filters : VisualizationFilters) (customDrones : list DroneData)
  : list Series.Entry :=
  let baseSeries := baseSeriesOf dataset filters in
  if (List.length customDrones =? 0)%nat then baseSeries
  else baseSeries ++ customEntriesOf filters customDrones.

Lemma length_filter_zero {A : Type} (p : A -> bool) (l : list A) :
  (List.length (filter p l) =? 0)%nat = negb (existsb p l).
Proof.
  induction l as [| a l IH]; [reflexivity |].
  simpl. destruct (p a); [reflexivity | exact IH].
Qed.

Lemma baseEntryOf_Some dataset filters timePoint0 index entry :
  baseEntryOf dataset filters timePoint0 index = Some entry ->
  Series.timePoint entry = timePoint0
  /\ Series.label entry = labelAt dataset index timePoint0
  /\ Series.drones entry
     = filter (matchesFilters filters) (getDronesAtTime dataset timePoint0)
  /\ Series.drones entry <> [].
Proof.
  unfold baseEntryOf. cbv zeta.
  destruct (filter _ _) as [| d l] eqn:E; simpl; [discriminate |].
  intros [= <-]. simpl. repeat split. discriminate.
Qed.

Lemma baseSeriesFrom_In dataset filters index timePoints0 entry :
  In entry (baseSeriesFrom dataset filters index timePoints0) ->
  exists timePoint0 index',
    In timePoint0 timePoints0
    /\ baseEntryOf dataset filters timePoint0 index' = Some entry.
Proof.
  revert index. induction timePoints0 as [| tp rest IH]; intros index; simpl;
    [intros [] |].
  destruct (baseEntryOf dataset filters tp index) as [e |] eqn:E.
  - intros [<- | H].
    + exists tp, index. split; [now left | exact E].
    + destruct (IH _ H) as (tp' & i' & Hin & He). exists tp', i'. tauto.
  - intros H. destruct (IH _ H) as (tp' & i' & Hin & He). exists tp', i'. tauto.
Qed.

(** An entry stems from the time point at some index [k] of the array, and
    the callback was given that index. *)
Lemma baseSeriesFrom_In_index dataset filters index timePoints0 entry :
  In entry (baseSeriesFrom dataset filters index timePoints0) ->
  exists k timePoint0,
    nth_error timePoints0 k = Some timePoint0
    /\ baseEntryOf dataset filters timePoint0 (index + k) = Some entry.
Proof.
  revert index. induction timePoints0 as [| tp rest IH]; intros index; simpl;
    [intros [] |].
  assert (Hrest : In entry (baseSeriesFrom dataset filters (S index) rest) ->
                  exists k timePoint0,
                    nth_error (tp :: rest) k = Some timePoint0
                    /\ baseEntryOf dataset filters timePoint0 (index + k)
                       = Some entry).
  { intros H. destruct (IH _ H) as (k & tp' & Hk & He).
    exists (S k), tp'. split; [exact Hk |].
    replace (index + S k)%nat with (S index + k)%nat by lia. exact He. }
  destruct (baseEntryOf dataset filters tp index) as [e |] eqn:E.
  - intros [<- | H]; [| now apply Hrest].
    exists 0%nat, tp. split; [reflexivity |]. now rewrite Nat.add_0_r.
  - exact Hrest.
Qed.

Lemma baseSeriesFrom_complete dataset filters index timePoints0 timePoint0 :
  In timePoint0 timePoints0 ->
  filter (matchesFilters filters) (getDronesAtTime dataset timePoint0) <> [] ->
  exists entry,
    In entry (baseSeriesFrom dataset filters index timePoints0)
    /\ Series.timePoint entry = timePoint0
    /\ Series.drones entry
       = filter (matchesFilters filters) (getDronesAtTime dataset timePoint0).
Proof.
  revert index. induction timePoints0 as [| tp rest IH]; intros index; simpl;
    [intros [] |].
  intros [-> | Hin] Hne.
  - unfold baseEntryOf. cbv zeta.
    destruct (filter _ _) as [| d l] eqn:E; [contradiction |]. simpl.
    eexists. split; [now left |]. split; reflexivity.
  - destruct (IH (S index) Hin Hne) as (entry & He & Ht & Hd).
    exists entry. split; [| tauto].
    destruct (baseEntryOf dataset filters tp index); [now right | exact He].
Qed.

Lemma baseSeriesFrom_timePoints dataset filters index timePoints0 :
  map Series.timePoint (baseSeriesFrom dataset filters index timePoints0)
  = filter
      (fun timePoint0 =>
         existsb (matchesFilters filters) (getDronesAtTime dataset timePoint0))
      timePoints0.
Proof.
  revert index. induction timePoints0 as [| tp rest IH]; intros index; simpl;
    [reflexivity |].
  unfold baseEntryOf. cbv zeta. rewrite length_filter_zero.
  destruct (existsb _ _); simpl; now rewrite IH.
Qed.

Lemma NumMap_get_set {V : Type} (m : NumMap.t V) (k k' : Z) (v : V) :
  NumMap.get (NumMap.set m k v) k'
  = if (k =? k')%Z then Some v else NumMap.get m k'.
Proof.
  induction m as [| [k0 v0] m IH]; simpl.
  - reflexivity.
  - destruct (k0 =? k)%Z eqn:E; simpl.
    + apply Z.eqb_eq in E. subst k0. now destruct (k =? k')%Z.
    + rewrite IH. destruct (k0 =? k')%Z eqn:E'; [| reflexivity].
      apply Z.eqb_eq in E'. subst k0. now rewrite Z.eqb_sym, E.
Qed.

Lemma NumMap_keys_set {V : Type} (m : NumMap.t V) (k : Z) (v : V) :
  (forall k', In k' (map fst (NumMap.set m k v)) <-> k' = k \/ In k' (map fst m))
  /\ (NoDup (map fst m) -> NoDup (map fst (NumMap.set m k v))).
Proof.
  induction m as [| [k0 v0] m [IH1 IH2]]; simpl.
  - split; [intros k'; split; intros [H | H]; auto |].
    intros _. repeat constructor. intros [].
  - destruct (k0 =? k)%Z eqn:E; simpl.
    + apply Z.eqb_eq in E. subst k0.
      split; [intros k'; intuition (subst; auto) | trivial].
    + split.
      * intros k'. rewrite IH1. intuition (subst; auto).
      * intros Hnd. inversion Hnd as [| k1 l1 Hni Hnd']; subst.
        constructor; [| now apply IH2].
        rewrite IH1. intros [-> | H]; [| contradiction].
        now rewrite Z.eqb_refl in E.
Qed.

Lemma NumMap_get_None {V : Type} (m : NumMap.t V) (k : Z) :
  NumMap.get m k = None <-> ~ In k (map fst m).
Proof.
  induction m as [| [k0 v0] m IH]; simpl.
  - tauto.
  - destruct (k0 =? k)%Z eqn:E.
    + apply Z.eqb_eq in E. split; [discriminate | tauto].
    + apply Z.eqb_neq in E. rewrite IH. tauto.
Qed.

Lemma NumMap_In_get {V : Type} (m : NumMap.t V) (k : Z) (v : V) :
  NoDup (map fst m) -> (In (k, v) m <-> NumMap.get m k = Some v).
Proof.
  induction m as [| [k0 v0] m IH]; simpl; intros Hnd.
  - split; [intros [] | discriminate].
  - inversion Hnd as [| k1 l1 Hni Hnd']; subst.
    destruct (k0 =? k)%Z eqn:E.
    + apply Z.eqb_eq in E. subst k0. split.
      * intros [[= ->] | H]; [reflexivity |].
        exfalso. apply Hni. now apply (in_map fst) in H.
      * intros [= ->]. now left.
    + apply Z.eqb_neq in E. rewrite <- (IH Hnd'). split.
      * intros [[= -> _] | H]; [contradiction | exact H].
      * now right.
Qed.

(** The drones of [l] that the loop files under the key [k]. *)
Definition filedUnder (filters : VisualizationFilters) (k : Z)
  (l : list DroneData) : list DroneData :=
  filter (fun drone => matchesFilters filters drone && (timePoint drone =? k)%Z) l.

Definition groupOf (m : NumMap.t (list DroneData)) (k : Z) : list DroneData :=
  match NumMap.get m k with
  | Some found => found
  | None => []
  end.

Lemma customByTimeStep_spec (filters : VisualizationFilters)
  (m0 : NumMap.t (list DroneData)) (d : DroneData) :
  (NoDup (map fst m0) -> NoDup (map fst (customByTimeStep filters m0 d)))
  /\ (forall k, groupOf (customByTimeStep filters m0 d) k
                = groupOf m0 k ++ filedUnder filters k [d])
  /\ (forall k, NumMap.get (customByTimeStep filters m0 d) k = None <->
                NumMap.get m0 k = None /\ filedUnder filters k [d] = []).
Proof.
  unfold customByTimeStep, filedUnder. cbn [filter].
  destruct (matchesFilters filters d) eqn:Em; cbn [negb andb]; cbv zeta.
  - split; [| split].
    + intros Hnd. now apply NumMap_keys_set.
    + intros k. unfold groupOf at 1. rewrite NumMap_get_set.
      destruct (timePoint d =? k)%Z eqn:E.
      * apply Z.eqb_eq in E. subst k. reflexivity.
      * now rewrite app_nil_r.
    + intros k. rewrite NumMap_get_set.
      destruct (timePoint d =? k)%Z; split; intros H;
        try discriminate; try tauto.
      destruct H as [_ H]. discriminate.
  - split; [trivial |]. split; [intros k; now rewrite app_nil_r | tauto].
Qed.

Lemma filedUnder_cons (filters : VisualizationFilters) (k : Z) (d : DroneData)
  (l : list DroneData) :
  filedUnder filters k (d :: l) = filedUnder filters k [d] ++ filedUnder filters k l.
Proof.
  unfold filedUnder. cbn [filter].
  now destruct (matchesFilters filters d && (timePoint d =? k)%Z).
Qed.

Lemma customByTime_loop (filters : VisualizationFilters) (l : list DroneData)
  (m0 : NumMap.t (list DroneData)) :
  let m' := fold_left (customByTimeStep filters) l m0 in
  (NoDup (map fst m0) -> NoDup (map fst m'))
  /\ (forall k, groupOf m' k = groupOf m0 k ++ filedUnder filters k l)
  /\ (forall k, NumMap.get m' k = None <->
                NumMap.get m0 k = None /\ filedUnder filters k l = []).
Proof.
  revert m0. induction l as [| d l IH]; intros m0; cbv zeta.
  - simpl. split; [trivial |]. split; [intros k; now rewrite app_nil_r | tauto].
  - cbn [fold_left]. specialize (IH (customByTimeStep filters m0 d)).
    cbv zeta in IH. destruct IH as (IHn & IHg & IHk).
    destruct (customByTimeStep_spec filters m0 d) as (Sn & Sg & Sk).
    split; [| split].
    + intros Hnd. apply IHn. now apply Sn.
    + intros k. rewrite IHg, Sg, (filedUnder_cons filters k d l).
      symmetry. apply app_assoc.
    + intros k. rewrite IHk, Sk, (filedUnder_cons filters k d l). split.
      * intros [[H1 H2] H3]. split; [exact H1 |]. now rewrite H2, H3.
      * intros [H1 H2]. apply app_eq_nil in H2. tauto.
Qed.

Lemma customByTimeOf_spec (filters : VisualizationFilters)
  (customDrones : list DroneData) :
  NoDup (map fst (customByTimeOf filters customDrones))
  /\ forall k v,
       In (k, v) (customByTimeOf filters customDrones)
       <-> v = filedUnder filters k customDrones /\ v <> [].
Proof.
  destruct (customByTime_loop filters customDrones []) as (Hn & Hg & Hk).
  fold (customByTimeOf filters customDrones) in Hn, Hg, Hk.
  assert (Hnd : NoDup (map fst (customByTimeOf filters customDrones)))
    by (apply Hn; constructor).
  split; [exact Hnd |]. intros k v. rewrite (NumMap_In_get _ _ _ Hnd).
  specialize (Hg k). specialize (Hk k). unfold groupOf in Hg. simpl in Hg, Hk.
  destruct (NumMap.get (customByTimeOf filters customDrones) k) as [found |].
  - split.
    + intros [= ->]. split; [exact Hg |]. intros Hv.
      assert (Some v = None) as Hx; [| discriminate].
      apply Hk. split; [reflexivity |]. rewrite <- Hg. exact Hv.
    + intros [-> _]. now rewrite Hg.
  - split; [discriminate |]. intros [-> Hne]. exfalso. apply Hne.
    now apply (proj1 Hk).
Qed.

Lemma Array_insert_sorted_by {A : Type} (key : A -> Z) (a : A) (l : list A) :
  StronglySorted (fun u v => (key u <= key v)%Z) l ->
  StronglySorted (fun u v => (key u <= key v)%Z)
    (Array_insert (fun u v => (key u - key v)%Z) a l).
Proof.
  induction 1 as [| b l Hs IH Hall]; simpl.
  - constructor; constructor.
  - destruct (key a - key b <=? 0)%Z eqn:E.
    + apply Z.leb_le in E. constructor.
      * now constructor.
      * constructor; [lia |].
        eapply Forall_impl; [| exact Hall]. intros c Hc. simpl in *. lia.
    + apply Z.leb_gt in E. constructor; [assumption |].
      eapply Permutation_Forall.
      * symmetry. apply Array_insert_perm.
      * constructor; [lia | assumption].
Qed.

Lemma Array_sort_sorted_by {A : Type} (key : A -> Z) (l : list A) :
  StronglySorted (fun u v => (key u <= key v)%Z)
    (Array_sort (fun u v => (key u - key v)%Z) l).
Proof.
  induction l as [| a l IH]; simpl; [constructor |].
  now apply Array_insert_sorted_by.
Qed.

(** Ascending and pairwise distinct keys ascend strictly. *)
Lemma sorted_distinct_keys {A : Type} (key : A -> Z) (l : list A) :
  StronglySorted (fun u v => (key u <= key v)%Z) l ->
  NoDup (map key l) ->
  StronglySorted Z.lt (map key l).
Proof.
  induction 1 as [| a l Hs IH Hall]; simpl; intros Hnd; [constructor |].
  inversion Hnd as [| k ks Hni Hnd']; subst.
  constructor; [now apply IH |].
  apply Forall_forall. intros k Hk. apply in_map_iff in Hk.
  destruct Hk as (b & <- & Hb).
  rewrite Forall_forall in Hall. specialize (Hall b Hb). simpl in Hall.
  assert (key a <> key b) by (intros E; apply Hni; rewrite E; now apply in_map).
  lia.
Qed.

Lemma customEntriesOf_spec (filters : VisualizationFilters)
  (customDrones : list DroneData) :
  StronglySorted Z.lt (map Series.timePoint (customEntriesOf filters customDrones))
  /\ forall entry,
       In entry (customEntriesOf filters customDrones)
       <-> Series.label entry = Series.AI (Series.timePoint entry)
           /\ Series.drones entry
              = filedUnder filters (Series.timePoint entry) customDrones
           /\ Series.drones entry <> [].
Proof.
  destruct (customByTimeOf_spec filters customDrones) as [Hnd Hin].
  unfold customEntriesOf.
  pose proof (Array_sort_perm compareKey (customByTimeOf filters customDrones))
    as Hperm.
  split.
  - rewrite map_map. cbn [customEntryOf Series.timePoint].
    apply sorted_distinct_keys.
    + apply (Array_sort_sorted_by (fun entry : Z * list DroneData => fst entry)).
    + eapply Permutation_NoDup; [| exact Hnd].
      apply Permutation_map. now symmetry.
  - intros entry. rewrite in_map_iff. split.
    + intros ([k v] & <- & H). simpl.
      apply (Permutation_in _ Hperm) in H. apply Hin in H. tauto.
    + intros (Hl & Hd & Hne).
      exists (Series.timePoint entry, Series.drones entry). split.
      * destruct entry as [tp lab ds]. unfold customEntryOf. simpl in *.
        now rewrite Hl.
      * apply (Permutation_in _ (Permutation_sym Hperm)). apply Hin.
        simpl. tauto.
Qed.

(** Without custom drones nothing is appended, whichever branch is taken. *)
Lemma timePointSeries_app dataset filters customDrones :
  timePointSeries dataset filters customDrones
  = baseSeriesOf dataset filters ++ customEntriesOf filters customDrones.
Proof.
  unfold timePointSeries. cbv zeta. destruct customDrones as [| d l].
  - simpl. now rewrite app_nil_r.
  - reflexivity.
Qed.

Lemma getDronesAtTime_In dataset timePoint0 drone :
  In drone (getDronesAtTime dataset timePoint0)
  <-> In drone (drones dataset) /\ timePoint drone = timePoint0.
Proof.
  unfold getDronesAtTime. rewrite filter_In, Z.eqb_eq. tauto.
Qed.

Lemma timePointSeries_properties dataset filters customDrones :
  let series := timePointSeries dataset filters customDrones in
  (forall entry, In entry series ->
     Series.drones entry <> []
     /\ forall d, In d (Series.drones entry) ->
          matchesFilters filters d = true
          /\ timePoint d = Series.timePoint entry)
  /\ (forall d,
        (exists entry, In entry series /\ In d (Series.drones entry))
        <-> matchesFilters filters d = true
            /\ ((In d (drones dataset) /\ In (timePoint d) (timePoints dataset))
                \/ In d customDrones))
  /\ exists base custom,
       series = base ++ custom
       /\ map Series.timePoint base
          = filter
              (fun timePoint0 =>
                 existsb (matchesFilters filters)
                   (getDronesAtTime dataset timePoint0))
              (timePoints dataset)
       /\ (forall entry, In entry base ->
            Series.drones entry
            = filter (matchesFilters filters)
                (getDronesAtTime dataset (Series.timePoint entry))
            /\ exists index,
                 nth_error (timePoints dataset) index
                 = Some (Series.timePoint entry)
                 /\ Series.label entry
                    = labelAt dataset index (Series.timePoint entry))
       /\ StronglySorted Z.lt (map Series.timePoint custom)
       /\ (forall entry,
            In entry custom
            <-> Series.label entry = Series.AI (Series.timePoint entry)
                /\ Series.drones entry
                   = filter
                       (fun drone =>
                          matchesFilters filters drone
                          && (timePoint drone =? Series.timePoint entry)%Z)
                       customDrones
                /\ Series.drones entry <> []).
Proof.
  cbv zeta. rewrite timePointSeries_app.
  destruct (customEntriesOf_spec filters customDrones) as [Hsorted Hcustom].
  assert (Hbase : forall entry, In entry (baseSeriesOf dataset filters) ->
            exists timePoint0,
              In timePoint0 (timePoints dataset)
              /\ Series.timePoint entry = timePoint0
              /\ Series.drones entry
                 = filter (matchesFilters filters)
                     (getDronesAtTime dataset timePoint0)
              /\ Series.drones entry <> []).
  { intros entry H. apply baseSeriesFrom_In in H.
    destruct H as (tp & i & Hin & He). apply baseEntryOf_Some in He.
    exists tp. tauto. }
  split; [| split].
  - intros entry H. apply in_app_or in H. destruct H as [H | H].
    + destruct (Hbase entry H) as (tp & Hin & Ht & Hd & Hne).
      split; [exact Hne |]. intros d Hd'. rewrite Hd in Hd'.
      apply filter_In in Hd'. destruct Hd' as [Hd' Hm].
      apply getDronesAtTime_In in Hd'. split; [exact Hm |]. lia.
    + apply Hcustom in H. destruct H as (_ & Hd & Hne).
      split; [exact Hne |]. intros d Hd'. rewrite Hd in Hd'.
      unfold filedUnder in Hd'. apply filter_In in Hd'.
      destruct Hd' as [_ Hm]. apply andb_true_iff in Hm.
      destruct Hm as [Hm Ht]. apply Z.eqb_eq in Ht. tauto.
  - intros d. split.
    + intros (entry & H & Hd). apply in_app_or in H. destruct H as [H | H].
      * destruct (Hbase entry H) as (tp & Hin & Ht & Hds & _).
        rewrite Hds in Hd. apply filter_In in Hd. destruct Hd as [Hd Hm].
        apply getDronesAtTime_In in Hd. destruct Hd as [Hd Htp].
        split; [exact Hm |]. left. split; [exact Hd |]. now rewrite Htp.
      * apply Hcustom in H. destruct H as (_ & Hds & _).
        rewrite Hds in Hd. unfold filedUnder in Hd. apply filter_In in Hd.
        destruct Hd as [Hd Hm]. apply andb_true_iff in Hm. tauto.
    + intros (Hm & [[Hd Htp] | Hd]).
      * assert (Hin : In d (filter (matchesFilters filters)
                              (getDronesAtTime dataset (timePoint d)))).
        { apply filter_In. split; [| exact Hm].
          apply getDronesAtTime_In. tauto. }
        destruct (baseSeriesFrom_complete dataset filters 0 _ _ Htp)
          as (entry & He & _ & Hds).
        { intros E. rewrite E in Hin. destruct Hin. }
        exists entry. split; [apply in_or_app; now left |]. now rewrite Hds.
      * assert (Hin : In d (filedUnder filters (timePoint d) customDrones)).
        { unfold filedUnder. apply filter_In. split; [exact Hd |].
          now rewrite Hm, Z.eqb_refl. }
        exists {| Series.timePoint := timePoint d;
                  Series.label := Series.AI (timePoint d);
                  Series.drones := filedUnder filters (timePoint d) customDrones |}.
        split; [| exact Hin]. apply in_or_app. right. apply Hcustom. simpl.
        split; [reflexivity |]. split; [reflexivity |].
        intros E. rewrite E in Hin. destruct Hin.
  - exists (baseSeriesOf dataset filters), (customEntriesOf filters customDrones).
    split; [reflexivity |]. split; [apply baseSeriesFrom_timePoints |].
    split; [| split; [exact Hsorted | exact Hcustom]].
    intros entry H. apply baseSeriesFrom_In_index in H.
    destruct H as (k & tp & Hk & He). apply baseEntryOf_Some in He.
    destruct He as (Ht & Hl & Hd & _). rewrite Ht. split; [exact Hd |].
    exists k. split; [exact Hk | exact Hl].
Qed.

(** X26.  The time-point series handed to the 2D map: every entry holds at
    least one drone, and each of its drones passes the filters and carries
    the entry's time point; a drone is shown in some entry exactly when it
    passes the filters and is either a dataset drone whose time point is
    one of the dataset's time points or a custom drone.  The series is made
    of two parts.  First the dataset entries, one per time point that has a
    passing drone, in the order of the dataset's time points: each holds
    exactly the passing dataset drones of its time point, in their order,
    under the label stored at the index of the time point (or the [T] label).
    Then the custom entries, in strictly ascending time points: they are
    exactly the entries with an [AI] label that hold all passing custom
    drones of their time point, in their order, where there is one.  So a
    custom drone is never merged into a dataset entry. *)
Theorem timePointSeries_spec dataset filters customDrones :
  let series := timePointSeries dataset filters customDrones in
  (forall entry, In entry series ->
     Series.drones entry <> []
     /\ forall d, In d (Series.drones entry) ->
          matchesFilters filters d = true
          /\ timePoint d = Series.timePoint entry)
  /\ (forall d,
        (exists entry, In entry series /\ In d (Series.drones entry))
        <-> matchesFilters filters d = true
            /\ ((In d (drones dataset) /\ In (timePoint d) (timePoints dataset))
                \/ In d customDrones))
  /\ exists base custom,
       series = base ++ custom
       /\ map Series.timePoint base
          = filter
              (fun timePoint0 =>
                 existsb (matchesFilters filters)
                   (getDronesAtTime dataset timePoint0))
              (timePoints dataset)
       /\ (forall entry, In entry base ->
            Series.drones entry
            = filter (matchesFilters filters)
                (getDronesAtTime dataset (Series.timePoint entry))
            /\ exists index,
                 nth_error (timePoints dataset) index
                 = Some (Series.timePoint entry)
                 /\ Series.label entry
                    = labelAt dataset index (Series.timePoint entry))
       /\ StronglySorted Z.lt (map Series.timePoint custom)
       /\ (forall entry,
            In entry custom
            <-> Series.label entry = Series.AI (Series.timePoint entry)
                /\ Series.drones entry
                   = filter
                       (fun drone =>
                          matchesFilters filters drone
                          && (timePoint drone =? Series.timePoint entry)%Z)
                       customDrones
                /\ Series.drones entry <> []).
Proof. exact (timePointSeries_properties dataset filters customDrones). Qed.

(** ** Time layers of the 2D map (DroneRangeMap2D.tsx) *)

Module Layer.

(** A marker; [id] stands for the string [`${layer.timePoint}-${drone.droneId}`]. *)
Record Marker := {
  id : Z * string;
  x : R;
  y : R;
  shape : option string
}.

Record t := {
  timePoint : Z;
  label : Series.Label;
  color : option string;
  isCurrent : bool;
  markers : list Marker
}.

End Layer.















(** ** Signal colours of the 2D map (DroneRangeMap2D.tsx) *)

(** The three numbers that [signalIntensityToColor] places in its
    [`hsl(${hue} ${saturation}% ${lightness}%)`] string. *)
Record HslColor := {
  hue : R;
  saturation : R;
  lightness : R
}.

Definition signalIntensityToColor (intensity : R) : HslColor :=
  let normalized := Rmin (Rmax (intensity / 100) 0) 1 in
  {| hue := 12 + normalized * 110;
     saturation := 85;
     lightness := 45 + normalized * 15 |}.

(** [Math.min(Math.max(intensity / 100, 0), 1)]. *)
Definition normalizedIntensity (intensity : R) : R :=
  Rmin (Rmax (intensity / 100) 0) 1.

Lemma normalizedIntensity_range (intensity : R) :
  0 <= normalizedIntensity intensity <= 1.
Proof.
  unfold normalizedIntensity. split.
  - apply Rmin_glb; [apply Rmax_r | lra].
  - apply Rmin_r.
Qed.

Lemma normalizedIntensity_monotone (a b : R) :
  a <= b -> normalizedIntensity a <= normalizedIntensity b.
Proof.
  intros H. unfold normalizedIntensity.
  apply Rle_min_compat_r. apply Rle_max_compat_r. lra.
Qed.

Lemma normalizedIntensity_inside (intensity : R) :
  0 <= intensity <= 100 -> normalizedIntensity intensity = intensity / 100.
Proof.
  intros H. unfold normalizedIntensity.
  rewrite Rmax_left by lra. apply Rmin_left. lra.
Qed.

Lemma signalIntensityToColor_channels (intensity : R) :
  hue (signalIntensityToColor intensity) = 12 + normalizedIntensity intensity * 110
  /\ lightness (signalIntensityToColor intensity)
     = 45 + normalizedIntensity intensity * 15.
Proof. split; reflexivity. Qed.

Lemma signalIntensityToColor_properties :
  (forall intensity,
      12 <= hue (signalIntensityToColor intensity) <= 122
      /\ saturation (signalIntensityToColor intensity) = 85
      /\ 45 <= lightness (signalIntensityToColor intensity) <= 60)
  /\ (forall a b, a <= b ->
        hue (signalIntensityToColor a) <= hue (signalIntensityToColor b)
        /\ lightness (signalIntensityToColor a)
           <= lightness (signalIntensityToColor b))
  /\ (forall intensity, intensity <= 0 ->
        hue (signalIntensityToColor intensity) = 12
        /\ lightness (signalIntensityToColor intensity) = 45)
  /\ (forall intensity, 100 <= intensity ->
        hue (signalIntensityToColor intensity) = 122
        /\ lightness (signalIntensityToColor intensity) = 60)
  /\ (forall intensity, 0 <= intensity <= 100 ->
        hue (signalIntensityToColor intensity) = 12 + intensity * 1.1
        /\ lightness (signalIntensityToColor intensity) = 45 + intensity * 0.15).
Proof.
  split; [| split; [| split; [| split]]].
  - intros intensity.
    destruct (signalIntensityToColor_channels intensity) as [-> ->].
    pose proof (normalizedIntensity_range intensity).
    split; [lra |]. split; [reflexivity | lra].
  - intros a b H.
    destruct (signalIntensityToColor_channels a) as [-> ->].
    destruct (signalIntensityToColor_channels b) as [-> ->].
    pose proof (normalizedIntensity_monotone a b H). lra.
  - intros intensity H.
    destruct (signalIntensityToColor_channels intensity) as [-> ->].
    assert (E : normalizedIntensity intensity = 0).
    { unfold normalizedIntensity. rewrite Rmax_right by lra.
      apply Rmin_left. lra. }
    rewrite E. lra.
  - intros intensity H.
    destruct (signalIntensityToColor_channels intensity) as [-> ->].
    assert (E : normalizedIntensity intensity = 1).
    { unfold normalizedIntensity. rewrite Rmax_left by lra.
      apply Rmin_right. lra. }
    rewrite E. lra.
  - intros intensity H.
    destruct (signalIntensityToColor_channels intensity) as [-> ->].
    rewrite normalizedIntensity_inside by exact H. lra.
Qed.

(** X28.  The signal colour: for every intensity the hue lies between 12
    (red) and 122 (green), the saturation is 85 and the lightness lies
    between 45 and 60; hue and lightness never decrease when the intensity
    grows; an intensity of 0 or below gives the red end (12, 45), one of 100
    or above the green end (122, 60), and in between both are linear in the
    intensity. *)
Theorem signalIntensityToColor_spec :
  (forall intensity,
      12 <= hue (signalIntensityToColor intensity) <= 122
      /\ saturation (signalIntensityToColor intensity) = 85
      /\ 45 <= lightness (signalIntensityToColor intensity) <= 60)
  /\ (forall a b, a <= b ->
        hue (signalIntensityToColor a) <= hue (signalIntensityToColor b)
        /\ lightness (signalIntensityToColor a)
           <= lightness (signalIntensityToColor b))
  /\ (forall intensity, intensity <= 0 ->
        hue (signalIntensityToColor intensity) = 12
        /\ lightness (signalIntensityToColor intensity) = 45)
  /\ (forall intensity, 100 <= intensity ->
        hue (signalIntensityToColor intensity) = 122
        /\ lightness (signalIntensityToColor intensity) = 60)
  /\ (forall intensity, 0 <= intensity <= 100 ->
        hue (signalIntensityToColor intensity) = 12 + intensity * 1.1
        /\ lightness (signalIntensityToColor intensity) = 45 + intensity * 0.15).
Proof. exact signalIntensityToColor_properties. Qed.
